(** * Market-analysis cache, technical scoring engine and reply shaping

    A shallow embedding of the TypeScript services

    - [lib/services/market-intelligence-service.ts] (cache and scoring),
    - [lib/services/enhanced-grok-service.ts] (query processing, suggestions),
    - [lib/services/ai-model-integration.ts] (orchestration entry point),
    - [components/ChatInterface.tsx] ([determineUserExpertise]),

    together with the properties their specification states about them.

    Numbers.  A JavaScript number that is finite is a rational; it is
    embedded as the element of [Q] it denotes.  Comparisons of doubles are
    exact, so every threshold test below is the test the program runs.
    Arithmetic is read twice.  The scoring functions of the first part take
    [+], [-], [*], [/] as the exact operations; the properties stated of
    them are about labels, ranges and comparisons and hold as well when
    every result is rounded.  [Module Double] rounds every result to the
    nearest binary64 double, as the program does, and carries the
    properties that depend on the computed values.  Results that can leave
    the finite range have type [num], which adds the two infinities and
    NaN.  A field of an untyped record that may be missing is an [option]:
    [None] is [undefined].

    Text.  A string is the sequence of its bytes.  [toLowerCase] is the
    program's on text of ASCII characters; the properties that depend on
    letter case assume such text. *)

From Stdlib Require Import QArith Qabs Qround Qminmax ZArith Lia Lqa List.
From Stdlib Require Import Ascii String PrimFloat SpecFloat FloatOps Uint63 DecimalString Sorted.
From stdpp Require Import gmap strings list fin_maps.

Import ListNotations.
Local Open Scope string_scope.
Local Open Scope list_scope.
Local Open Scope Z_scope.

(** ** JavaScript numbers *)

Module JS.

(** [x < y] and [x > y] on finite numbers, as booleans. *)
Definition ltb (x y : Q) : bool :=
  match (x ?= y)%Q with Lt => true | _ => false end.

Definition gtb (x y : Q) : bool := ltb y x.

Definition is_zero (x : Q) : bool := Qeq_bool x 0.

(** The results of arithmetic: a finite value, an infinity or NaN.  The two
    zeros of IEEE 754 are identified; no operation below tells them apart. *)
Inductive num : Type :=
| Fin (q : Q)
| PInf
| NInf
| NaN.

(** [a / b] for finite operands. *)
Definition div (a b : Q) : num :=
  if is_zero b then
    if is_zero a then NaN else if ltb 0 a then PInf else NInf
  else Fin (a / b).

(** [x * k] for a finite positive constant [k]. *)
Definition scale (x : num) (k : Q) : num :=
  match x with
  | Fin q => Fin (q * k)
  | other => other
  end.

(** [x > c] and [x < c] against a finite constant; NaN compares false. *)
Definition num_gtb (x : num) (c : Q) : bool :=
  match x with
  | Fin q => gtb q c
  | PInf => true
  | NInf | NaN => false
  end.

Definition num_ltb (x : num) (c : Q) : bool :=
  match x with
  | Fin q => ltb q c
  | NInf => true
  | PInf | NaN => false
  end.

(** [field > c] and [field < c] when the field may be [undefined]:
    [undefined] converts to NaN and the comparison is false. *)
Definition opt_gtb (x : option Q) (c : Q) : bool :=
  match x with Some q => gtb q c | None => false end.

Definition opt_ltb (x : option Q) (c : Q) : bool :=
  match x with Some q => ltb q c | None => false end.

(** Truthiness of a numeric field: [undefined] and [0] are falsy. *)
Definition truthy (x : option Q) : bool :=
  match x with Some q => negb (is_zero q) | None => false end.

(** [x || d] for a numeric field [x] and a numeric default [d]. *)
Definition or_default (x : option Q) (d : Q) : Q :=
  match x with
  | Some q => if is_zero q then d else q
  | None => d
  end.

(** [Math.max(0, x)], [Math.min(0, x)], [Math.abs(x)]. *)
Definition max0 (x : Q) : Q := if ltb 0 x then x else 0%Q.
Definition min0 (x : Q) : Q := if ltb x 0 then x else 0%Q.
Definition abs (x : Q) : Q := if ltb x 0 then (- x)%Q else x.

(** [Math.round(x)]: the integer nearest to [x], ties towards [+infinity]. *)
Definition round (x : Q) : Z := Qfloor (x + (1 # 2)).

End JS.

(** ** Data model *)

(** A record of the market-data provider.  The program reads it untyped,
    so every numeric field may be missing. *)
Record MarketRecord : Type := {
  symbol : string;
  price : option Q;
  percentChange24h : option Q;
  percentChange7d : option Q;
  volume24h : option Q;
  volume24hPrevious : option Q;
  volumeChange24h : option Q;
  marketCap : option Q;
  ma50 : option Q;
  ma200 : option Q;
  socialMentionsChange24h : option Q;
  githubActivity24h : option Q
}.

(** The provider's sentiment snapshot ([MarketSentiment] of the data
    service, read through [??] and [||] defaults). *)
Record MarketSentiment : Type := {
  fearGreedIndex : option Q;
  fearGreedLabel : option string;
  marketTrend : option string;
  volumeTrend : option string
}.

Record Indicators : Type := {
  macd : string;
  rsi : Z;
  movingAverages : string
}.

Record TechnicalSignal : Type := {
  sentiment : string;
  indicators : Indicators
}.

(** ** Technical scoring engine *)

Definition calculateTechnicalSentiment (token : MarketRecord) : string :=
  let priceChange := percentChange24h token in
  let volume := volume24h token in
  let prevVolume := JS.or_default (volume24hPrevious token) 0 in
  if JS.opt_gtb priceChange 5 && JS.opt_gtb volume prevVolume then "strongly bullish"
  else if JS.opt_gtb priceChange 2 && JS.opt_gtb volume prevVolume then "bullish"
  else if JS.opt_ltb priceChange (-5) && JS.opt_gtb volume prevVolume then "strongly bearish"
  else if JS.opt_ltb priceChange (-2) && JS.opt_gtb volume prevVolume then "bearish"
  else "neutral".

Definition calculateMACD (token : MarketRecord) : string :=
  let shortTerm := JS.or_default (percentChange24h token) 0 in
  let longTerm := JS.or_default (percentChange7d token) 0 in
  if JS.gtb shortTerm longTerm then "bullish" else "bearish".

(** [losses || 1] is never zero and both operands are finite, so the
    quotient and everything built on it stay finite. *)
Definition calculateRSI (token : MarketRecord) : Z :=
  let gains := JS.max0 (JS.or_default (percentChange24h token) 0) in
  let losses := JS.abs (JS.min0 (JS.or_default (percentChange24h token) 0)) in
  JS.round (100 - 100 / (1 + gains / JS.or_default (Some losses) 1))%Q.

(** The same computation when every arithmetic result is rounded by [fl],
    the rounding of the number format; [Math.max], [Math.min], [Math.abs]
    and [Math.round] are exact. *)
Definition calculateRSI_rounded (fl : Q -> Q) (token : MarketRecord) : Z :=
  let gains := JS.max0 (JS.or_default (percentChange24h token) 0) in
  let losses := JS.abs (JS.min0 (JS.or_default (percentChange24h token) 0)) in
  JS.round
    (fl (100 - fl (100 / fl (1 + fl (gains / JS.or_default (Some losses) 1)))))%Q.

Definition analyzeMovingAverages (token : MarketRecord) : string :=
  let price_ := JS.or_default (price token) 0 in
  let ma50_ := JS.or_default (ma50 token) price_ in
  let ma200_ := JS.or_default (ma200 token) price_ in
  if JS.gtb price_ ma50_ && JS.gtb ma50_ ma200_ then "strong uptrend"
  else if JS.gtb price_ ma50_ then "uptrend"
  else if JS.ltb price_ ma50_ && JS.ltb ma50_ ma200_ then "strong downtrend"
  else if JS.ltb price_ ma50_ then "downtrend"
  else "sideways".

Definition calculateIndicators (token : MarketRecord) : Indicators :=
  {| macd := calculateMACD token;
     rsi := calculateRSI token;
     movingAverages := analyzeMovingAverages token |}.

(** ** Plain objects used as dictionaries

    [const o = {}] creates an object whose prototype is [Object.prototype].
    Its own properties form a finite map.  An assignment [o[k] = v] adds an
    own property, except for the key ["__proto__"], which runs the
    inherited setter: that replaces the prototype when [v] is an object and
    does nothing when [v] is a number. *)

Module Obj.

Definition proto_key : string := "__proto__".

(** [o[k] = v] for an object holding numbers. *)
Definition set_number {V : Type} (o : gmap string V) (k : string) (v : V)
  : gmap string V :=
  if String.eqb k proto_key then o else <[k := v]> o.

(** An object holding objects: own properties, and the prototype when an
    assignment to ["__proto__"] has replaced it ([None]: still
    [Object.prototype]). *)
Record table (V : Type) : Type := {
  own : gmap string V;
  proto : option V
}.
Arguments own {V} _.
Arguments proto {V} _.

Definition empty {V : Type} : table V := {| own := ∅; proto := None |}.

(** [o[k] = v] for an object holding objects. *)
Definition set_object {V : Type} (o : table V) (k : string) (v : V) : table V :=
  if String.eqb k proto_key
  then {| own := own o; proto := Some v |}
  else {| own := <[k := v]> (own o); proto := proto o |}.

(** The property names every object inherits from [Object.prototype]
    (the accessor ["__proto__"] is treated apart). *)
Definition object_prototype_members : list string :=
  [ "constructor"; "hasOwnProperty"; "isPrototypeOf"; "propertyIsEnumerable";
    "toLocaleString"; "toString"; "valueOf";
    "__defineGetter__"; "__defineSetter__"; "__lookupGetter__"; "__lookupSetter__" ].

Definition inherited (k : string) : bool :=
  existsb (String.eqb k) object_prototype_members.

End Obj.

(** What a property read on the signal table can produce. *)
Inductive jsvalue : Type :=
| VUndefined
| VNull
| VSignal (s : TechnicalSignal)
| VString (s : string)
| VIndicators (i : Indicators)
| VBuiltin (name : string).
    (* a member of [Object.prototype], or that object itself *)

(** [x || null]: only [undefined], [null] and the empty string are falsy
    among these values. *)
Definition or_null (x : jsvalue) : jsvalue :=
  match x with
  | VUndefined | VNull => VNull
  | VString s => if String.eqb s EmptyString then VNull else x
  | _ => x
  end.

(** A read on [Object.prototype] itself. *)
Definition object_prototype_get (k : string) : jsvalue :=
  if Obj.inherited k then VBuiltin k
  else if String.eqb k Obj.proto_key then VNull
  else VUndefined.

(** A read on a signal object [{sentiment, indicators}]. *)
Definition signal_get (s : TechnicalSignal) (k : string) : jsvalue :=
  if String.eqb k "sentiment" then VString (sentiment s)
  else if String.eqb k "indicators" then VIndicators (indicators s)
  else if String.eqb k Obj.proto_key then VBuiltin "Object.prototype"
  else object_prototype_get k.

(** [signals[k]]: own property first, then the prototype chain. *)
Definition signals_get (o : Obj.table TechnicalSignal) (k : string) : jsvalue :=
  match Obj.own o !! k with
  | Some s => VSignal s
  | None =>
      match Obj.proto o with
      | Some p => if String.eqb k Obj.proto_key then VSignal p else signal_get p k
      | None =>
          if String.eqb k Obj.proto_key then VBuiltin "Object.prototype"
          else object_prototype_get k
      end
  end.

Definition generateTechnicalSignals (marketData : list MarketRecord)
  : Obj.table TechnicalSignal :=
  fold_left
    (fun signals token =>
       Obj.set_object signals (symbol token)
         {| sentiment := calculateTechnicalSentiment token;
            indicators := calculateIndicators token |})
    marketData Obj.empty.

(** ** Dominance index *)

(** [Number(x.toFixed(2))].  [toFixed] takes the integer [n] with [n / 100]
    nearest to the magnitude of [x], the larger one on a tie, and keeps the
    sign; from [10^21] on it prints the number itself, which [Number] reads
    back unchanged, as it does the non-finite values. *)
Definition hundredths (x : Q) : Z :=
  if JS.ltb x 0 then - Qfloor (- x * 100 + (1 # 2)) else Qfloor (x * 100 + (1 # 2)).

Definition toFixed2_number (x : JS.num) : JS.num :=
  match x with
  | JS.Fin q =>
      if JS.ltb (JS.abs q) (10 ^ 21) then JS.Fin (hundredths q # 100) else JS.Fin q
  | other => other
  end.

Definition marketCap_total (marketData : list MarketRecord) : Q :=
  fold_left (fun sum token => (sum + JS.or_default (marketCap token) 0)%Q) marketData 0%Q.

(** [Number(((cap / total) * 100).toFixed(2))] *)
Definition share_percent (total cap : Q) : JS.num :=
  toFixed2_number (JS.scale (JS.div cap total) 100).

(** The callback of [marketData.forEach]. *)
Definition dominance_entry (total : Q) (dominance : gmap string JS.num)
    (token : MarketRecord) : gmap string JS.num :=
  match marketCap token with
  | Some cap =>
      if JS.truthy (Some cap)
      then Obj.set_number dominance (symbol token) (share_percent total cap)
      else dominance
  | None => dominance
  end.

Definition calculateDominanceIndex (marketData : list MarketRecord)
  : gmap string JS.num :=
  let total := marketCap_total marketData in
  fold_left (dominance_entry total) marketData ∅.

(** ** Trend narratives *)

Definition count_of (n : nat) : Q := inject_Z (Z.of_nat n).

(** [reduce((sum, token) => sum + (field(token) || 0), 0)]. *)
Definition sum_field (field : MarketRecord -> option Q) (marketData : list MarketRecord) : Q :=
  fold_left (fun sum token => (sum + JS.or_default (field token) 0)%Q) marketData 0%Q.

(** [cond && trends.push(text)] as a list extension. *)
Definition push_if (cond : bool) (text : string) (trends : list string) : list string :=
  if cond then trends ++ [text] else trends.

(** On an empty batch the average is [0 / 0], NaN, and neither volume
    narrative is pushed.  The literal [0.6] is the double nearest to 3/5;
    [rally_threshold_float] below checks on IEEE doubles that the comparison
    with an integer count is the one with the exact 3/5. *)
Definition extractShortTermTrends (marketData : list MarketRecord) : list string :=
  let volume24hChange :=
    JS.div (sum_field volumeChange24h marketData) (count_of (length marketData)) in
  let trends := [] in
  let trends := push_if (JS.num_gtb volume24hChange 20) "High volume spike across markets" trends in
  let trends := push_if (JS.num_ltb volume24hChange (-20)) "Volume declining across markets" trends in
  let gainers := length (List.filter (fun t => JS.opt_gtb (percentChange24h t) 5) marketData) in
  let losers := length (List.filter (fun t => JS.opt_ltb (percentChange24h t) (-5)) marketData) in
  let trends :=
    push_if (JS.gtb (count_of gainers) (count_of (length marketData) * 0.6))
      "Broad market rally" trends in
  let trends :=
    push_if (JS.gtb (count_of losers) (count_of (length marketData) * 0.6))
      "Market-wide correction" trends in
  trends.

Definition extractMediumTermTrends (marketData : list MarketRecord) : list string :=
  let avgChange7d :=
    JS.div (sum_field percentChange7d marketData) (count_of (length marketData)) in
  let trends := [] in
  let trends := push_if (JS.num_gtb avgChange7d 10) "Strong bullish week" trends in
  let trends := push_if (JS.num_ltb avgChange7d (-10)) "Bearish weekly trend" trends in
  trends.

Definition identifyEmergingTrends (marketData : list MarketRecord) : list string :=
  let trends := [] in
  let socialGaining :=
    map symbol (List.filter (fun t => JS.opt_gtb (socialMentionsChange24h t) 50) marketData) in
  let trends :=
    push_if (0 <? length socialGaining)%nat
      ("Rising social interest in: " +:+ String.concat ", " socialGaining) trends in
  let developmentActive :=
    map symbol (List.filter (fun t => JS.opt_gtb (githubActivity24h t) 10) marketData) in
  let trends :=
    push_if (0 <? length developmentActive)%nat
      ("Active development in: " +:+ String.concat ", " developmentActive) trends in
  trends.

Record Trends : Type := {
  shortTerm : list string;
  mediumTerm : list string;
  emerging : list string
}.

Definition analyzeTrends (marketData : list MarketRecord) : Trends :=
  {| shortTerm := extractShortTermTrends marketData;
     mediumTerm := extractMediumTermTrends marketData;
     emerging := identifyEmergingTrends marketData |}.

(** The IEEE 754 reading of [count > length * 0.6] for counts and lengths
    that fit a machine integer. *)
Definition rally_threshold_float (count len : nat) : bool :=
  PrimFloat.ltb
    (PrimFloat.mul (PrimFloat.of_uint63 (Uint63.of_Z (Z.of_nat len))) 0x1.3333333333333p-1)
    (PrimFloat.of_uint63 (Uint63.of_Z (Z.of_nat count))).

(** All pairs [count <= len <= bound] agree with the exact test. *)
Definition rally_threshold_agrees (bound : nat) : bool :=
  forallb
    (fun len =>
       forallb
         (fun count =>
            Bool.eqb (rally_threshold_float count len)
                     (JS.gtb (count_of count) (count_of len * 0.6)))
         (seq 0 (S len)))
    (seq 0 (S bound)).

(** ** Exceptions *)

Inductive exn : Type :=
| TypeError (msg : string)
| ExternalError (msg : string).

Inductive outcome (A : Type) : Type :=
| Returned (a : A)
| Thrown (e : exn).
Arguments Returned {A} a.
Arguments Thrown {A} e.

(** ** Market overview *)

(** Decimal digits of a non-negative integer. *)
Definition digits (n : Z) : string := NilZero.string_of_uint (N.to_uint (Z.to_N n)).

Definition two_digits (n : Z) : string :=
  if (n <? 10)%Z then "0" +:+ digits n else digits n.

(** [x.toFixed(2)] for [|x| < 10^21]; beyond, [toFixed] defers to the
    number's own text, [number_toString]. *)
Definition toFixed2 (number_toString : Q -> string) (x : Q) : string :=
  if JS.ltb (JS.abs x) (10 ^ 21) then
    let n := Qfloor (JS.abs x * 100 + (1 # 2)) in
    (if JS.ltb x 0 then "-" else EmptyString) +:+ digits (n / 100)%Z +:+ "." +:+ two_digits (n mod 100)%Z
  else number_toString x.

(** [marketData.sort((a, b) => b.percentChange24h - a.percentChange24h)]:
    a stable sort, descending, when every record carries the field.  With a
    missing field the comparison is NaN, the comparator is not consistent
    and the order is the engine's choice; the order below is then one of
    the possible ones, and no property is stated of it. *)
Fixpoint sort_insert (x : MarketRecord) (sorted : list MarketRecord) : list MarketRecord :=
  match sorted with
  | [] => [x]
  | y :: rest =>
      match percentChange24h x, percentChange24h y with
      | Some px, Some py =>
          if JS.ltb px py then y :: sort_insert x rest else x :: sorted
      | _, _ => x :: sorted
      end
  end.

Definition sort_by_change (marketData : list MarketRecord) : list MarketRecord :=
  fold_right sort_insert [] marketData.

(** ** The analysis snapshot *)

Record SentimentBlock : Type := {
  overall : string;
  snapshotFearGreedIndex : Q;
  socialSentiment : string;
  topMentions : list string
}.

Record Metrics : Type := {
  totalValueLocked : string;
  dailyVolume : string;
  dominanceIndex : gmap string JS.num
}.

Record MarketAnalysis : Type := {
  overview : string;
  sentimentBlock : SentimentBlock;      (* field [sentiment] of the source *)
  trends : Trends;
  metrics : Metrics;
  technicalSignals : Obj.table TechnicalSignal
}.

Record OnChainMetrics : Type := {
  tvl : string;
  volume : string;
  transactions : string
}.

(** [x ?? d] and [s || d] on optional values. *)
Definition nullish {A : Type} (x : option A) (d : A) : A :=
  match x with Some a => a | None => d end.

Definition or_string (x : option string) (d : string) : string :=
  match x with
  | Some s => if String.eqb s EmptyString then d else s
  | None => d
  end.

(** [generateMarketOverview] sorts its argument in place before it reads
    the leader, so it also yields the reordered batch.  It throws a
    [TypeError] on an empty batch and on a leader without a 24h change. *)
Definition generateMarketOverview (number_toString : Q -> string)
    (marketData : list MarketRecord) (sentiment_ : MarketSentiment)
  : list MarketRecord * outcome string :=
  let sorted := sort_by_change marketData in
  let topPerformers := firstn 3 sorted in
  let overallSentiment :=
    if JS.opt_gtb (fearGreedIndex sentiment_) 65 then "bullish"
    else if JS.opt_ltb (fearGreedIndex sentiment_) 35 then "bearish"
    else "neutral" in
  (sorted,
   match topPerformers with
   | [] => Thrown (TypeError "Cannot read properties of undefined (reading 'symbol')")
   | leader :: _ =>
       match percentChange24h leader with
       | None => Thrown (TypeError "Cannot read properties of undefined (reading 'toFixed')")
       | Some change =>
           Returned
             ("Market is showing " +:+ overallSentiment +:+ " signals with "
              +:+ symbol leader +:+ " leading gains at "
              +:+ toFixed2 number_toString change +:+ "% in 24h. Volume trends indicate "
              +:+ or_string (volumeTrend sentiment_) "stable" +:+ " activity.")
       end
   end).

(** ** The outside world

    The collaborators that are not part of the services: the wall clock, the
    market-data provider, the language-model endpoint and the training
    recorder.  Each call may change the outside world and either returns or
    throws. *)

Inductive Expertise : Type := beginner | intermediate | advanced.

(** The request context handed over by the chat front-end. *)
Record Context : Type := {
  walletConnected : bool;
  walletAddress : option string;
  balance : option Q;
  tokenBalances : option (list string);
  expertiseLevel : option Expertise;
  startTime : option Z
}.

(** The constants of the query processor's own [getOnChainMetrics]. *)
Record ChainActivity : Type := {
  dailyActiveUsers : string;
  chainTotalValueLocked : string;
  averageBlockTime : string;
  dailyTransactions : string
}.

(** The context after [enrichContext]. *)
Record EnrichedContext : Type := {
  base : Context;
  marketData_ : list MarketRecord;
  sentiment_ : MarketSentiment;
  chainActivity : ChainActivity;
  timestamp : Z
}.

(** A chat completion: [choices[i].message.content], which may be [null]. *)
Record Completion : Type := {
  choices : list (option string)
}.

Record InteractionMetrics : Type := {
  responseTime : Z;
  metricsWalletConnected : bool;
  explicitFeedback : string
}.

Class Externals : Type := {
  Ext : Type;
  (** [Date.now()], in milliseconds *)
  clock : Ext -> Z;
  (** [aiDataService.getMarketData(symbols)] *)
  getMarketData : list string -> Ext -> outcome (list MarketRecord) * Ext;
  (** [aiDataService.getMarketSentiment()] *)
  getMarketSentiment : Ext -> outcome MarketSentiment * Ext;
  (** [openai.chat.completions.create]: the system prompt is a function of
      the enriched context, the tool list is constant *)
  createCompletion : EnrichedContext -> string -> Ext -> outcome Completion * Ext;
  (** [aiTrainingAdapter.recordInteraction] *)
  recordInteraction : string -> option string -> InteractionMetrics -> Ext -> outcome unit * Ext;
  (** the text of a number of magnitude [10^21] or more *)
  number_toString : Q -> string
}.

(** ** Service state and the monad of service code *)

(** The two private fields of the cache singleton. *)
Record Service : Type := {
  lastUpdate : option Z;
  cachedAnalysis : option MarketAnalysis
}.

(** Calls that leave the process, recorded in order. *)
Inductive call : Type :=
| CallMarketData (symbols : list string)
| CallMarketSentiment
| CallCompletion
| CallRecordInteraction.

Record World `{Externals} : Type := {
  ext : Ext;
  service : Service;
  calls : list call
}.

Definition M `{Externals} (A : Type) : Type := World -> outcome A * World.

Definition ret `{Externals} {A : Type} (a : A) : M A := fun w => (Returned a, w).

Definition throw `{Externals} {A : Type} (e : exn) : M A := fun w => (Thrown e, w).

Definition bind `{Externals} {A B : Type} (m : M A) (k : A -> M B) : M B :=
  fun w =>
    match m w with
    | (Returned a, w') => k a w'
    | (Thrown e, w') => (Thrown e, w')
    end.

Notation "'let*' x := m 'in' k" := (bind m (fun x => k))
  (at level 10, x name, m at level 100, k at level 200, only parsing).

(** [try { body } catch (e) { handler e }] *)
Definition try_catch `{Externals} {A : Type} (body : M A) (handler : exn -> M A) : M A :=
  fun w =>
    match body w with
    | (Returned a, w') => (Returned a, w')
    | (Thrown e, w') => handler e w'
    end.

(** Start an asynchronous call and keep its settled promise. *)
Definition settle `{Externals} {A : Type} (m : M A) : M (outcome A) :=
  fun w => let '(r, w') := m w in (Returned r, w').

(** [await p] on a settled promise. *)
Definition await `{Externals} {A : Type} (p : outcome A) : M A :=
  fun w => (p, w).

Definition external `{Externals} {A : Type} (c : call) (f : Ext -> outcome A * Ext) : M A :=
  fun w =>
    let '(r, e') := f (ext w) in
    (r, {| ext := e'; service := service w; calls := calls w ++ [c] |}).

Definition date_now `{Externals} : M Z := fun w => (Returned (clock (ext w)), w).

Definition get_service `{Externals} : M Service := fun w => (Returned (service w), w).

Definition set_cachedAnalysis `{Externals} (a : MarketAnalysis) : M unit :=
  fun w =>
    (Returned tt,
     {| ext := ext w;
        service := {| lastUpdate := lastUpdate (service w); cachedAnalysis := Some a |};
        calls := calls w |}).

Definition set_lastUpdate `{Externals} (t : Z) : M unit :=
  fun w =>
    (Returned tt,
     {| ext := ext w;
        service := {| lastUpdate := Some t; cachedAnalysis := cachedAnalysis (service w) |};
        calls := calls w |}).

(** ** Strings *)

(** [s.toLowerCase()] for text of ASCII characters: the 26 capital
    letters are lowered, every other character is kept.  (Outside ASCII the
    program's function also changes other characters, some of them into
    ASCII letters; see [is_ascii].) *)
Definition lower_ascii (c : ascii) : ascii :=
  let n := nat_of_ascii c in
  if ((65 <=? n) && (n <=? 90))%nat then ascii_of_nat (n + 32) else c.

Fixpoint toLowerCase (s : string) : string :=
  match s with
  | EmptyString => EmptyString
  | String c rest => String (lower_ascii c) (toLowerCase rest)
  end.

(** [s.includes(term)]: [term] occurs in [s] as a contiguous run. *)
Fixpoint includes (s term : string) : bool :=
  String.prefix term s ||
  match s with
  | EmptyString => false
  | String _ rest => includes rest term
  end.

(** Text of ASCII characters only. *)
Fixpoint is_ascii (s : string) : bool :=
  match s with
  | EmptyString => true
  | String c rest => (nat_of_ascii c <? 128)%nat && is_ascii rest
  end.

(** ** Market-analysis cache ([MarketIntelligenceService]) *)

Definition CACHE_DURATION : Z := 5 * 60 * 1000.

Definition initial_service : Service :=
  {| lastUpdate := None; cachedAnalysis := None |}.

Definition shouldRefreshCache `{Externals} : M bool :=
  let* svc := get_service in
  match lastUpdate svc, cachedAnalysis svc with
  | Some updated, Some _ =>
      let* now := date_now in
      ret (CACHE_DURATION <? now - updated)
  | _, _ => ret true
  end.

Definition getOnChainMetrics `{Externals} : M OnChainMetrics :=
  ret {| tvl := "$845M"; volume := "$324M"; transactions := "24.5M" |}.

Definition analysis_symbols : list string := ["SOL"; "BTC"; "ETH"; "BONK"; "JUP"].

(** The three fetches are started together and all of them run; the
    combined promise rejects with the rejection of the first that fails (in
    array order here).  The [catch] clause logs and rethrows. *)
Definition generateMarketAnalysis `{Externals} : M MarketAnalysis :=
  try_catch
    (let* p1 := settle (external (CallMarketData analysis_symbols)
                                 (getMarketData analysis_symbols)) in
     let* p2 := settle (external CallMarketSentiment getMarketSentiment) in
     let* p3 := settle getOnChainMetrics in
     let* marketData := await p1 in
     let* sentiment_ := await p2 in
     let* onChainMetrics := await p3 in
     let trends_ := analyzeTrends marketData in
     let technicalSignals_ := generateTechnicalSignals marketData in
     let '(marketData', overview_) :=
       generateMarketOverview number_toString marketData sentiment_ in
     let* overview_ := await overview_ in
     ret {| overview := overview_;
            sentimentBlock :=
              {| overall := nullish (marketTrend sentiment_) "neutral";
                 snapshotFearGreedIndex := nullish (fearGreedIndex sentiment_) 0%Q;
                 socialSentiment := nullish (fearGreedLabel sentiment_) "neutral";
                 topMentions := [] |};
            trends := trends_;
            metrics :=
              {| totalValueLocked := tvl onChainMetrics;
                 dailyVolume := volume onChainMetrics;
                 dominanceIndex := calculateDominanceIndex marketData' |};
            technicalSignals := technicalSignals_ |})
    (fun error => throw error).

(** The result is [this.cachedAnalysis!], read after the conditional
    refresh; [None] is [null]. *)
Definition getMarketAnalysis `{Externals} : M (option MarketAnalysis) :=
  let* refresh := shouldRefreshCache in
  let* _ :=
    (if refresh : bool then
       let* fresh := generateMarketAnalysis in
       let* _ := set_cachedAnalysis fresh in
       let* now := date_now in
       set_lastUpdate now
     else ret tt) in
  let* svc := get_service in
  ret (cachedAnalysis svc).

Definition analyzePriceTrend `{Externals} (token : string) : M jsvalue :=
  let* analysis_ := getMarketAnalysis in
  match analysis_ with
  | Some a => ret (or_null (signals_get (technicalSignals a) token))
  | None => throw (TypeError "Cannot read properties of null (reading 'technicalSignals')")
  end.

(** ** Query processing ([EnhancedGrokService]) *)

Module Grok.

Record Analysis : Type := {
  marketContext : option MarketAnalysis;
  sentiment : MarketSentiment
}.

(** No path of the service sets [intent]; it stays [undefined]. *)
Record Response : Type := {
  message : option string;
  suggestions : list string;
  analysis : option Analysis
}.

End Grok.

Definition marketTerms : list string :=
  ["price"; "market"; "trend"; "analysis"; "movement"; "prediction"].

Definition isMarketRelatedQuery (query : string) : bool :=
  existsb (fun term => includes (toLowerCase query) term) marketTerms.

Definition generateSuggestions (query : string) (response : option string)
    (context : Context) : list string :=
  let suggestions := [] in
  let suggestions :=
    if isMarketRelatedQuery query
    then suggestions ++ ["Show detailed market analysis"; "Compare with other tokens";
                         "Check historical trends"]
    else suggestions in
  let suggestions :=
    if walletConnected context
    then suggestions ++ ["Check my portfolio performance"; "Show my transaction history";
                         "Analyze my trading patterns"]
    else suggestions in
  let suggestions :=
    match expertiseLevel context with
    | Some beginner => suggestions ++ ["Explain blockchain basics"]
    | Some advanced => suggestions ++ ["Show advanced trading metrics"]
    | _ => suggestions
    end in
  firstn 3 suggestions.

Definition enrichContext `{Externals} (context : Context) : M EnrichedContext :=
  let* marketData := external (CallMarketData ["SOL"; "BTC"; "ETH"])
                              (getMarketData ["SOL"; "BTC"; "ETH"]) in
  let* sentiment_ := external CallMarketSentiment getMarketSentiment in
  let chainActivity_ :=
    {| dailyActiveUsers := "1.2M"; chainTotalValueLocked := "$845M";
       averageBlockTime := "400ms"; dailyTransactions := "24.5M" |} in
  let* now := date_now in
  ret {| base := context; marketData_ := marketData; sentiment_ := sentiment_;
         chainActivity := chainActivity_; timestamp := now |}.

(** [aiResponse.choices[0]?.message] is [undefined] when there is no
    choice, and reading [content] from it throws. *)
Definition enhanceResponse `{Externals} (aiResponse : Completion)
    (originalQuery : string) (context : EnrichedContext) : M Grok.Response :=
  match choices aiResponse with
  | [] => throw (TypeError "Cannot read properties of undefined (reading 'content')")
  | content :: _ =>
      let* analysis_ :=
        (if isMarketRelatedQuery originalQuery then
           let* marketAnalysis := getMarketAnalysis in
           ret (Some {| Grok.marketContext := marketAnalysis;
                        Grok.sentiment := sentiment_ context |})
         else ret None) in
      ret {| Grok.message := content;
             Grok.suggestions := generateSuggestions originalQuery content (base context);
             Grok.analysis := analysis_ |}
  end.

Definition grok_fallback : Grok.Response :=
  {| Grok.message :=
       Some "I encountered an error processing your request. Let me try a different approach - what specifically would you like to know?";
     Grok.suggestions :=
       ["Check market trends"; "Analyze token performance"; "View wallet stats"];
     Grok.analysis := None |}.

Definition processQuery `{Externals} (query : string) (context : Context)
  : M Grok.Response :=
  try_catch
    (let* enrichedContext := enrichContext context in
     let* response := external CallCompletion (createCompletion enrichedContext query) in
     enhanceResponse response query enrichedContext)
    (fun _ => ret grok_fallback).

(** ** Orchestration entry point ([AIModelIntegrationService]) *)

Module Reply.

Record t : Type := {
  message : option string;
  intent : option Empty_set;      (* [grokResponse.intent], never set *)
  suggestions : option (list string)
}.

End Reply.

Definition integration_fallback : Reply.t :=
  {| Reply.message :=
       Some "I encountered an unexpected issue. Let me know what specific information you're looking for, and I'll help you out.";
     Reply.intent := None;
     Reply.suggestions :=
       Some ["Check market trends"; "View wallet balance"; "Learn about DeFi"] |}.

(** The [try] block of [generateEnhancedResponse]. *)
Definition generateEnhancedResponse_try `{Externals} (prompt : string)
    (context : Context) : M Reply.t :=
  let* grokResponse := processQuery prompt context in
  let* now := date_now in
  let* started :=
    (match startTime context with
     | Some t => if (t =? 0)%Z then date_now else ret t
     | None => date_now
     end) in
  let* _ :=
    external CallRecordInteraction
      (recordInteraction prompt (Grok.message grokResponse)
         {| responseTime := now - started;
            metricsWalletConnected := walletConnected context;
            explicitFeedback := "neutral" |}) in
  ret {| Reply.message := Grok.message grokResponse;
         Reply.intent := None;
         Reply.suggestions := Some (Grok.suggestions grokResponse) |}.

Definition generateEnhancedResponse `{Externals} (prompt : string) (context : Context)
  : M Reply.t :=
  try_catch (generateEnhancedResponse_try prompt context)
            (fun _ => ret integration_fallback).

(** ** Expertise inference ([ChatInterface]) *)

Record AIMessage : Type := {
  role : string;
  content : string
}.

Definition advancedTerms : list string :=
  ["liquidity pool"; "impermanent loss"; "mev"; "yield farming"; "amm"].

Definition intermediateTerms : list string :=
  ["staking"; "defi"; "nft"; "market cap"; "swap"].

Definition determineUserExpertise (messages : list AIMessage) : Expertise :=
  let userMessages :=
    map (fun m => toLowerCase (content m))
        (List.filter (fun m => String.eqb (role m) "user") messages) in
  let hasAdvancedTerms :=
    existsb (fun msg => existsb (fun term => includes msg term) advancedTerms) userMessages in
  let hasIntermediateTerms :=
    existsb (fun msg => existsb (fun term => includes msg term) intermediateTerms) userMessages in
  if hasAdvancedTerms then advanced
  else if hasIntermediateTerms then intermediate
  else beginner.

(** ** Binary64 arithmetic

    The definitions above read [+], [-], [*] and [/] exactly.  A JavaScript
    number is a binary64 double: every arithmetic result is rounded to the
    nearest double, ties to the even significand, and becomes an infinity
    when the rounded value leaves the finite range.  This module reads the
    arithmetic of the program that way, for the properties that depend on
    the values computed and not only on comparisons.

    A positive rational [s], counted in units of [2^-1074] (the spacing of
    the smallest doubles), is rounded to a multiple of [2^j], where [j] is
    [0] below [2^53] units and grows by one with each further binary digit
    of [s]: 53 significant digits are kept. *)

Module Double.

(** The integer nearest to [x], the even one on a tie. *)
Definition rne (x : Q) : Z :=
  let f := Qfloor x in
  match (x - inject_Z f ?= 1 # 2)%Q with
  | Lt => f
  | Gt => f + 1
  | Eq => if Z.even f then f else f + 1
  end.

(** The spacing of the doubles at [s] is [2^quantum s] units. *)
Definition quantum (s : Q) : Z := Z.max 0 (Z.log2 (Qfloor s) - 52).

Definition round_scaled (s : Q) : Z :=
  let j := quantum s in rne (s / inject_Z (2 ^ j)) * 2 ^ j.

(** The double nearest to [q >= 0], were the exponent range unbounded
    above. *)
Definition magnitude (q : Q) : Q :=
  (inject_Z (round_scaled (q * inject_Z (2 ^ 1074))) / inject_Z (2 ^ 1074))%Q.

Definition binary64 (q : Q) : Q :=
  match (q ?= 0)%Q with
  | Lt => (- magnitude (- q))%Q
  | _ => magnitude q
  end.

(** The rounded result of an operation whose exact result is [q]: from
    [2^1024] on the rounded value is an infinity. *)
Definition fl (q : Q) : JS.num :=
  let r := binary64 q in
  if Qle_bool (inject_Z (2 ^ 1024)) r then JS.PInf
  else if Qle_bool r (- inject_Z (2 ^ 1024)) then JS.NInf
  else JS.Fin r.

(** [q] is kept by the rounding: below [2^1024] in magnitude, [q] is a
    double. *)
Definition representable (q : Q) : Prop := (binary64 q == q)%Q.

(** Every double is a whole number of units of [2^-1074]. *)
Definition on_grid (q : Q) : Prop :=
  exists k : Z, (q * inject_Z (2 ^ 1074) == inject_Z k)%Q.

(** Half the spacing of the doubles near 1, and half the spacing of the
    smallest doubles: the relative and the absolute share of a rounding
    error. *)
Definition unit_roundoff : Q := 1 # 2 ^ 53.
Definition tiny : Q := 1 # 2 ^ 1075.

(** [x + y], [x * y] and [x / y].  The two zeros are identified as in
    [JS.num]; the zero divisors of the program are sums that start from
    [+0] and array lengths, which are [+0]. *)
Definition add (x y : JS.num) : JS.num :=
  match x, y with
  | JS.Fin a, JS.Fin b => fl (a + b)
  | JS.NaN, _ | _, JS.NaN => JS.NaN
  | JS.PInf, JS.NInf | JS.NInf, JS.PInf => JS.NaN
  | JS.PInf, _ | _, JS.PInf => JS.PInf
  | JS.NInf, _ | _, JS.NInf => JS.NInf
  end.

(** The sign of a finite number: [Lt] negative, [Eq] zero, [Gt] positive. *)
Definition sign (a : Q) : comparison := (a ?= 0)%Q.

Definition signed_infinity (s t : comparison) : JS.num :=
  match s, t with
  | Eq, _ | _, Eq => JS.NaN
  | Lt, Lt | Gt, Gt => JS.PInf
  | _, _ => JS.NInf
  end.

Definition mul (x y : JS.num) : JS.num :=
  match x, y with
  | JS.Fin a, JS.Fin b => fl (a * b)
  | JS.NaN, _ | _, JS.NaN => JS.NaN
  | JS.Fin a, JS.PInf | JS.PInf, JS.Fin a => signed_infinity (sign a) Gt
  | JS.Fin a, JS.NInf | JS.NInf, JS.Fin a => signed_infinity (sign a) Lt
  | JS.PInf, JS.PInf | JS.NInf, JS.NInf => JS.PInf
  | JS.PInf, JS.NInf | JS.NInf, JS.PInf => JS.NInf
  end.

Definition div (x y : JS.num) : JS.num :=
  match x, y with
  | JS.Fin a, JS.Fin b =>
      if JS.is_zero b then signed_infinity (sign a) Gt else fl (a / b)
  | JS.NaN, _ | _, JS.NaN => JS.NaN
  | JS.Fin _, (JS.PInf | JS.NInf) => JS.Fin 0
  | JS.PInf, JS.Fin b => if JS.ltb b 0 then JS.NInf else JS.PInf
  | JS.NInf, JS.Fin b => if JS.ltb b 0 then JS.PInf else JS.NInf
  | (JS.PInf | JS.NInf), (JS.PInf | JS.NInf) => JS.NaN
  end.

(** The machine's doubles, to compare with: the number a machine double
    denotes, and whether the machine's operation on two operands gives what
    the operation above gives on the numbers they denote. *)
Definition of_float (f : float) : JS.num :=
  match Prim2SF f with
  | S754_zero _ => JS.Fin 0
  | S754_infinity negative => if negative then JS.NInf else JS.PInf
  | S754_nan => JS.NaN
  | S754_finite negative m e =>
      let v := if (0 <=? e)%Z then inject_Z (Z.shiftl (Z.pos m) e)
               else (Z.pos m # Z.to_pos (Z.shiftl 1 (- e)))%Q in
      JS.Fin (if negative then (- v)%Q else v)
  end.

Definition same_number (x y : JS.num) : bool :=
  match x, y with
  | JS.Fin a, JS.Fin b => Qeq_bool a b
  | JS.PInf, JS.PInf | JS.NInf, JS.NInf | JS.NaN, JS.NaN => true
  | _, _ => false
  end.

Definition agrees (machine : float -> float -> float)
    (model : JS.num -> JS.num -> JS.num) (a b : float * JS.num) : bool :=
  same_number (model a.2 b.2) (of_float (machine a.1 b.1)).

(** Operands: 0.6, 0.02, 19.98, 0.5, 23, 160, 1e308, the smallest double
    and three times it (their halves are ties), the largest double below
    the normal range, and -7.5. *)
Definition operands : list float :=
  [ 0x1.3333333333333p-1; 0x1.47ae147ae147bp-6; 0x1.3fae147ae147bp+4; 0x1p-1;
    23; 160; 0x1.1ccf385ebc8ap+1023; 0x1p-1074; 0x1.8p-1073;
    0x1.fffffffffffffp-1023; -0x1.ep+2 ]%float.

Definition agrees_on_operands : bool :=
  let denoted := map (fun a => (a, of_float a)) operands in
  forallb
    (fun a =>
       forallb
         (fun b =>
            agrees PrimFloat.add add a b
            && agrees PrimFloat.mul mul a b
            && agrees PrimFloat.div div a b)
         denoted)
    denoted.

(** [calculateRSI]: no result leaves the finite range when the change is a
    double (the largest double plus one rounds to itself). *)
Definition calculateRSI (token : MarketRecord) : Z :=
  calculateRSI_rounded binary64 token.

(** What a running sum can be when every term is at most, or at least, a
    given bound. *)
Definition at_most (c : Q) (x : JS.num) : Prop :=
  match x with
  | JS.Fin a => (a <= c)%Q
  | JS.NInf => True
  | JS.PInf | JS.NaN => False
  end.

Definition at_least (c : Q) (x : JS.num) : Prop :=
  match x with
  | JS.Fin a => (c <= a)%Q
  | JS.PInf => True
  | JS.NInf | JS.NaN => False
  end.

(** [reduce((sum, token) => sum + (field(token) || 0), 0)] *)
Definition sum_field (field : MarketRecord -> option Q) (marketData : list MarketRecord)
  : JS.num :=
  fold_left (fun sum token => add sum (JS.Fin (JS.or_default (field token) 0)))
            marketData (JS.Fin 0).

Definition extractMediumTermTrends (marketData : list MarketRecord) : list string :=
  let avgChange7d :=
    div (sum_field percentChange7d marketData)
        (JS.Fin (count_of (length marketData))) in
  let trends := [] in
  let trends := push_if (JS.num_gtb avgChange7d 10) "Strong bullish week" trends in
  let trends := push_if (JS.num_ltb avgChange7d (-10)) "Bearish weekly trend" trends in
  trends.

(** [Number(x.toFixed(2))]: the digits [toFixed] prints are those of the
    exact value of the double [x], and [Number] reads them back as the
    double nearest to the decimal. *)
Definition toFixed2_number (x : JS.num) : JS.num :=
  match x with
  | JS.Fin q =>
      if JS.ltb (JS.abs q) (10 ^ 21) then fl (hundredths q # 100) else JS.Fin q
  | other => other
  end.

(** The callback of [reduce] for the total, and the total. *)
Definition cap_step (sum : JS.num) (token : MarketRecord) : JS.num :=
  add sum (JS.Fin (JS.or_default (marketCap token) 0)).

Definition marketCap_total (marketData : list MarketRecord) : JS.num :=
  fold_left cap_step marketData (JS.Fin 0).

(** The market cap of the record, when it has one, is a double. *)
Definition cap_representable (t : MarketRecord) : Prop :=
  forall c, marketCap t = Some c -> representable c.

(** [Number(((cap / total) * 100).toFixed(2))] *)
Definition share_percent (total : JS.num) (cap : Q) : JS.num :=
  toFixed2_number (mul (div (JS.Fin cap) total) (JS.Fin 100)).

Definition dominance_entry (total : JS.num) (dominance : gmap string JS.num)
    (token : MarketRecord) : gmap string JS.num :=
  match marketCap token with
  | Some cap =>
      if JS.truthy (Some cap)
      then Obj.set_number dominance (symbol token) (share_percent total cap)
      else dominance
  | None => dominance
  end.

Definition calculateDominanceIndex (marketData : list MarketRecord)
  : gmap string JS.num :=
  let total := marketCap_total marketData in
  fold_left (dominance_entry total) marketData ∅.

End Double.

(** ** The specification's wording

    Definitions that follow the specification's text rather than the
    program, to be compared with the program's functions. *)

Module Spec.

(** The five sentiment tiers, checked in order; the first match wins. *)
Inductive sentiment_tier (p v vprev : Q) : string -> Prop :=
| tier_strongly_bullish :
    (p > 5)%Q -> (v > vprev)%Q ->
    sentiment_tier p v vprev "strongly bullish"
| tier_bullish :
    ~ ((p > 5)%Q /\ (v > vprev)%Q) ->
    (p > 2)%Q -> (v > vprev)%Q ->
    sentiment_tier p v vprev "bullish"
| tier_strongly_bearish :
    ~ ((p > 5)%Q /\ (v > vprev)%Q) -> ~ ((p > 2)%Q /\ (v > vprev)%Q) ->
    (p < -5)%Q -> (v > vprev)%Q ->
    sentiment_tier p v vprev "strongly bearish"
| tier_bearish :
    ~ ((p > 5)%Q /\ (v > vprev)%Q) -> ~ ((p > 2)%Q /\ (v > vprev)%Q) ->
    ~ ((p < -5)%Q /\ (v > vprev)%Q) ->
    (p < -2)%Q -> (v > vprev)%Q ->
    sentiment_tier p v vprev "bearish"
| tier_neutral :
    ~ ((p > 5)%Q /\ (v > vprev)%Q) -> ~ ((p > 2)%Q /\ (v > vprev)%Q) ->
    ~ ((p < -5)%Q /\ (v > vprev)%Q) -> ~ ((p < -2)%Q /\ (v > vprev)%Q) ->
    sentiment_tier p v vprev "neutral".

(** round(100 - 100 / (1 + max(0, p) / max(|min(0, p)|, 1))), every
    arithmetic result rounded by [fl], the rounding of the number format. *)
Definition oscillator_rounded (fl : Q -> Q) (p : Q) : Z :=
  Qfloor (fl (100 - fl (100 / fl (1 + fl (Qmax 0 p / Qmax (Qabs (Qmin 0 p)) 1))))
          + (1 # 2))%Q.

(** The sum of the values of a dominance mapping. *)
Definition finite_part (x : JS.num) : Q :=
  match x with JS.Fin q => q | _ => 0%Q end.

Definition Qsum (l : list Q) : Q := fold_right Qplus 0%Q l.

Definition mapping_sum (d : gmap string JS.num) : Q :=
  Qsum (map (fun kv => finite_part kv.2) (map_to_list d)).

(** The exact share of a market cap in a total, in percent. *)
Definition exact_share (total cap : Q) : Q := (cap / total * 100)%Q.

(** [v] is the double a two-decimal numeral denotes. *)
Definition two_decimals (v : Q) : Prop := exists k : Z, v = Double.binary64 (k # 100).

(** How far a stored share of a batch of [n] records can be from the exact
    one: half a hundredth from the two decimals, and the rounding errors of
    the [n] additions, the division, the multiplication and the reading of
    the numeral. *)
Definition share_tolerance (n : nat) : Q :=
  ((1 # 200) + inject_Z (Z.of_nat n + 2) * (1 # 2 ^ 45))%Q.

(** The market cap of a record, [0] when it has none, and the batch total. *)
Definition cap (t : MarketRecord) : Q :=
  match marketCap t with Some c => c | None => 0%Q end.

Definition batch_total (marketData : list MarketRecord) : Q := Qsum (map cap marketData).

(** A record "has a market cap". *)
Definition has_market_cap (t : MarketRecord) : Prop :=
  exists cap, marketCap t = Some cap /\ (0 < cap)%Q.

(** A batch as the data model has it: symbols are unique, and they are
    ordinary identifiers, which excludes the reserved key of
    object literals. *)
Definition batch (marketData : list MarketRecord) : Prop :=
  NoDup (map symbol marketData) /\
  Forall (fun t => symbol t <> Obj.proto_key) marketData.

(** Exactly [n] records of the batch satisfy [P]. *)
Inductive counts (P : MarketRecord -> Prop) : list MarketRecord -> nat -> Prop :=
| counts_nil : counts P [] 0
| counts_hit t l n : P t -> counts P l n -> counts P (t :: l) (S n)
| counts_miss t l n : ~ P t -> counts P l n -> counts P (t :: l) n.

Definition up_more_than (c : Q) (t : MarketRecord) : Prop :=
  exists p, percentChange24h t = Some p /\ (p > c)%Q.

Definition down_below (c : Q) (t : MarketRecord) : Prop :=
  exists p, percentChange24h t = Some p /\ (p < c)%Q.

(** [k] out of [n] is more than 60 percent. *)
Definition more_than_60_percent (k n : nat) : Prop := (60 * n < 100 * k)%nat.

(** [term] occurs in [s], letter case ignored. *)
Definition occurs_ignoring_case (term s : string) : Prop :=
  exists before middle after : string,
    s = before +:+ middle +:+ after /\ toLowerCase middle = toLowerCase term.

Definition market_related (query : string) : Prop :=
  exists term, In term marketTerms /\ occurs_ignoring_case term query.

(** Text of ASCII characters, and a history whose user utterances are. *)
Definition ascii_text (s : string) : Prop := is_ascii s = true.

(** The three groups of suggestions, in rule order. *)
Definition market_suggestions : list string :=
  ["Show detailed market analysis"; "Compare with other tokens"; "Check historical trends"].

Definition portfolio_suggestions : list string :=
  ["Check my portfolio performance"; "Show my transaction history";
   "Analyze my trading patterns"].

Definition educational_suggestion (level : option Expertise) : list string :=
  match level with
  | Some beginner => ["Explain blockchain basics"]
  | Some advanced => ["Show advanced trading metrics"]
  | Some intermediate | None => []
  end.

(** A user utterance of the history mentions one of [terms]. *)
Definition user_mentions (terms : list string) (messages : list AIMessage) : Prop :=
  exists m term,
    In m messages /\ role m = "user" /\ In term terms /\
    occurs_ignoring_case term (content m).

Definition ascii_history (messages : list AIMessage) : Prop :=
  Forall (fun m => role m = "user" -> ascii_text (content m)) messages.

(** The cached snapshot is at most five minutes old at time [now]. *)
Definition fresh (svc : Service) (now : Z) (a : MarketAnalysis) : Prop :=
  cachedAnalysis svc = Some a /\
  exists updated, lastUpdate svc = Some updated /\ now - updated <= 5 * 60 * 1000.

Definition stale (svc : Service) (now : Z) : Prop :=
  cachedAnalysis svc = None \/ lastUpdate svc = None \/
  exists updated, lastUpdate svc = Some updated /\ 5 * 60 * 1000 < now - updated.

(** One fetch round of a recomputation, as it shows in the call record. *)
Definition fetch_round : list call :=
  [CallMarketData analysis_symbols; CallMarketSentiment].

(** A provider fetch of the recomputation throws [e]. *)
Definition provider_fails `{Externals} (w : World) (e : exn) : Prop :=
  (exists x, getMarketData analysis_symbols (ext w) = (Thrown e, x))
  \/ (exists data x1 x2,
        getMarketData analysis_symbols (ext w) = (Returned data, x1)
        /\ getMarketSentiment x1 = (Thrown e, x2)).

(** The number of provider fetches among recorded calls. *)
Definition is_market_fetch (c : call) : bool :=
  match c with CallMarketData _ => true | _ => false end.

Definition market_fetches (cs : list call) : nat := length (List.filter is_market_fetch cs).

End Spec.

(** ** Sample data *)

Module Sample.

Definition record (s : string) (p v vprev cap : Q) : MarketRecord :=
  {| symbol := s; price := Some 1%Q; percentChange24h := Some p;
     percentChange7d := Some 0%Q; volume24h := Some v; volume24hPrevious := Some vprev;
     volumeChange24h := None; marketCap := Some cap; ma50 := None; ma200 := None;
     socialMentionsChange24h := None; githubActivity24h := None |}.

(** The end-to-end scenario of the specification. *)
Definition scenario : list MarketRecord :=
  [ record "SOL" 6 200 100 30; record "BTC" 1 100 200 60; record "ETH" (-7) 200 100 10 ].

(** The double nearest to 0.6. *)
Definition change_0_6 : Q := 5404319552844595 # 9007199254740992.

(** Records that carry only a 7-day change. *)
Definition week (changes : list Q) : list MarketRecord :=
  map (fun c => {| symbol := "T"; price := None; percentChange24h := None;
                   percentChange7d := Some c; volume24h := None;
                   volume24hPrevious := None; volumeChange24h := None;
                   marketCap := None; ma50 := None; ma200 := None;
                   socialMentionsChange24h := None; githubActivity24h := None |})
      changes.

(** Market caps of 23 and 137, and two market caps of 1e308. *)
Definition pair_23_137 : list MarketRecord :=
  [ record "A" 1 1 1 23; record "B" 1 1 1 137 ].

Definition huge : list MarketRecord :=
  [ record "A" 1 1 1 (Double.binary64 (inject_Z (10 ^ 308)));
    record "B" 1 1 1 (Double.binary64 (inject_Z (10 ^ 308))) ].

Definition calm : MarketSentiment :=
  {| fearGreedIndex := Some 50%Q; fearGreedLabel := Some "Neutral";
     marketTrend := Some "neutral"; volumeTrend := None |}.

Definition plain_context (connected : bool) (level : option Expertise) : Context :=
  {| walletConnected := connected; walletAddress := None; balance := Some 0%Q;
     tokenBalances := None; expertiseLevel := level; startTime := None |}.

(** A scripted outside world: a clock, and a queue of answers of the
    market-data provider.  Every provider call takes 100 ms; an exhausted
    queue answers with an error. *)
Record script : Type := {
  time : Z;
  market_answers : list (outcome (list MarketRecord));
  recorder_fails : bool
}.

#[local] Instance scripted : Externals := {|
  Ext := script;
  clock := time;
  getMarketData := fun _ s =>
    match market_answers s with
    | [] => (Thrown (ExternalError "no answer"),
             {| time := time s + 100; market_answers := [];
                recorder_fails := recorder_fails s |})
    | answer :: rest =>
        (answer, {| time := time s + 100; market_answers := rest;
                    recorder_fails := recorder_fails s |})
    end;
  getMarketSentiment := fun s =>
    (Returned calm, {| time := time s + 100; market_answers := market_answers s;
                       recorder_fails := recorder_fails s |});
  createCompletion := fun _ _ s => (Returned {| choices := [Some "ok"] |}, s);
  recordInteraction := fun _ _ _ s =>
    (if recorder_fails s then Thrown (ExternalError "recorder") else Returned tt, s);
  number_toString := fun _ => "1e+21"
|}.

Definition start (answers : list (outcome (list MarketRecord))) (fails : bool) : World :=
  {| ext := {| time := 1000; market_answers := answers; recorder_fails := fails |};
     service := initial_service;
     calls := [] |}.

End Sample.

(** ** Further service code *)

(** The value [generateTechnicalSignals] stores for a record. *)
Definition technicalSignal (token : MarketRecord) : TechnicalSignal :=
  {| sentiment := calculateTechnicalSentiment token;
     indicators := calculateIndicators token |}.

(** The last record of a batch that carries the symbol [k]. *)
Definition last_with_symbol (k : string) (marketData : list MarketRecord)
  : option MarketRecord :=
  find (fun t => String.eqb (symbol t) k) (rev marketData).

(** [a] comes before [b] in descending order of the 24h change. *)
Definition not_below (a b : MarketRecord) : Prop :=
  exists pa pb,
    percentChange24h a = Some pa /\ percentChange24h b = Some pb /\ (pb <= pa)%Q.

(** The two other readers of the cache singleton. *)
Module MarketIntelligence.

(** [getMarketSentiment()]: the sentiment block of the current analysis,
    as a [MarketSentiment] without volume trend. *)
Definition getMarketSentiment `{Externals} : M MarketSentiment :=
  let* analysis_ := getMarketAnalysis in
  match analysis_ with
  | Some a =>
      ret {| fearGreedIndex := Some (snapshotFearGreedIndex (sentimentBlock a));
             fearGreedLabel := Some (socialSentiment (sentimentBlock a));
             marketTrend := Some (overall (sentimentBlock a));
             volumeTrend := None |}
  | None => throw (TypeError "Cannot read properties of null (reading 'sentiment')")
  end.

(** The result of [getComprehensiveAnalysis]: the analysis, with the own
    property [tokenSpecific] when a token was given. *)
Record Comprehensive : Type := {
  analysis : MarketAnalysis;
  tokenSpecific : option jsvalue
}.

(** [getComprehensiveAnalysis(token?)]; a missing and an empty token are
    both falsy, and then the analysis is returned as it is ([None]: [null]). *)
Definition getComprehensiveAnalysis `{Externals} (token : option string)
  : M (option Comprehensive) :=
  let* analysis_ := getMarketAnalysis in
  if negb (String.eqb (nullish token EmptyString) EmptyString) then
    match analysis_ with
    | Some a =>
        ret (Some {| analysis := a;
                     tokenSpecific :=
                       Some (or_null (signals_get (technicalSignals a)
                                        (nullish token EmptyString))) |})
    | None =>
        throw (TypeError "Cannot read properties of null (reading 'technicalSignals')")
    end
  else
    ret (option_map (fun a => {| analysis := a; tokenSpecific := None |}) analysis_).

End MarketIntelligence.

(** The metrics handed to the training recorder: [Date.now()] minus the
    start time, which defaults to a second [Date.now()]. *)
Definition interaction_metrics (context : Context) (now : Z) : InteractionMetrics :=
  {| responseTime :=
       now - match startTime context with
             | Some t => if (t =? 0)%Z then now else t
             | None => now
             end;
     metricsWalletConnected := walletConnected context;
     explicitFeedback := "neutral" |}.

(** ** Chat front-end ([ChatInterface]) *)

Module Chat.

Record MarketContext : Type := {
  contextMarketData : list MarketRecord;
  contextSentiment : MarketSentiment;
  contextTimestamp : Z
}.

Definition context_symbols : list string := ["SOL"; "BONK"; "JUP"; "USDC"].

(** [getMarketContext]: both fetches are started together; any failure is
    caught and gives [null]. *)
Definition getMarketContext `{Externals} : M (option MarketContext) :=
  try_catch
    (let* p1 := settle (external (CallMarketData context_symbols)
                                 (getMarketData context_symbols)) in
     let* p2 := settle (external CallMarketSentiment getMarketSentiment) in
     let* marketData := await p1 in
     let* sentiment_ := await p2 in
     let* now := date_now in
     ret (Some {| contextMarketData := marketData; contextSentiment := sentiment_;
                  contextTimestamp := now |}))
    (fun _ => ret None).

(** A field of an intent that is read only for its truthiness: a number or
    a string. *)
Inductive scalar : Type :=
| Num (q : Q)
| Str (s : string).

Definition truthy (x : option scalar) : bool :=
  match x with
  | Some (Num q) => negb (JS.is_zero q)
  | Some (Str s) => negb (String.eqb s EmptyString)
  | None => false
  end.

(** A structured action request. *)
Record Intent : Type := {
  type : option string;
  fromToken : option scalar;
  toToken : option scalar;
  recipient : option scalar;
  amount : option scalar;
  autoExecute : option bool;
  response : option string
}.

(** The wallet adapter, as far as the handler reads it. *)
Record Wallet : Type := {
  connected : bool;
  publicKey : option string
}.

(** The component state the handler writes. *)
Record State : Type := {
  messages : list AIMessage;
  pendingSwapIntent : option Intent;
  autoExecuteSwap : bool;
  isConfirmationOpen : bool;
  transferIntent : option Intent;
  autoExecuteTransfer : bool;
  showTransactionConfirmation : bool
}.

(** [setMessages(prev => [...prev, {role: "assistant", content}])] *)
Definition say (text : string) (st : State) : State :=
  {| messages := messages st ++ [ {| role := "assistant"; content := text |} ];
     pendingSwapIntent := pendingSwapIntent st;
     autoExecuteSwap := autoExecuteSwap st;
     isConfirmationOpen := isConfirmationOpen st;
     transferIntent := transferIntent st;
     autoExecuteTransfer := autoExecuteTransfer st;
     showTransactionConfirmation := showTransactionConfirmation st |}.

(** The [try] block up to the final [setMessages]: the state after the
    setters, or the message of the error thrown before any of them ran. *)
Definition validate (wallet : Wallet) (intent : Intent) (st : State)
  : string + State :=
  if negb (connected wallet)
     || match publicKey wallet with Some _ => false | None => true end
  then inl "Wallet not connected"
  else
    match type intent with
    | Some kind =>
        if String.eqb kind "SWAP" then
          if negb (truthy (fromToken intent)) || negb (truthy (toToken intent))
          then inl "Invalid swap parameters"
          else inr {| messages := messages st;
                      pendingSwapIntent := Some intent;
                      autoExecuteSwap := nullish (autoExecute intent) false;
                      isConfirmationOpen := true;
                      transferIntent := transferIntent st;
                      autoExecuteTransfer := autoExecuteTransfer st;
                      showTransactionConfirmation := showTransactionConfirmation st |}
        else if String.eqb kind "TRANSFER" then
          if negb (truthy (recipient intent)) || negb (truthy (amount intent))
          then inl "Invalid transfer parameters"
          else inr {| messages := messages st;
                      pendingSwapIntent := pendingSwapIntent st;
                      autoExecuteSwap := autoExecuteSwap st;
                      isConfirmationOpen := isConfirmationOpen st;
                      transferIntent := Some intent;
                      autoExecuteTransfer := nullish (autoExecute intent) false;
                      showTransactionConfirmation := true |}
        else inr st
    | None => inr st
    end.

(** [handleAIResponse(intent)] *)
Definition handleAIResponse (wallet : Wallet) (intent : Intent) (st : State) : State :=
  match validate wallet intent st with
  | inr st' =>
      say (or_string (response intent)
             "I understand your request and will process it accordingly.") st'
  | inl message =>
      say ("Error: " +:+ or_string (Some message) "An unexpected error occurred"
           +:+ ". Please try again.") st
  end.

End Chat.

(** An outside world that never changes and whose model answers without a
    choice. *)
Module Mute.

#[local] Instance externals : Externals := {|
  Ext := unit;
  clock := fun _ => 0;
  getMarketData := fun _ x => (Returned [], x);
  getMarketSentiment := fun x => (Returned Sample.calm, x);
  createCompletion := fun _ _ x => (Returned {| choices := [] |}, x);
  recordInteraction := fun _ _ _ x => (Returned tt, x);
  number_toString := fun _ => "1e+21"
|}.

Definition start : World := {| ext := tt; service := initial_service; calls := [] |}.

End Mute.

(** The levels in ascending order. *)
Definition expertise_rank (level : Expertise) : nat :=
  match level with
  | beginner => 0
  | intermediate => 1
  | advanced => 2
  end.

(** The cache holds a snapshot exactly when it holds a timestamp. *)
Definition cache_consistent (svc : Service) : Prop :=
  lastUpdate svc = None <-> cachedAnalysis svc = None.

(** * Properties *)

(** ** Comparisons and defaults *)

Lemma ltb_spec (x y : Q) : reflect (x < y)%Q (JS.ltb x y).
Proof.
  unfold JS.ltb. destruct (x ?= y)%Q eqn:C; constructor.
  - apply Qeq_alt in C. rewrite C. apply Qlt_irrefl.
  - apply Qlt_alt, C.
  - apply Qgt_alt in C. apply Qle_not_lt, Qlt_le_weak, C.
Qed.

Lemma ltb_true (x y : Q) : JS.ltb x y = true <-> (x < y)%Q.
Proof. destruct (ltb_spec x y); split; intros; try easy. Qed.

Lemma ltb_false (x y : Q) : JS.ltb x y = false <-> (y <= x)%Q.
Proof.
  destruct (ltb_spec x y) as [L | N]; split; intros H; try easy.
  - exfalso. apply (Qle_not_lt _ _ H L).
  - apply Qnot_lt_le, N.
Qed.

Lemma gtb_true (x y : Q) : JS.gtb x y = true <-> (y < x)%Q.
Proof. apply ltb_true. Qed.

Lemma gtb_false (x y : Q) : JS.gtb x y = false <-> (x <= y)%Q.
Proof. apply ltb_false. Qed.

Lemma is_zero_true (x : Q) : JS.is_zero x = true <-> x == 0.
Proof. apply Qeq_bool_iff. Qed.

Lemma is_zero_false (x : Q) : JS.is_zero x = false <-> ~ x == 0.
Proof.
  unfold JS.is_zero. split; intros H.
  - intros E. apply Qeq_bool_iff in E. congruence.
  - destruct (Qeq_bool x 0) eqn:E; [|reflexivity].
    exfalso. apply H, Qeq_bool_iff, E.
Qed.

(** A present numeric field with default [0] keeps its value. *)
Lemma or_default_zero (q : Q) : JS.or_default (Some q) 0 == q.
Proof.
  unfold JS.or_default. destruct (JS.is_zero q) eqn:E; [|reflexivity].
  apply is_zero_true in E. symmetry. exact E.
Qed.

#[local] Instance ltb_proper : Proper (Qeq ==> Qeq ==> eq) JS.ltb.
Proof. intros x x' Ex y y' Ey. unfold JS.ltb. now rewrite Ex, Ey. Qed.

#[local] Instance gtb_proper : Proper (Qeq ==> Qeq ==> eq) JS.gtb.
Proof. intros x x' Ex y y' Ey. unfold JS.gtb. now rewrite Ex, Ey. Qed.

Lemma or_default_zero_cases (q : Q) :
  (q == 0 /\ JS.or_default (Some q) 0 = 0%Q) \/
  (~ q == 0 /\ JS.or_default (Some q) 0 = q).
Proof.
  unfold JS.or_default. destruct (JS.is_zero q) eqn:E.
  - left. split; [apply is_zero_true, E | reflexivity].
  - right. split; [apply is_zero_false, E | reflexivity].
Qed.

Lemma gtb_or_default_zero (v q : Q) :
  JS.gtb v (JS.or_default (Some q) 0) = JS.gtb v q.
Proof. now rewrite (or_default_zero q). Qed.

(** ** Sentiment classification *)

(** The label as a function of the three numbers it depends on. *)
Lemma calculateTechnicalSentiment_eq (token : MarketRecord) (p v vprev : Q) :
  percentChange24h token = Some p ->
  volume24h token = Some v ->
  volume24hPrevious token = Some vprev ->
  calculateTechnicalSentiment token =
    if JS.gtb p 5 && JS.gtb v vprev then "strongly bullish"
    else if JS.gtb p 2 && JS.gtb v vprev then "bullish"
    else if JS.ltb p (-5) && JS.gtb v vprev then "strongly bearish"
    else if JS.ltb p (-2) && JS.gtb v vprev then "bearish"
    else "neutral".
Proof.
  intros Hp Hv Hprev. unfold calculateTechnicalSentiment.
  rewrite Hp, Hv, Hprev. cbn [JS.opt_gtb JS.opt_ltb].
  now rewrite !gtb_or_default_zero.
Qed.

(** C3.  For a record with 24h change [p], volume [v] and previous volume
    [vprev], the label is the one the five-tier cascade selects, first match
    first.  The comparisons are strict: with [p] exactly 5 the label is
    "bullish" when the volume rose and "neutral" otherwise, and with equal
    volumes it is "neutral" whatever the change. *)
Theorem sentiment_cascade (token : MarketRecord) (p v vprev : Q) :
  percentChange24h token = Some p ->
  volume24h token = Some v ->
  volume24hPrevious token = Some vprev ->
  Spec.sentiment_tier p v vprev (calculateTechnicalSentiment token)
  /\ (p == 5 -> (v > vprev)%Q -> calculateTechnicalSentiment token = "bullish")
  /\ (p == 5 -> ~ (v > vprev)%Q -> calculateTechnicalSentiment token = "neutral")
  /\ (v == vprev -> calculateTechnicalSentiment token = "neutral").
Proof.
  intros Hp Hv Hprev.
  rewrite (calculateTechnicalSentiment_eq token p v vprev Hp Hv Hprev).
  unfold JS.gtb.
  destruct (ltb_spec vprev v) as [Vol | NoVol];
    destruct (ltb_spec 5 p) as [P5 | P5];
    destruct (ltb_spec 2 p) as [P2 | P2];
    destruct (ltb_spec p (-5)) as [M5 | M5];
    destruct (ltb_spec p (-2)) as [M2 | M2];
    cbn [andb];
    (split; [ first
      [ apply Spec.tier_strongly_bullish; assumption
      | apply Spec.tier_bullish; tauto
      | apply Spec.tier_strongly_bearish; tauto
      | apply Spec.tier_bearish; tauto
      | apply Spec.tier_neutral; tauto ]
    | repeat split; intros; try reflexivity; exfalso; lra ]).
Qed.

Lemma sentiment_cascade_witness :
  Spec.sentiment_tier 6 200 100
    (calculateTechnicalSentiment (Sample.record "SOL" 6 200 100 30)).
Proof.
  apply (sentiment_cascade (Sample.record "SOL" 6 200 100 30) 6 200 100);
    reflexivity.
Defined.

(** The end-to-end scenario: SOL up 6 percent on rising volume, BTC up 1
    percent on falling volume, ETH down 7 percent on rising volume. *)
Example scenario_labels :
  map calculateTechnicalSentiment Sample.scenario
  = ["strongly bullish"; "neutral"; "strongly bearish"].
Proof. reflexivity. Qed.

(** ** Binary64 rounding

    [Double.binary64] is monotone, odd, idempotent, keeps the integers up
    to [2^53], and its error is at most [2^-53] of the value plus
    [2^-1075]. *)


Lemma floor_frac (x : Q) : (0 <= x - inject_Z (Qfloor x) < 1)%Q.
Proof.
  pose proof (Qfloor_le x). pose proof (Qlt_floor x) as H1.
  rewrite inject_Z_plus in H1. change (inject_Z 1) with 1%Q in H1. lra.
Qed.

Lemma rne_cases (x : Q) :
  let f := Qfloor x in
  (Double.rne x = f /\ (x - inject_Z f <= 1 # 2)%Q)
  \/ (Double.rne x = f + 1 /\ (1 # 2 <= x - inject_Z f)%Q).
Proof.
  intros f. unfold Double.rne. fold f.
  destruct (x - inject_Z f ?= 1 # 2)%Q eqn:C.
  - apply Qeq_alt in C. destruct (Z.even f); [left | right]; split; try reflexivity; lra.
  - apply Qlt_alt in C. left. split; [reflexivity | lra].
  - apply Qgt_alt in C. right. split; [reflexivity | lra].
Qed.

Lemma rne_error (x : Q) : (Qabs (inject_Z (Double.rne x) - x) <= 1 # 2)%Q.
Proof.
  pose proof (floor_frac x) as Hf.
  apply Qabs_Qle_condition.
  destruct (rne_cases x) as [[-> H] | [-> H]].
  - split; lra.
  - rewrite inject_Z_plus. change (inject_Z 1) with 1%Q. split; lra.
Qed.

Lemma rne_Z (k : Z) : Double.rne (inject_Z k) = k.
Proof.
  unfold Double.rne. rewrite Qfloor_Z.
  assert (E : (inject_Z k - inject_Z k ?= 1 # 2)%Q = Lt).
  { apply Qlt_alt. ring_simplify (inject_Z k - inject_Z k)%Q. reflexivity. }
  now rewrite E.
Qed.

Lemma rne_comp (x y : Q) : (x == y)%Q -> Double.rne x = Double.rne y.
Proof.
  intros E. unfold Double.rne. rewrite (Qfloor_comp x y E).
  assert (C : (x - inject_Z (Qfloor y) ?= 1 # 2)%Q = (y - inject_Z (Qfloor y) ?= 1 # 2)%Q).
  { now rewrite E. }
  now rewrite C.
Qed.

Lemma rne_le (x y : Q) : (x <= y)%Q -> Double.rne x <= Double.rne y.
Proof.
  intros Hxy.
  pose proof (Qfloor_resp_le x y Hxy) as Hf.
  pose proof (floor_frac x) as Hx. pose proof (floor_frac y) as Hy.
  destruct (Z.eq_dec (Qfloor x) (Qfloor y)) as [E | N].
  - unfold Double.rne. rewrite <- E.
    destruct (x - inject_Z (Qfloor x) ?= 1 # 2)%Q eqn:Cx;
      destruct (y - inject_Z (Qfloor x) ?= 1 # 2)%Q eqn:Cy;
      try (destruct (Z.even (Qfloor x))); try lia;
      exfalso;
      repeat match goal with
             | H : (_ ?= _)%Q = Eq |- _ => apply Qeq_alt in H
             | H : (_ ?= _)%Q = Lt |- _ => apply Qlt_alt in H
             | H : (_ ?= _)%Q = Gt |- _ => apply Qgt_alt in H
             end; lra.
  - destruct (rne_cases x) as [[-> _] | [-> _]];
      destruct (rne_cases y) as [[-> _] | [-> _]]; lia.
Qed.

Lemma rne_nonneg (x : Q) : (0 <= x)%Q -> 0 <= Double.rne x.
Proof. intros H. rewrite <- (rne_Z 0). now apply rne_le. Qed.

Lemma pow2_pos (j : Z) : (0 < inject_Z (2 ^ j))%Q \/ j < 0.
Proof.
  destruct (Z_lt_le_dec j 0) as [N | P]; [now right | left].
  change 0%Q with (inject_Z 0). rewrite <- Zlt_Qlt. now apply Z.pow_pos_nonneg.
Qed.

Lemma pow2_positive (j : Z) : 0 <= j -> (0 < inject_Z (2 ^ j))%Q.
Proof. intros H. destruct (pow2_pos j) as [P | N]; [exact P | lia]. Qed.

Lemma pow2_split (a b : Z) :
  0 <= a -> 0 <= b -> (inject_Z (2 ^ (a + b)) == inject_Z (2 ^ a) * inject_Z (2 ^ b))%Q.
Proof. intros Ha Hb. rewrite Z.pow_add_r by assumption. now rewrite inject_Z_mult. Qed.

Lemma quantum_nonneg (s : Q) : 0 <= Double.quantum s.
Proof. unfold Double.quantum. lia. Qed.

Lemma quantum_le (s t : Q) : (s <= t)%Q -> Double.quantum s <= Double.quantum t.
Proof.
  intros H. unfold Double.quantum.
  pose proof (Z.log2_le_mono _ _ (Qfloor_resp_le s t H)). lia.
Qed.

Lemma below_pow2 (s : Q) (L : Z) :
  Z.log2 (Qfloor s) < L -> (s <= inject_Z (2 ^ L))%Q.
Proof.
  intros HL.
  pose proof (Z.log2_nonneg (Qfloor s)) as Hnn.
  assert (Hf : Qfloor s + 1 <= 2 ^ L).
  { destruct (Z_lt_le_dec 0 (Qfloor s)) as [P | N].
    - pose proof (Z.log2_spec _ P) as [_ Hhi].
      assert (2 ^ Z.succ (Z.log2 (Qfloor s)) <= 2 ^ L) by (apply Z.pow_le_mono_r; lia).
      lia.
    - assert (0 < 2 ^ L) by (apply Z.pow_pos_nonneg; lia). lia. }
  pose proof (Qlt_floor s) as Hs.
  apply Qle_trans with (inject_Z (Qfloor s + 1)); [apply Qlt_le_weak, Hs|].
  now rewrite <- Zle_Qle.
Qed.

Lemma above_pow2 (t : Q) :
  0 < Z.log2 (Qfloor t) -> (inject_Z (2 ^ Z.log2 (Qfloor t)) <= t)%Q.
Proof.
  intros HL.
  assert (P : 0 < Qfloor t).
  { destruct (Z_lt_le_dec 0 (Qfloor t)) as [P | N]; [exact P|].
    rewrite Z.log2_nonpos in HL by exact N. lia. }
  pose proof (Z.log2_spec _ P) as [Hlo _].
  apply Qle_trans with (inject_Z (Qfloor t)); [now rewrite <- Zle_Qle | apply Qfloor_le].
Qed.

Lemma round_scaled_le (s t : Q) :
  (s <= t)%Q -> Double.round_scaled s <= Double.round_scaled t.
Proof.
  intros Hst. unfold Double.round_scaled.
  pose proof (quantum_le s t Hst) as Hj.
  pose proof (quantum_nonneg s) as Hjs.
  assert (Ejs : Double.quantum s = Z.max 0 (Z.log2 (Qfloor s) - 52)) by reflexivity.
  assert (Ejt : Double.quantum t = Z.max 0 (Z.log2 (Qfloor t) - 52)) by reflexivity.
  set (js := Double.quantum s) in *. set (jt := Double.quantum t) in *.
  pose proof (pow2_positive js Hjs) as Ps.
  assert (Hjt : 0 <= jt) by lia.
  pose proof (pow2_positive jt Hjt) as Pt.
  destruct (Z.eq_dec js jt) as [E | N].
  - rewrite <- E. apply Z.mul_le_mono_nonneg_r; [apply Z.pow_nonneg; lia|].
    apply rne_le. apply Qmult_le_compat_r; [exact Hst|].
    apply Qlt_le_weak, Qinv_lt_0_compat, Ps.
  - assert (Hlt : js < jt) by lia.
    set (L := Z.log2 (Qfloor t)).
    fold L in Ejt.
    assert (HjL : jt = L - 52) by lia.
    assert (HLs : Z.log2 (Qfloor s) < L) by lia.
    apply Z.le_trans with (2 ^ L).
    + (* the smaller number stays below the power of two *)
      pose proof (below_pow2 s L HLs) as Hs.
      replace L with ((L - js) + js) in Hs |- * by lia.
      rewrite pow2_split in Hs by lia.
      rewrite Z.pow_add_r by lia.
      apply Z.mul_le_mono_nonneg_r; [apply Z.pow_nonneg; lia|].
      rewrite <- (rne_Z (2 ^ (L - js))). apply rne_le.
      apply Qle_shift_div_r; [exact Ps | exact Hs].
    + pose proof (above_pow2 t ltac:(fold L; lia)) as Ht. fold L in Ht.
      replace L with (52 + jt) in Ht |- * by lia.
      rewrite pow2_split in Ht by lia.
      rewrite Z.pow_add_r by lia.
      apply Z.mul_le_mono_nonneg_r; [apply Z.pow_nonneg; lia|].
      rewrite <- (rne_Z (2 ^ 52)) at 1. apply rne_le.
      apply Qle_shift_div_l; [exact Pt | exact Ht].
Qed.

Lemma round_scaled_comp (s t : Q) : (s == t)%Q -> Double.round_scaled s = Double.round_scaled t.
Proof.
  intros E. apply Z.le_antisymm; apply round_scaled_le; rewrite E; apply Qle_refl.
Qed.

Lemma round_scaled_nonneg (s : Q) : (0 <= s)%Q -> 0 <= Double.round_scaled s.
Proof.
  intros H. change 0 with (Double.round_scaled 0). now apply round_scaled_le.
Qed.

Lemma magnitude_le (x y : Q) : (x <= y)%Q -> (Double.magnitude x <= Double.magnitude y)%Q.
Proof.
  intros H. unfold Double.magnitude.
  assert (P : (0 < inject_Z (2 ^ 1074))%Q) by (apply pow2_positive; lia).
  apply Qmult_le_compat_r; [|apply Qlt_le_weak, Qinv_lt_0_compat, P].
  rewrite <- Zle_Qle. apply round_scaled_le.
  apply Qmult_le_compat_r; [exact H | lra].
Qed.

Lemma magnitude_nonneg (x : Q) : (0 <= x)%Q -> (0 <= Double.magnitude x)%Q.
Proof.
  intros H. apply Qle_trans with (Double.magnitude 0); [|now apply magnitude_le].
  vm_compute. discriminate.
Qed.

Lemma binary64_le (x y : Q) : (x <= y)%Q -> (Double.binary64 x <= Double.binary64 y)%Q.
Proof.
  intros H. unfold Double.binary64.
  destruct (x ?= 0)%Q eqn:Cx; destruct (y ?= 0)%Q eqn:Cy;
    repeat match goal with
           | H : (_ ?= _)%Q = Eq |- _ => apply Qeq_alt in H
           | H : (_ ?= _)%Q = Lt |- _ => apply Qlt_alt in H
           | H : (_ ?= _)%Q = Gt |- _ => apply Qgt_alt in H
           end;
    try (apply magnitude_le, H); try (exfalso; lra).
  - pose proof (magnitude_nonneg (- x)). pose proof (magnitude_nonneg y). lra.
  - pose proof (magnitude_le (- y) (- x)). lra.
  - pose proof (magnitude_nonneg (- x)). pose proof (magnitude_nonneg y). lra.
Qed.

Lemma binary64_comp (x y : Q) : (x == y)%Q -> (Double.binary64 x == Double.binary64 y)%Q.
Proof. intros E. apply Qle_antisym; apply binary64_le; rewrite E; apply Qle_refl. Qed.

#[local] Instance binary64_proper : Proper (Qeq ==> Qeq) Double.binary64.
Proof. intros x y E. now apply binary64_comp. Qed.

Lemma round_scaled_small (s : Q) :
  Double.quantum s = 0 -> Double.round_scaled s = Double.rne s.
Proof.
  intros E. unfold Double.round_scaled. rewrite E.
  change (2 ^ 0) with 1. rewrite Z.mul_1_r. apply rne_comp.
  change (inject_Z 1) with 1%Q. field.
Qed.

Lemma round_scaled_relative (s : Q) :
  (0 <= s)%Q -> Double.quantum s <> 0 ->
  (Qabs (inject_Z (Double.round_scaled s) - s) <= s * (1 # 2 ^ 53))%Q.
Proof.
  intros Hs NZ. unfold Double.round_scaled.
  assert (Ej : Double.quantum s = Z.max 0 (Z.log2 (Qfloor s) - 52)) by reflexivity.
  pose proof (quantum_nonneg s) as Hj.
  set (j := Double.quantum s) in *.
  pose proof (pow2_positive j Hj) as P.
  pose proof (rne_error (s / inject_Z (2 ^ j))) as He.
  set (m := Double.rne (s / inject_Z (2 ^ j))) in *.
  rewrite inject_Z_mult.
  set (p := inject_Z (2 ^ j)) in *.
  assert (E : (inject_Z m * p - s == (inject_Z m - s / p) * p)%Q) by (field; lra).
  rewrite E, Qabs_Qmult, (Qabs_pos p) by lra.
  assert (HL : 0 < Z.log2 (Qfloor s)) by lia.
  pose proof (above_pow2 s HL) as Hlo.
  replace (Z.log2 (Qfloor s)) with (52 + j) in Hlo by lia.
  rewrite pow2_split in Hlo by lia. fold p in Hlo.
  apply Qle_trans with ((1 # 2) * p)%Q.
  - apply Qmult_le_compat_r; [exact He | lra].
  - assert (E2 : ((1 # 2) * p == inject_Z (2 ^ 52) * p * (1 # 2 ^ 53))%Q).
    { change (inject_Z (2 ^ 52)) with (4503599627370496 # 1)%Q.
      change (1 # 2 ^ 53)%Q with (1 # 9007199254740992)%Q. ring. }
    rewrite E2.
    apply Qmult_le_compat_r; [exact Hlo | discriminate].
Qed.

Lemma round_scaled_grid (s : Q) (k : Z) :
  (0 <= s)%Q -> (s == inject_Z k)%Q ->
  (Qabs (inject_Z (Double.round_scaled s) - s) <= s * (1 # 2 ^ 53))%Q.
Proof.
  intros Hs Hk. destruct (Z.eq_dec (Double.quantum s) 0) as [Z0 | NZ].
  - rewrite (round_scaled_small s Z0), (rne_comp _ _ Hk), rne_Z.
    assert ((0 <= s * (1 # 2 ^ 53))%Q) by (apply Qmult_le_0_compat; [exact Hs | discriminate]).
    apply Qabs_Qle_condition. split; lra.
  - now apply round_scaled_relative.
Qed.


Lemma binary64_nonneg_eq (q : Q) : (0 <= q)%Q -> Double.binary64 q = Double.magnitude q.
Proof.
  intros H. unfold Double.binary64. destruct (q ?= 0)%Q eqn:C; try reflexivity.
  apply Qlt_alt in C. lra.
Qed.

Lemma magnitude_scaled (q : Q) :
  (Double.magnitude q * inject_Z (2 ^ 1074)
   == inject_Z (Double.round_scaled (q * inject_Z (2 ^ 1074))))%Q.
Proof.
  unfold Double.magnitude. field.
  assert (P : (0 < inject_Z (2 ^ 1074))%Q) by (apply pow2_positive; lia). lra.
Qed.

Lemma magnitude_error_scaled (q e : Q) :
  (Qabs (inject_Z (Double.round_scaled (q * inject_Z (2 ^ 1074))) - q * inject_Z (2 ^ 1074))
     <= e * inject_Z (2 ^ 1074))%Q ->
  (Qabs (Double.magnitude q - q) <= e)%Q.
Proof.
  assert (P : (0 < inject_Z (2 ^ 1074))%Q) by (apply pow2_positive; lia).
  set (p := inject_Z (2 ^ 1074)) in *.
  intros H. pose proof (magnitude_scaled q) as E. fold p in E.
  rewrite <- E in H.
  assert (E2 : (Double.magnitude q * p - q * p == (Double.magnitude q - q) * p)%Q) by ring.
  rewrite E2, Qabs_Qmult, (Qabs_pos p) in H by lra.
  apply Qmult_le_r in H; [exact H | exact P].
Qed.

Lemma binary64_error (q : Q) :
  (0 <= q)%Q -> (Qabs (Double.binary64 q - q) <= q * Double.unit_roundoff + Double.tiny)%Q.
Proof.
  intros Hq. rewrite (binary64_nonneg_eq q Hq).
  assert (P : (0 < inject_Z (2 ^ 1074))%Q) by (apply pow2_positive; lia).
  apply magnitude_error_scaled.
  set (p := inject_Z (2 ^ 1074)) in *.
  assert (Hs : (0 <= q * p)%Q) by (apply Qmult_le_0_compat; lra).
  destruct (Z.eq_dec (Double.quantum (q * p)) 0) as [Z0 | NZ].
  - rewrite (round_scaled_small _ Z0).
    pose proof (rne_error (q * p)) as He.
    assert (Et : (Double.tiny * p == 1 # 2)%Q) by reflexivity.
    assert ((0 <= q * Double.unit_roundoff * p)%Q).
    { apply Qmult_le_0_compat; [apply Qmult_le_0_compat|]; try lra. discriminate. }
    assert (E : ((q * Double.unit_roundoff + Double.tiny) * p == q * Double.unit_roundoff * p + Double.tiny * p)%Q) by ring.
    rewrite E, Et. lra.
  - pose proof (round_scaled_relative (q * p) Hs NZ) as He.
    fold Double.unit_roundoff in He.
    assert ((0 <= Double.tiny * p)%Q) by (apply Qmult_le_0_compat; [discriminate | lra]).
    assert (E : ((q * Double.unit_roundoff + Double.tiny) * p == q * p * Double.unit_roundoff + Double.tiny * p)%Q) by ring.
    rewrite E. lra.
Qed.

Lemma binary64_error_grid (q : Q) :
  (0 <= q)%Q -> Double.on_grid q -> (Qabs (Double.binary64 q - q) <= q * Double.unit_roundoff)%Q.
Proof.
  intros Hq (k & Hk). rewrite (binary64_nonneg_eq q Hq).
  assert (P : (0 < inject_Z (2 ^ 1074))%Q) by (apply pow2_positive; lia).
  apply magnitude_error_scaled.
  set (p := inject_Z (2 ^ 1074)) in *.
  assert (Hs : (0 <= q * p)%Q) by (apply Qmult_le_0_compat; lra).
  pose proof (round_scaled_grid (q * p) k Hs Hk) as He. fold Double.unit_roundoff in He.
  assert (E : (q * Double.unit_roundoff * p == q * p * Double.unit_roundoff)%Q) by ring.
  now rewrite E.
Qed.

Lemma binary64_on_grid (q : Q) : Double.on_grid (Double.binary64 q).
Proof.
  unfold Double.binary64.
  destruct (q ?= 0)%Q.
  - eexists. apply magnitude_scaled.
  - exists (- Double.round_scaled (- q * inject_Z (2 ^ 1074))).
    rewrite inject_Z_opp, <- magnitude_scaled. ring.
  - eexists. apply magnitude_scaled.
Qed.

Lemma on_grid_plus (a b : Q) : Double.on_grid a -> Double.on_grid b -> Double.on_grid (a + b).
Proof.
  intros (k & Hk) (l & Hl). exists (k + l). rewrite inject_Z_plus, <- Hk, <- Hl. ring.
Qed.

Lemma on_grid_comp (a b : Q) : (a == b)%Q -> Double.on_grid a -> Double.on_grid b.
Proof. intros E (k & Hk). exists k. now rewrite <- E. Qed.

Lemma magnitude_comp (x y : Q) : (x == y)%Q -> (Double.magnitude x == Double.magnitude y)%Q.
Proof.
  intros E. unfold Double.magnitude.
  rewrite (round_scaled_comp (x * inject_Z (2 ^ 1074)) (y * inject_Z (2 ^ 1074))); [reflexivity|].
  now rewrite E.
Qed.

Lemma binary64_opp (x : Q) : (Double.binary64 (- x) == - Double.binary64 x)%Q.
Proof.
  unfold Double.binary64.
  destruct (x ?= 0)%Q eqn:Cx; destruct (- x ?= 0)%Q eqn:Cn;
    repeat match goal with
           | H : (_ ?= _)%Q = Eq |- _ => apply Qeq_alt in H
           | H : (_ ?= _)%Q = Lt |- _ => apply Qlt_alt in H
           | H : (_ ?= _)%Q = Gt |- _ => apply Qgt_alt in H
           end; try (exfalso; lra).
  - rewrite (magnitude_comp (- x) 0), (magnitude_comp x 0) by lra. reflexivity.
  - rewrite Qopp_involutive. reflexivity.
  - rewrite (magnitude_comp (- - x) x) by ring. reflexivity.
Qed.

Lemma log2_scaled (m : Z) : 0 < m -> Z.log2 (m * 2 ^ 1074) = 1074 + Z.log2 m.
Proof. intros H. apply Z.log2_mul_pow2; lia. Qed.

Lemma binary64_Z (m : Z) :
  - 2 ^ 53 < m < 2 ^ 53 -> (Double.binary64 (inject_Z m) == inject_Z m)%Q.
Proof.
  assert (Hpos : forall m, 0 <= m < 2 ^ 53 -> (Double.binary64 (inject_Z m) == inject_Z m)%Q).
  { clear m. intros m Hm.
    assert (Hq : (0 <= inject_Z m)%Q) by (change 0%Q with (inject_Z 0); rewrite <- Zle_Qle; lia).
    rewrite (binary64_nonneg_eq _ Hq). unfold Double.magnitude.
    assert (P : (0 < inject_Z (2 ^ 1074))%Q) by (apply pow2_positive; lia).
    assert (Es : (inject_Z m * inject_Z (2 ^ 1074) == inject_Z (m * 2 ^ 1074))%Q)
      by (now rewrite inject_Z_mult).
    rewrite (round_scaled_comp _ _ Es).
    assert (R : Double.round_scaled (inject_Z (m * 2 ^ 1074)) = m * 2 ^ 1074).
    { unfold Double.round_scaled, Double.quantum. rewrite Qfloor_Z.
      destruct (Z.eq_dec m 0) as [-> | NZ]; [reflexivity|].
      rewrite log2_scaled by lia.
      assert (HL : 0 <= Z.log2 m <= 52).
      { split; [apply Z.log2_nonneg|].
        assert (Z.log2 m < 53) by (apply Z.log2_lt_pow2; lia). lia. }
      rewrite Z.max_r by lia.
      set (j := 1074 + Z.log2 m - 52).
      assert (Ej : m * 2 ^ 1074 = (m * 2 ^ (1074 - j)) * 2 ^ j).
      { rewrite <- Z.mul_assoc, <- Z.pow_add_r by lia. f_equal. f_equal. lia. }
      rewrite Ej at 1.
      rewrite (rne_comp _ (inject_Z (m * 2 ^ (1074 - j)))).
      - rewrite rne_Z. symmetry. exact Ej.
      - rewrite inject_Z_mult. field.
        assert (0 < inject_Z (2 ^ j))%Q by (apply pow2_positive; lia). lra. }
    rewrite R, inject_Z_mult. field. lra. }
  intros Hm. destruct (Z_lt_le_dec m 0) as [N | NN].
  - assert (E : (inject_Z m == - inject_Z (- m))%Q) by (rewrite inject_Z_opp; ring).
    rewrite (binary64_comp _ _ E), binary64_opp, Hpos by lia.
    rewrite inject_Z_opp. ring.
  - apply Hpos. lia.
Qed.

(** *** Doubles are fixed by the rounding *)

Lemma round_scaled_exact (M i : Z) :
  0 <= i -> 0 <= M ->
  Double.quantum (inject_Z (M * 2 ^ i)) <= i ->
  Double.round_scaled (inject_Z (M * 2 ^ i)) = M * 2 ^ i.
Proof.
  intros Hi HM Hq. unfold Double.round_scaled.
  pose proof (quantum_nonneg (inject_Z (M * 2 ^ i))) as Hj.
  set (j := Double.quantum (inject_Z (M * 2 ^ i))) in *.
  assert (Ej : M * 2 ^ i = (M * 2 ^ (i - j)) * 2 ^ j).
  { rewrite <- Z.mul_assoc, <- Z.pow_add_r by lia. f_equal. f_equal. lia. }
  rewrite (rne_comp _ (inject_Z (M * 2 ^ (i - j)))).
  - rewrite rne_Z. symmetry. exact Ej.
  - rewrite Ej at 1. rewrite inject_Z_mult. field.
    assert (0 < inject_Z (2 ^ j))%Q by (apply pow2_positive; lia). lra.
Qed.

Lemma rne_range (s : Q) (j : Z) :
  (0 <= s)%Q -> j = Double.quantum s ->
  0 <= Double.rne (s / inject_Z (2 ^ j)) <= 2 ^ 53
  /\ (j <> 0 -> 2 ^ 52 <= Double.rne (s / inject_Z (2 ^ j))).
Proof.
  intros Hs Ej.
  assert (Eq : Double.quantum s = Z.max 0 (Z.log2 (Qfloor s) - 52)) by reflexivity.
  assert (Hj : 0 <= j) by lia.
  pose proof (pow2_positive j Hj) as P.
  repeat split.
  - apply rne_nonneg. apply Qle_shift_div_l; [exact P | lra].
  - rewrite <- (rne_Z (2 ^ 53)). apply rne_le. apply Qle_shift_div_r; [exact P|].
    rewrite <- pow2_split by lia.
    apply below_pow2. lia.
  - intros NZ. rewrite <- (rne_Z (2 ^ 52)). apply rne_le.
    apply Qle_shift_div_l; [exact P|].
    rewrite <- pow2_split by lia.
    replace (52 + j) with (Z.log2 (Qfloor s)) by lia.
    apply above_pow2. lia.
Qed.

Lemma round_scaled_idempotent (s : Q) :
  (0 <= s)%Q ->
  Double.round_scaled (inject_Z (Double.round_scaled s)) = Double.round_scaled s.
Proof.
  intros Hs.
  assert (Er : Double.round_scaled s
               = Double.rne (s / inject_Z (2 ^ Double.quantum s)) * 2 ^ Double.quantum s)
    by reflexivity.
  pose proof (quantum_nonneg s) as Hj.
  destruct (rne_range s (Double.quantum s) Hs eq_refl) as ((Hm0 & Hm1) & Hm2).
  set (j := Double.quantum s) in *.
  set (m := Double.rne (s / inject_Z (2 ^ j))) in *.
  rewrite Er.
  destruct (Z.eq_dec m 0) as [-> | NZ]; [reflexivity|].
  destruct (Z.eq_dec m (2 ^ 53)) as [E53 | N53].
  - assert (E : m * 2 ^ j = 2 ^ 52 * 2 ^ (j + 1)).
    { rewrite E53, Z.pow_add_r by lia. lia. }
    rewrite E. apply round_scaled_exact; try lia.
    unfold Double.quantum. rewrite Qfloor_Z, <- Z.pow_add_r, Z.log2_pow2 by lia. lia.
  - apply round_scaled_exact; try lia.
    unfold Double.quantum. rewrite Qfloor_Z, Z.log2_mul_pow2 by lia.
    assert (Z.log2 m < 53) by (apply Z.log2_lt_pow2; lia).
    destruct (Z.eq_dec j 0) as [Z0 | NZj]; [lia|].
    specialize (Hm2 NZj).
    assert (52 <= Z.log2 m) by (apply Z.log2_le_pow2; lia).
    lia.
Qed.

Lemma binary64_idempotent (q : Q) :
  (Double.binary64 (Double.binary64 q) == Double.binary64 q)%Q.
Proof.
  assert (P : (0 < inject_Z (2 ^ 1074))%Q) by (apply pow2_positive; lia).
  assert (Hpos : forall q, (0 <= q)%Q ->
            (Double.binary64 (Double.binary64 q) == Double.binary64 q)%Q).
  { clear q. intros q Hq.
    pose proof (binary64_le 0 q Hq) as H0.
    assert (E0 : (Double.binary64 0 == 0)%Q) by reflexivity.
    rewrite (binary64_nonneg_eq (Double.binary64 q)) by lra.
    rewrite (binary64_nonneg_eq q Hq).
    unfold Double.magnitude at 1.
    rewrite (round_scaled_comp _ _ (magnitude_scaled q)).
    rewrite round_scaled_idempotent; [reflexivity|].
    apply Qmult_le_0_compat; lra. }
  destruct (Qlt_le_dec q 0) as [N | NN]; [|now apply Hpos].
  assert (E : (Double.binary64 q == - Double.binary64 (- q))%Q).
  { rewrite <- binary64_opp. apply binary64_comp. ring. }
  rewrite E, binary64_opp, Hpos by lra. reflexivity.
Qed.

Lemma binary64_representable (q : Q) : Double.representable (Double.binary64 q).
Proof. apply binary64_idempotent. Qed.

Lemma representable_on_grid (q : Q) : Double.representable q -> Double.on_grid q.
Proof. intros E. apply (on_grid_comp _ _ E), binary64_on_grid. Qed.

Lemma representable_Z (m : Z) : - 2 ^ 53 < m < 2 ^ 53 -> Double.representable (inject_Z m).
Proof. apply binary64_Z. Qed.

(** *** Overflow and the order of results *)

Lemma fl_cases (q : Q) :
  (Double.fl q = JS.PInf /\ (inject_Z (2 ^ 1024) <= Double.binary64 q)%Q)
  \/ (Double.fl q = JS.NInf /\ (Double.binary64 q <= - inject_Z (2 ^ 1024))%Q)
  \/ (Double.fl q = JS.Fin (Double.binary64 q)
      /\ (- inject_Z (2 ^ 1024) < Double.binary64 q < inject_Z (2 ^ 1024))%Q).
Proof.
  unfold Double.fl. cbv zeta.
  destruct (Qle_bool (inject_Z (2 ^ 1024)) (Double.binary64 q)) eqn:Hi.
  - left. split; [reflexivity | now apply Qle_bool_iff].
  - destruct (Qle_bool (Double.binary64 q) (- inject_Z (2 ^ 1024))) eqn:Lo.
    + right. left. split; [reflexivity | now apply Qle_bool_iff].
    + right. right. split; [reflexivity|]. split.
      * apply Qnot_le_lt. intros H. apply Qle_bool_iff in H. congruence.
      * apply Qnot_le_lt. intros H. apply Qle_bool_iff in H. congruence.
Qed.

Lemma fl_at_most (q c : Q) :
  (q <= c)%Q -> Double.representable c -> (c < inject_Z (2 ^ 1024))%Q ->
  Double.at_most c (Double.fl q).
Proof.
  intros Hq Hc Hfin. pose proof (binary64_le q c Hq) as Hle.
  unfold Double.representable in Hc. rewrite Hc in Hle.
  destruct (fl_cases q) as [[-> H] | [[-> H] | [-> H]]]; cbn; try exact I; lra.
Qed.

Lemma fl_at_least (q c : Q) :
  (c <= q)%Q -> Double.representable c -> (- inject_Z (2 ^ 1024) < c)%Q ->
  Double.at_least c (Double.fl q).
Proof.
  intros Hq Hc Hfin. pose proof (binary64_le c q Hq) as Hle.
  unfold Double.representable in Hc. rewrite Hc in Hle.
  destruct (fl_cases q) as [[-> H] | [[-> H] | [-> H]]]; cbn; try exact I; lra.
Qed.

Lemma add_at_most (x : JS.num) (y c d : Q) :
  Double.at_most c x -> (y <= d)%Q ->
  Double.representable (c + d) -> (c + d < inject_Z (2 ^ 1024))%Q ->
  Double.at_most (c + d) (Double.add x (JS.Fin y)).
Proof.
  intros Hx Hy Hr Hfin. destruct x as [a | | |]; cbn in Hx |- *; try contradiction; try exact I.
  apply fl_at_most; [lra | exact Hr | exact Hfin].
Qed.

Lemma add_at_least (x : JS.num) (y c d : Q) :
  Double.at_least c x -> (d <= y)%Q ->
  Double.representable (c + d) -> (- inject_Z (2 ^ 1024) < c + d)%Q ->
  Double.at_least (c + d) (Double.add x (JS.Fin y)).
Proof.
  intros Hx Hy Hr Hfin. destruct x as [a | | |]; cbn in Hx |- *; try contradiction; try exact I.
  apply fl_at_least; [lra | exact Hr | exact Hfin].
Qed.

Lemma at_most_comp (c d : Q) (x : JS.num) : (c == d)%Q -> Double.at_most c x -> Double.at_most d x.
Proof. intros E. destruct x; cbn; try tauto. now rewrite E. Qed.

Lemma at_least_comp (c d : Q) (x : JS.num) : (c == d)%Q -> Double.at_least c x -> Double.at_least d x.
Proof. intros E. destruct x; cbn; try tauto. now rewrite E. Qed.

Lemma small_integer (m : Z) :
  - 2 ^ 53 < m < 2 ^ 53 ->
  Double.representable (inject_Z m)
  /\ (- inject_Z (2 ^ 1024) < inject_Z m < inject_Z (2 ^ 1024))%Q.
Proof.
  intros Hm. split; [now apply representable_Z|].
  assert (2 ^ 53 < 2 ^ 1024) by (apply Z.pow_lt_mono_r; lia).
  rewrite <- inject_Z_opp, <- !Zlt_Qlt. lia.
Qed.

(** A running sum whose terms are all at most [m] is at most [m] times
    their number, as long as that product is an integer a double holds. *)
Lemma sum_at_most (m : Z) (field : MarketRecord -> option Q)
    (l : list MarketRecord) (acc : JS.num) (k : Z) :
  0 <= k -> Z.abs m * (k + Z.of_nat (length l)) < 2 ^ 53 ->
  Double.at_most (inject_Z (m * k)) acc ->
  (forall t, In t l -> (JS.or_default (field t) 0 <= inject_Z m)%Q) ->
  Double.at_most (inject_Z (m * (k + Z.of_nat (length l))))
    (fold_left (fun sum token => Double.add sum (JS.Fin (JS.or_default (field token) 0)))
               l acc).
Proof.
  revert acc k. induction l as [| t l IH]; intros acc k Hk Hsmall Hacc Hall.
  - cbn [fold_left length]. now rewrite Z.add_0_r.
  - cbn [fold_left length] in *. rewrite Nat2Z.inj_succ in *.
    replace (k + Z.succ (Z.of_nat (length l))) with ((k + 1) + Z.of_nat (length l)) in * by lia.
    apply IH; try lia.
    + assert (Hm : - 2 ^ 53 < m * k + m < 2 ^ 53) by nia.
      destruct (small_integer _ Hm) as (Hr & Hlo & Hhi).
      apply (at_most_comp (inject_Z (m * k) + inject_Z m)).
      { rewrite <- inject_Z_plus. replace (m * (k + 1)) with (m * k + m) by lia. reflexivity. }
      apply add_at_most.
      * exact Hacc.
      * apply Hall. now left.
      * unfold Double.representable. rewrite <- inject_Z_plus. exact Hr.
      * rewrite <- inject_Z_plus. exact Hhi.
    + intros t' Hin. apply Hall. now right.
Qed.

Lemma sum_at_least (m : Z) (field : MarketRecord -> option Q)
    (l : list MarketRecord) (acc : JS.num) (k : Z) :
  0 <= k -> Z.abs m * (k + Z.of_nat (length l)) < 2 ^ 53 ->
  Double.at_least (inject_Z (m * k)) acc ->
  (forall t, In t l -> (inject_Z m <= JS.or_default (field t) 0)%Q) ->
  Double.at_least (inject_Z (m * (k + Z.of_nat (length l))))
    (fold_left (fun sum token => Double.add sum (JS.Fin (JS.or_default (field token) 0)))
               l acc).
Proof.
  revert acc k. induction l as [| t l IH]; intros acc k Hk Hsmall Hacc Hall.
  - cbn [fold_left length]. now rewrite Z.add_0_r.
  - cbn [fold_left length] in *. rewrite Nat2Z.inj_succ in *.
    replace (k + Z.succ (Z.of_nat (length l))) with ((k + 1) + Z.of_nat (length l)) in * by lia.
    apply IH; try lia.
    + assert (Hm : - 2 ^ 53 < m * k + m < 2 ^ 53) by nia.
      destruct (small_integer _ Hm) as (Hr & Hlo & Hhi).
      apply (at_least_comp (inject_Z (m * k) + inject_Z m)).
      { rewrite <- inject_Z_plus. replace (m * (k + 1)) with (m * k + m) by lia. reflexivity. }
      apply add_at_least.
      * exact Hacc.
      * apply Hall. now left.
      * unfold Double.representable. rewrite <- inject_Z_plus. exact Hr.
      * rewrite <- inject_Z_plus. exact Hlo.
    + intros t' Hin. apply Hall. now right.
Qed.

(** The average of such a sum keeps the bound of the terms. *)
Lemma average_at_most (m n : Z) (x : JS.num) :
  0 < n -> - 2 ^ 53 < m < 2 ^ 53 ->
  Double.at_most (inject_Z (m * n)) x ->
  Double.at_most (inject_Z m) (Double.div x (JS.Fin (inject_Z n))).
Proof.
  intros Hn Hm Hx.
  assert (Pn : (0 < inject_Z n)%Q) by (change 0%Q with (inject_Z 0); now rewrite <- Zlt_Qlt).
  destruct (small_integer m Hm) as (Hr & Hlo & Hhi).
  destruct x as [a | | |]; cbn in Hx; try contradiction.
  - unfold Double.div.
    destruct (JS.is_zero (inject_Z n)) eqn:Z0; [apply is_zero_true in Z0; lra|].
    apply fl_at_most; [|exact Hr | exact Hhi].
    apply Qle_shift_div_r; [exact Pn|]. now rewrite <- inject_Z_mult.
  - unfold Double.div. destruct (ltb_spec (inject_Z n) 0) as [L | _]; [lra | exact I].
Qed.

Lemma average_at_least (m n : Z) (x : JS.num) :
  0 < n -> - 2 ^ 53 < m < 2 ^ 53 ->
  Double.at_least (inject_Z (m * n)) x ->
  Double.at_least (inject_Z m) (Double.div x (JS.Fin (inject_Z n))).
Proof.
  intros Hn Hm Hx.
  assert (Pn : (0 < inject_Z n)%Q) by (change 0%Q with (inject_Z 0); now rewrite <- Zlt_Qlt).
  destruct (small_integer m Hm) as (Hr & Hlo & Hhi).
  destruct x as [a | | |]; cbn in Hx; try contradiction.
  - unfold Double.div.
    destruct (JS.is_zero (inject_Z n)) eqn:Z0; [apply is_zero_true in Z0; lra|].
    apply fl_at_least; [|exact Hr | exact Hlo].
    apply Qle_shift_div_l; [exact Pn|]. now rewrite <- inject_Z_mult.
  - unfold Double.div. destruct (ltb_spec (inject_Z n) 0) as [L | _]; [lra | exact I].
Qed.

Lemma at_most_not_above (c d : Q) (x : JS.num) :
  (c <= d)%Q -> Double.at_most c x -> JS.num_gtb x d = false.
Proof.
  intros Hcd. destruct x as [a | | |]; cbn; try tauto.
  intros Ha. unfold JS.gtb. destruct (ltb_spec d a); [lra | reflexivity].
Qed.

Lemma at_least_not_below (c d : Q) (x : JS.num) :
  (d <= c)%Q -> Double.at_least c x -> JS.num_ltb x d = false.
Proof.
  intros Hcd. destruct x as [a | | |]; cbn; try tauto.
  intros Ha. destruct (ltb_spec a d); [lra | reflexivity].
Qed.

Lemma at_least_above (c d : Q) (x : JS.num) :
  (d < c)%Q -> Double.at_least c x -> JS.num_gtb x d = true.
Proof.
  intros Hcd. destruct x as [a | | |]; cbn; try tauto.
  intros Ha. unfold JS.gtb. destruct (ltb_spec d a); [reflexivity | lra].
Qed.

Lemma at_most_below (c d : Q) (x : JS.num) :
  (c < d)%Q -> Double.at_most c x -> JS.num_ltb x d = true.
Proof.
  intros Hcd. destruct x as [a | | |]; cbn; try tauto.
  intros Ha. destruct (ltb_spec a d); [reflexivity | lra].
Qed.

Lemma not_above_and_below (x : JS.num) :
  JS.num_gtb x 10 = true -> JS.num_ltb x (-10) = true -> False.
Proof.
  destruct x as [a | | |]; cbn; try discriminate.
  unfold JS.gtb. destruct (ltb_spec 10 a), (ltb_spec a (-10)); try discriminate. lra.
Qed.

(** On the operands above, sums, products and quotients are those of the
    machine's doubles, infinities included. *)
Lemma binary64_agrees_with_machine : Double.agrees_on_operands = true.
Proof. vm_compute. reflexivity. Qed.

Lemma fl_finite (q M : Q) :
  (0 <= q <= M)%Q -> Double.representable M -> (M < inject_Z (2 ^ 1024))%Q ->
  Double.fl q = JS.Fin (Double.binary64 q) /\ (0 <= Double.binary64 q <= M)%Q.
Proof.
  intros (Hq0 & HqM) HM Hfin.
  pose proof (binary64_le 0 q Hq0) as H0.
  assert (E0 : (Double.binary64 0 == 0)%Q) by reflexivity.
  pose proof (binary64_le q M HqM) as H1. unfold Double.representable in HM.
  assert (P : (0 < inject_Z (2 ^ 1024))%Q) by (apply pow2_positive; lia).
  destruct (fl_cases q) as [[_ H] | [[_ H] | [-> _]]]; [lra | lra |].
  split; [reflexivity | lra].
Qed.

Lemma representable_1 : Double.representable 1 /\ (1 < inject_Z (2 ^ 1024))%Q.
Proof. split; reflexivity. Qed.

Lemma representable_100 : Double.representable 100 /\ (100 < inject_Z (2 ^ 1024))%Q.
Proof. split; reflexivity. Qed.

(** ** Synthetic oscillator *)

Lemma round_comp (x y : Q) : x == y -> JS.round x = JS.round y.
Proof. intros E. unfold JS.round. apply Qfloor_comp. now rewrite E. Qed.

Lemma round_bounds (x : Q) (lo hi : Z) :
  (inject_Z lo <= x)%Q -> (x <= inject_Z hi)%Q -> lo <= JS.round x <= hi.
Proof.
  intros Hlo Hhi. unfold JS.round. split.
  - rewrite <- (Qfloor_Z lo). apply Qfloor_resp_le. lra.
  - assert (H : (inject_Z (Qfloor (x + (1 # 2))) < inject_Z (hi + 1))%Q).
    { apply Qle_lt_trans with (x + (1 # 2))%Q; [apply Qfloor_le|].
      rewrite inject_Z_plus. change (inject_Z 1) with 1%Q. lra. }
    rewrite <- Zlt_Qlt in H. lia.
Qed.

(** *** Rounded arithmetic

    The range does not depend on arithmetic being exact: it holds for every
    rounding that is monotone and keeps 0, 1 and 100, as rounding to the
    nearest double does. *)

Section Rounded.

Variable fl : Q -> Q.
Hypothesis fl_monotone : forall x y : Q, (x <= y)%Q -> (fl x <= fl y)%Q.
Hypothesis fl_0 : fl 0 == 0.
Hypothesis fl_1 : fl 1 == 1.
Hypothesis fl_100 : fl 100 == 100.

Lemma gains_nonneg (x : Q) : (0 <= JS.max0 x)%Q.
Proof. unfold JS.max0. destruct (ltb_spec 0 x); lra. Qed.

Lemma divisor_positive (x : Q) :
  (0 < JS.or_default (Some (JS.abs (JS.min0 x))) 1)%Q.
Proof.
  unfold JS.or_default.
  destruct (JS.is_zero (JS.abs (JS.min0 x))) eqn:E; [lra|].
  apply is_zero_false in E. revert E. unfold JS.abs, JS.min0.
  destruct (ltb_spec x 0) as [Neg | NonNeg].
  - destruct (ltb_spec x 0); lra.
  - destruct (ltb_spec 0 0); lra.
Qed.

Lemma calculateRSI_rounded_range (token : MarketRecord) :
  0 <= calculateRSI_rounded fl token <= 100.
Proof.
  unfold calculateRSI_rounded.
  set (x := JS.or_default (percentChange24h token) 0).
  pose proof (gains_nonneg x) as Hg. pose proof (divisor_positive x) as Hd.
  set (g := JS.max0 x) in *. set (d := JS.or_default _ 1) in *.
  assert (H1 : (fl 0 <= fl (g / d))%Q).
  { apply fl_monotone. apply Qle_shift_div_l; lra. }
  assert (H2 : (fl 1 <= fl (1 + fl (g / d)))%Q).
  { apply fl_monotone. lra. }
  set (t := fl (1 + fl (g / d))) in *.
  assert (Ht : (1 <= t)%Q) by lra.
  assert (H3 : (fl 0 <= fl (100 / t))%Q).
  { apply fl_monotone. apply Qle_shift_div_l; lra. }
  assert (H4 : (fl (100 / t) <= fl 100)%Q).
  { apply fl_monotone. apply Qle_shift_div_r; lra. }
  set (u := fl (100 / t)) in *.
  assert (H5 : (fl 0 <= fl (100 - u))%Q) by (apply fl_monotone; lra).
  assert (H6 : (fl (100 - u) <= fl 100)%Q) by (apply fl_monotone; lra).
  apply round_bounds.
  - change (inject_Z 0) with 0%Q. lra.
  - change (inject_Z 100) with 100%Q. lra.
Qed.

End Rounded.

(** With the identity as rounding this is the exact computation. *)
Lemma calculateRSI_rounded_exact (token : MarketRecord) :
  calculateRSI_rounded (fun x => x) token = calculateRSI token.
Proof. reflexivity. Qed.

(** *** The formula in rounded arithmetic

    [losses || 1] and [max(losses, 1)] differ only for losses between 0 and
    1, where the gains are 0 and both quotients are 0. *)
Lemma quotient_of_program (x : Q) :
  ((0 < x)%Q -> (JS.max0 x / JS.or_default (Some (JS.abs (JS.min0 x))) 1 == x)%Q)
  /\ ((x <= 0)%Q -> (JS.max0 x / JS.or_default (Some (JS.abs (JS.min0 x))) 1 == 0)%Q).
Proof.
  split; intros Hx; unfold JS.max0, JS.min0.
  - destruct (ltb_spec 0 x) as [_ | N]; [|contradiction].
    destruct (ltb_spec x 0) as [L | _]; [lra|].
    unfold JS.abs. destruct (ltb_spec 0 0) as [L | _]; [lra|].
    change (JS.or_default (Some 0%Q) 1) with 1%Q. field.
  - destruct (ltb_spec 0 x) as [L | _]; [lra|].
    unfold Qdiv. ring.
Qed.

Lemma quotient_of_formula (p : Q) :
  ((0 < p)%Q -> (Qmax 0 p / Qmax (Qabs (Qmin 0 p)) 1 == p)%Q)
  /\ ((p <= 0)%Q -> (Qmax 0 p / Qmax (Qabs (Qmin 0 p)) 1 == 0)%Q).
Proof.
  split; intros Hp.
  - rewrite (Q.max_r 0 p) by lra. rewrite (Q.min_l 0 p) by lra.
    change (Qabs 0) with 0%Q. rewrite (Q.max_r 0 1) by lra. field.
  - rewrite (Q.max_l 0 p) by lra. unfold Qdiv. ring.
Qed.

Section RoundedFormula.

Variable fl : Q -> Q.
Hypothesis fl_monotone : forall x y : Q, (x <= y)%Q -> (fl x <= fl y)%Q.

Lemma fl_comp (x y : Q) : (x == y)%Q -> (fl x == fl y)%Q.
Proof. intros E. apply Qle_antisym; apply fl_monotone; rewrite E; apply Qle_refl. Qed.

Lemma calculateRSI_rounded_formula (token : MarketRecord) (p : Q) :
  percentChange24h token = Some p ->
  calculateRSI_rounded fl token = Spec.oscillator_rounded fl p.
Proof.
  intros Hp. unfold calculateRSI_rounded, Spec.oscillator_rounded, JS.round. rewrite Hp.
  set (x := JS.or_default (Some p) 0).
  assert (Ex : (x == p)%Q).
  { unfold x. destruct (or_default_zero_cases p) as [[Z0 ->] | [_ ->]]; [now rewrite Z0 | reflexivity]. }
  assert (Eq : (JS.max0 x / JS.or_default (Some (JS.abs (JS.min0 x))) 1
                == Qmax 0 p / Qmax (Qabs (Qmin 0 p)) 1)%Q).
  { destruct (Qlt_le_dec 0 p) as [Pos | NonPos].
    - rewrite (proj1 (quotient_of_program x)) by lra.
      rewrite (proj1 (quotient_of_formula p)) by lra. exact Ex.
    - rewrite (proj2 (quotient_of_program x)) by lra.
      rewrite (proj2 (quotient_of_formula p)) by lra. reflexivity. }
  apply Qfloor_comp. apply Qplus_comp; [|reflexivity].
  apply fl_comp. apply Qplus_comp; [reflexivity|]. apply Qopp_comp.
  apply fl_comp. apply Qmult_comp; [reflexivity|]. apply Qinv_comp.
  apply fl_comp. apply Qplus_comp; [reflexivity|].
  apply fl_comp. exact Eq.
Qed.

End RoundedFormula.

(** C4.  For a record whose 24h change is the finite number [p], the
    oscillator value is round(100 - 100 / (1 + max(0, p) / max(|min(0, p)|, 1)))
    and lies in [0, 100], the arithmetic of the program and of the formula
    being rounded alike: by any rounding [fl] that is monotone and keeps 0,
    1 and 100, as rounding to the nearest double is.  With no losses the
    divisor is 1. *)
Theorem oscillator_formula_and_range (fl : Q -> Q) (token : MarketRecord) (p : Q) :
  (forall x y : Q, (x <= y)%Q -> (fl x <= fl y)%Q) ->
  (fl 0 == 0)%Q -> (fl 1 == 1)%Q -> (fl 100 == 100)%Q ->
  percentChange24h token = Some p ->
  calculateRSI_rounded fl token = Spec.oscillator_rounded fl p
  /\ 0 <= calculateRSI_rounded fl token <= 100.
Proof.
  intros Hmono H0 H1 H100 Hp. split.
  - now apply calculateRSI_rounded_formula.
  - now apply calculateRSI_rounded_range.
Qed.

Lemma oscillator_formula_and_range_witness :
  calculateRSI_rounded Double.binary64 (Sample.record "SOL" Sample.change_0_6 200 100 30)
    = Spec.oscillator_rounded Double.binary64 Sample.change_0_6
  /\ 0 <= calculateRSI_rounded Double.binary64
            (Sample.record "SOL" Sample.change_0_6 200 100 30) <= 100.
Proof.
  apply (oscillator_formula_and_range Double.binary64
           (Sample.record "SOL" Sample.change_0_6 200 100 30) Sample.change_0_6).
  - exact binary64_le.
  - reflexivity.
  - reflexivity.
  - reflexivity.
  - reflexivity.
Defined.

(** The program's oscillator, in the arithmetic of doubles. *)
Lemma calculateRSI_double (token : MarketRecord) (p : Q) :
  percentChange24h token = Some p ->
  Double.calculateRSI token = Spec.oscillator_rounded Double.binary64 p
  /\ 0 <= Double.calculateRSI token <= 100.
Proof.
  intros Hp. unfold Double.calculateRSI. split.
  - apply calculateRSI_rounded_formula; [exact binary64_le | exact Hp].
  - apply calculateRSI_rounded_range; [exact binary64_le | reflexivity ..].
Qed.

(** At the double nearest to 0.6 the rounded sum [1 + 0.6] makes the
    quotient exactly 62.5: the program returns 38, where the exact
    computation on the same double gives 37. *)
Lemma calculateRSI_at_0_6 :
  Double.calculateRSI (Sample.record "SOL" Sample.change_0_6 200 100 30) = 38
  /\ calculateRSI (Sample.record "SOL" Sample.change_0_6 200 100 30) = 37
  /\ Double.representable Sample.change_0_6.
Proof. repeat split; vm_compute; reflexivity. Qed.

(** ** Short-term trends *)

Lemma In_push_if (cond : bool) (text x : string) (trends_ : list string) :
  In x (push_if cond text trends_) <-> In x trends_ \/ (cond = true /\ x = text).
Proof.
  unfold push_if. destruct cond.
  - rewrite in_app_iff. cbn. intuition congruence.
  - intuition congruence.
Qed.

Lemma opt_gtb_up (t : MarketRecord) (c : Q) :
  JS.opt_gtb (percentChange24h t) c = true <-> Spec.up_more_than c t.
Proof.
  unfold Spec.up_more_than, JS.opt_gtb. destruct (percentChange24h t) as [p|].
  - rewrite gtb_true. split.
    + intros H. exists p. split; [reflexivity | exact H].
    + intros (q & E & H). injection E as <-. exact H.
  - split; [discriminate | intros (q & E & _); discriminate].
Qed.

Lemma opt_ltb_down (t : MarketRecord) (c : Q) :
  JS.opt_ltb (percentChange24h t) c = true <-> Spec.down_below c t.
Proof.
  unfold Spec.down_below, JS.opt_ltb. destruct (percentChange24h t) as [p|].
  - rewrite ltb_true. split.
    + intros H. exists p. split; [reflexivity | exact H].
    + intros (q & E & H). injection E as <-. exact H.
  - split; [discriminate | intros (q & E & _); discriminate].
Qed.

(** The program's [filter(...).length] is the count of the specification. *)
Lemma filter_length_counts (P : MarketRecord -> Prop) (f : MarketRecord -> bool)
    (marketData : list MarketRecord) (n : nat) :
  (forall t, f t = true <-> P t) ->
  Spec.counts P marketData n ->
  length (List.filter f marketData) = n.
Proof.
  intros Hf Hc. induction Hc as [| t l n Ht _ IH | t l n Ht _ IH]; cbn.
  - reflexivity.
  - apply Hf in Ht. rewrite Ht. cbn. now rewrite IH.
  - destruct (f t) eqn:E; [apply Hf in E; contradiction | exact IH].
Qed.

(** Every batch has a count. *)
Lemma counts_total (P : MarketRecord -> Prop) (f : MarketRecord -> bool)
    (marketData : list MarketRecord) :
  (forall t, f t = true <-> P t) ->
  Spec.counts P marketData (length (List.filter f marketData)).
Proof.
  intros Hf. induction marketData as [| t l IH]; cbn.
  - constructor.
  - destruct (f t) eqn:E; cbn.
    + apply Spec.counts_hit; [apply Hf, E | exact IH].
    + apply Spec.counts_miss; [|exact IH].
      intros HP. apply Hf in HP. congruence.
Qed.

(** [count > length * 0.6] in integers. *)
Lemma threshold_60_percent (count_ len : nat) :
  JS.gtb (count_of count_) (count_of len * 0.6) = true
  <-> Spec.more_than_60_percent count_ len.
Proof.
  rewrite gtb_true. unfold Spec.more_than_60_percent, count_of, Qlt. cbn.
  lia.
Qed.

(** On doubles, with the literal [0.6] rounded as the machine rounds it,
    the test gives the same answer for every batch of up to 200 records. *)
Lemma rally_threshold_on_doubles : rally_threshold_agrees 200 = true.
Proof. vm_compute. reflexivity. Qed.

(** C8.  With [gainers] records up more than 5 percent and [losers] records
    down below -5 percent, "Broad market rally" is in the short-term list
    exactly when the gainers are more than 60 percent of the batch, and
    "Market-wide correction" exactly when the losers are; in particular the
    correction entry needs at least 60 percent of the batch below -5
    percent. *)
Theorem rally_and_correction_threshold (marketData : list MarketRecord)
    (gainers losers : nat) :
  Spec.counts (Spec.up_more_than 5) marketData gainers ->
  Spec.counts (Spec.down_below (-5)) marketData losers ->
  (In "Broad market rally" (extractShortTermTrends marketData)
     <-> Spec.more_than_60_percent gainers (length marketData))
  /\ (In "Market-wide correction" (extractShortTermTrends marketData)
     <-> Spec.more_than_60_percent losers (length marketData))
  /\ (In "Market-wide correction" (extractShortTermTrends marketData)
     -> (60 * length marketData <= 100 * losers)%nat).
Proof.
  intros Hg Hl.
  apply (filter_length_counts _ (fun t => JS.opt_gtb (percentChange24h t) 5)) in Hg;
    [|intros t; apply opt_gtb_up].
  apply (filter_length_counts _ (fun t => JS.opt_ltb (percentChange24h t) (-5))) in Hl;
    [|intros t; apply opt_ltb_down].
  unfold extractShortTermTrends. rewrite Hg, Hl.
  rewrite !In_push_if, !threshold_60_percent.
  unfold Spec.more_than_60_percent. cbn [In].
  repeat split; intros H;
    repeat match goal with
           | H : _ \/ _ |- _ => destruct H
           | H : _ /\ _ |- _ => destruct H
           | H : False |- _ => contradiction
           | H : _ = _ :> string |- _ => discriminate H
           end;
    try lia; auto.
Qed.

Lemma rally_and_correction_threshold_witness :
  (In "Broad market rally" (extractShortTermTrends Sample.scenario)
     <-> Spec.more_than_60_percent 1 3)
  /\ (In "Market-wide correction" (extractShortTermTrends Sample.scenario)
     <-> Spec.more_than_60_percent 1 3)
  /\ (In "Market-wide correction" (extractShortTermTrends Sample.scenario)
     -> (60 * 3 <= 100 * 1)%nat).
Proof.
  apply (rally_and_correction_threshold Sample.scenario 1 1).
  - apply Spec.counts_hit; [exists 6%Q; split; reflexivity |].
    apply Spec.counts_miss; [intros (p & E & L); injection E as <-; discriminate L |].
    apply Spec.counts_miss; [intros (p & E & L); injection E as <-; discriminate L |].
    constructor.
  - apply Spec.counts_miss; [intros (p & E & L); injection E as <-; discriminate L |].
    apply Spec.counts_miss; [intros (p & E & L); injection E as <-; discriminate L |].
    apply Spec.counts_hit; [exists (-7)%Q; split; reflexivity |].
    constructor.
Defined.

(** ** Substring search and letter case *)

Lemma append_empty (s : string) : EmptyString +:+ s = s.
Proof. reflexivity. Qed.

Lemma append_String (c : ascii) (a b : string) :
  String c a +:+ b = String c (a +:+ b).
Proof. reflexivity. Qed.

Lemma prefix_empty (s : string) : String.prefix EmptyString s = true.
Proof. destruct s; reflexivity. Qed.

Lemma prefix_spec (term s : string) :
  String.prefix term s = true <-> exists after, s = term +:+ after.
Proof.
  revert s. induction term as [| c term IH]; intros s.
  - rewrite prefix_empty. split; [intros _; exists s; reflexivity | reflexivity].
  - destruct s as [| d s].
    + split; [discriminate | intros (after & E); discriminate E].
    + cbn [String.prefix]. destruct (Ascii.ascii_dec c d) as [-> | Hne].
      * rewrite IH. split; intros (after & E); exists after.
        -- rewrite append_String. now rewrite E.
        -- rewrite append_String in E. now injection E.
      * split; [discriminate |].
        intros (after & E). rewrite append_String in E.
        injection E as E1 _. congruence.
Qed.

Lemma includes_spec (s term : string) :
  includes s term = true <-> exists before after, s = before +:+ term +:+ after.
Proof.
  induction s as [| c s IH].
  - cbn [includes]. rewrite orb_false_r, prefix_spec. split.
    + intros (after & E). exists EmptyString, after. exact E.
    + intros (before & after & E). destruct before as [| b before]; [|discriminate E].
      exists after. exact E.
  - cbn [includes]. rewrite orb_true_iff, prefix_spec, IH. split.
    + intros [(after & E) | (before & after & E)].
      * exists EmptyString, after. exact E.
      * exists (String c before), after. rewrite append_String. now rewrite E.
    + intros (before & after & E). destruct before as [| b before].
      * left. exists after. exact E.
      * right. rewrite append_String in E. injection E as _ E.
        exists before, after. exact E.
Qed.

Lemma toLowerCase_app (a b : string) :
  toLowerCase (a +:+ b) = toLowerCase a +:+ toLowerCase b.
Proof.
  induction a as [| c a IH]; [reflexivity|].
  rewrite append_String. cbn [toLowerCase]. rewrite append_String. now rewrite IH.
Qed.

(** A split of the lowered text comes from a split of the text. *)
Lemma toLowerCase_split (s a b : string) :
  toLowerCase s = a +:+ b ->
  exists s1 s2, s = s1 +:+ s2 /\ toLowerCase s1 = a /\ toLowerCase s2 = b.
Proof.
  revert s. induction a as [| c a IH]; intros s E.
  - exists EmptyString, s. rewrite append_empty in E. auto.
  - destruct s as [| d s]; [discriminate E|].
    rewrite append_String in E. cbn [toLowerCase] in E. injection E as Ec E.
    destruct (IH s E) as (s1 & s2 & -> & <- & <-).
    exists (String d s1), s2. cbn [toLowerCase]. now rewrite Ec.
Qed.

(** The program's test [text.toLowerCase().includes(term)], for a term
    written in lower case, is occurrence with letter case ignored. *)
Lemma includes_ignoring_case (term s : string) :
  toLowerCase term = term ->
  includes (toLowerCase s) term = true <-> Spec.occurs_ignoring_case term s.
Proof.
  intros Hterm. rewrite includes_spec. unfold Spec.occurs_ignoring_case.
  rewrite Hterm. split.
  - intros (before & after & E).
    destruct (toLowerCase_split _ _ _ E) as (s1 & s2 & -> & <- & E2).
    destruct (toLowerCase_split _ _ _ E2) as (s3 & s4 & -> & <- & <-).
    exists s1, s3, s4. auto.
  - intros (before & middle & after & -> & <-).
    exists (toLowerCase before), (toLowerCase after).
    now rewrite !toLowerCase_app.
Qed.

Lemma marketTerms_lower : Forall (fun term => toLowerCase term = term) marketTerms.
Proof. repeat constructor. Qed.

Lemma advancedTerms_lower : Forall (fun term => toLowerCase term = term) advancedTerms.
Proof. repeat constructor. Qed.

Lemma intermediateTerms_lower :
  Forall (fun term => toLowerCase term = term) intermediateTerms.
Proof. repeat constructor. Qed.

(** Some term of a lower-case list occurs in the text. *)
Lemma some_term_included (terms : list string) (s : string) :
  Forall (fun term => toLowerCase term = term) terms ->
  existsb (fun term => includes (toLowerCase s) term) terms = true
  <-> exists term, In term terms /\ Spec.occurs_ignoring_case term s.
Proof.
  intros Hterms. rewrite existsb_exists. rewrite List.Forall_forall in Hterms.
  split; intros (term & Hin & H); exists term; split; try exact Hin.
  - apply includes_ignoring_case; [apply Hterms, Hin | exact H].
  - apply includes_ignoring_case; [apply Hterms, Hin | exact H].
Qed.

Lemma isMarketRelatedQuery_spec (query : string) :
  isMarketRelatedQuery query = true <-> Spec.market_related query.
Proof. apply some_term_included, marketTerms_lower. Qed.

(** ** Suggestions *)

Lemma generateSuggestions_eq (query : string) (response : option string)
    (context : Context) :
  generateSuggestions query response context =
    firstn 3
      ((if isMarketRelatedQuery query then Spec.market_suggestions else [])
       ++ (if walletConnected context then Spec.portfolio_suggestions else [])
       ++ Spec.educational_suggestion (expertiseLevel context)).
Proof.
  unfold generateSuggestions.
  destruct (isMarketRelatedQuery query), (walletConnected context),
    (expertiseLevel context) as [[| |]|]; reflexivity.
Qed.

(** C6.  The suggestions are the market group (for a market-related query),
    then the portfolio group (for a connected wallet), then the educational
    item of the expertise level, cut to the first three.  A market-related
    query from a connected beginner gets exactly the three market
    suggestions: the educational item is cut off.  That the market group is
    absent when no market term occurs is stated for queries of ASCII
    text. *)
Theorem suggestions_cascade_truncated (query : string) (response : option string)
    (context : Context) :
  (exists market portfolio,
      (Spec.market_related query -> market = Spec.market_suggestions)
      /\ (Spec.ascii_text query -> ~ Spec.market_related query -> market = [])
      /\ (walletConnected context = true -> portfolio = Spec.portfolio_suggestions)
      /\ (walletConnected context = false -> portfolio = [])
      /\ generateSuggestions query response context =
           firstn 3 (market ++ portfolio
                     ++ Spec.educational_suggestion (expertiseLevel context)))
  /\ (length (generateSuggestions query response context) <= 3)%nat
  /\ (Spec.market_related query ->
      walletConnected context = true ->
      expertiseLevel context = Some beginner ->
      generateSuggestions query response context = Spec.market_suggestions
      /\ length (generateSuggestions query response context) = 3%nat
      /\ ~ In "Explain blockchain basics" (generateSuggestions query response context)).
Proof.
  rewrite generateSuggestions_eq. split; [|split].
  - exists (if isMarketRelatedQuery query then Spec.market_suggestions else []),
           (if walletConnected context then Spec.portfolio_suggestions else []).
    repeat split.
    + intros H. apply isMarketRelatedQuery_spec in H. now rewrite H.
    + intros _ H. destruct (isMarketRelatedQuery query) eqn:E; [|reflexivity].
      apply isMarketRelatedQuery_spec in E. contradiction.
    + intros ->. reflexivity.
    + intros ->. reflexivity.
  - apply firstn_le_length.
  - intros Hm Hw Hl. apply isMarketRelatedQuery_spec in Hm.
    rewrite Hm, Hw, Hl. cbn. repeat split.
    intros [H | [H | [H | []]]]; discriminate H.
Qed.

Lemma suggestions_cascade_truncated_witness :
  generateSuggestions "What is the PRICE of SOL?" None
    (Sample.plain_context true (Some beginner)) = Spec.market_suggestions.
Proof.
  apply (suggestions_cascade_truncated "What is the PRICE of SOL?" None
           (Sample.plain_context true (Some beginner))).
  - exists "price". split; [left; reflexivity|].
    exists "What is the ", "PRICE", " of SOL?". split; reflexivity.
  - reflexivity.
  - reflexivity.
Defined.

(** The list attached to a reply of the query processor is the one
    [generateSuggestions] builds. *)
Lemma enhanceResponse_suggestions `{Externals} (aiResponse : Completion)
    (query : string) (context : EnrichedContext) (w w1 : World) (r : Grok.Response) :
  enhanceResponse aiResponse query context w = (Returned r, w1) ->
  Grok.suggestions r = generateSuggestions query (Grok.message r) (base context).
Proof.
  unfold enhanceResponse. destruct (choices aiResponse) as [| text rest].
  - discriminate.
  - unfold bind. destruct (isMarketRelatedQuery query).
    + destruct (getMarketAnalysis w) as [[a | e] w'].
      * unfold ret. intros [= <- _]. reflexivity.
      * discriminate.
    + unfold ret. intros [= <- _]. reflexivity.
Qed.

(** ** Expertise inference *)

Lemma user_terms_mentioned (terms : list string) (messages : list AIMessage) :
  Forall (fun term => toLowerCase term = term) terms ->
  existsb (fun msg => existsb (fun term => includes msg term) terms)
    (map (fun m => toLowerCase (content m))
         (List.filter (fun m => String.eqb (role m) "user") messages)) = true
  <-> Spec.user_mentions terms messages.
Proof.
  intros Hterms. rewrite existsb_exists. unfold Spec.user_mentions. split.
  - intros (msg & Hin & H). apply in_map_iff in Hin as (m & <- & Hm).
    apply filter_In in Hm as (Hm & Hrole). apply String.eqb_eq in Hrole.
    apply (some_term_included terms (content m) Hterms) in H as (term & Ht & Hocc).
    exists m, term. auto.
  - intros (m & term & Hm & Hrole & Ht & Hocc).
    exists (toLowerCase (content m)). split.
    + apply in_map_iff. exists m. split; [reflexivity|].
      apply filter_In. split; [exact Hm | now apply String.eqb_eq].
    + apply (some_term_included terms (content m) Hterms). exists term. auto.
Qed.

(** C7.  For a history whose user utterances are ASCII text, the level is
    advanced exactly when some user utterance of the history contains an
    advanced term, letter case ignored; otherwise intermediate exactly when
    some user utterance contains an intermediate term; otherwise
    beginner. *)
Theorem expertise_by_term_lists (messages : list AIMessage) :
  Spec.ascii_history messages ->
  (determineUserExpertise messages = advanced
     <-> Spec.user_mentions advancedTerms messages)
  /\ (determineUserExpertise messages = intermediate
     <-> ~ Spec.user_mentions advancedTerms messages
         /\ Spec.user_mentions intermediateTerms messages)
  /\ (determineUserExpertise messages = beginner
     <-> ~ Spec.user_mentions advancedTerms messages
         /\ ~ Spec.user_mentions intermediateTerms messages).
Proof.
  intros _.
  pose proof (user_terms_mentioned advancedTerms messages advancedTerms_lower) as Ha.
  pose proof (user_terms_mentioned intermediateTerms messages intermediateTerms_lower) as Hi.
  unfold determineUserExpertise.
  destruct (existsb _ (map _ (List.filter _ messages))) eqn:Ea in Ha |- *;
    destruct (existsb _ (map _ (List.filter _ messages))) eqn:Ei in Hi |- *.
  all: repeat split; try discriminate; try tauto.
  all: try (intros [Hn _]; exfalso; tauto).
  all: try (intros [_ Hn]; exfalso; tauto).
  all: intuition discriminate.
Qed.

Lemma expertise_by_term_lists_witness :
  determineUserExpertise
    [ {| role := "assistant"; content := "Try staking." |};
      {| role := "user"; content := "How does Yield Farming work?" |} ] = advanced.
Proof.
  apply (expertise_by_term_lists
           [ {| role := "assistant"; content := "Try staking." |};
             {| role := "user"; content := "How does Yield Farming work?" |} ]).
  { repeat (apply List.Forall_cons; [intros _; reflexivity|]). apply List.Forall_nil. }
  exists {| role := "user"; content := "How does Yield Farming work?" |}, "yield farming".
  split; [right; left; reflexivity|]. split; [reflexivity|].
  split; [right; right; right; left; reflexivity|].
  exists "How does ", "Yield Farming", " work?". split; reflexivity.
Defined.

(** ** Market-analysis cache *)

(** Unfold the monad's combinators and compute, leaving the scoring
    functions folded. *)
Ltac step_monad :=
  unfold try_catch, bind, settle, external, await, ret, throw, get_service,
    date_now, set_cachedAnalysis, set_lastUpdate in *;
  cbn -[generateMarketOverview calculateDominanceIndex analyzeTrends
        generateTechnicalSignals generateSuggestions isMarketRelatedQuery
        Z.ltb Z.sub Z.mul] in *.

Section Cache.

Context `{Externals}.

(** A recomputation leaves the cache alone and makes one fetch round. *)
Lemma generateMarketAnalysis_effect (w w1 : World) (r : outcome MarketAnalysis) :
  generateMarketAnalysis w = (r, w1) ->
  service w1 = service w /\ calls w1 = calls w ++ Spec.fetch_round.
Proof.
  unfold generateMarketAnalysis, getOnChainMetrics. step_monad.
  destruct (getMarketData analysis_symbols (ext w)) as [r1 x1]. step_monad.
  destruct (getMarketSentiment x1) as [r2 x2]. step_monad.
  destruct r1 as [data | e1]; step_monad.
  - destruct r2 as [snapshot | e2]; step_monad.
    + destruct (generateMarketOverview number_toString data snapshot)
        as [sorted [text | e3]];
        step_monad; intros [= <- <-]; cbn; rewrite <- app_assoc; auto.
    + intros [= <- <-]. cbn. rewrite <- app_assoc. auto.
  - intros [= <- <-]. cbn. rewrite <- app_assoc. auto.
Qed.

Lemma provider_failure_fails_recomputation (w : World) (e : exn) :
  Spec.provider_fails w e -> exists w1, generateMarketAnalysis w = (Thrown e, w1).
Proof.
  unfold generateMarketAnalysis, getOnChainMetrics. step_monad.
  intros [(x & E1) | (data & x1 & x2 & E1 & E2)].
  - rewrite E1. step_monad. destruct (getMarketSentiment x) as [r2 x2]. step_monad.
    eexists. reflexivity.
  - rewrite E1. step_monad. rewrite E2. step_monad. eexists. reflexivity.
Qed.

Lemma shouldRefreshCache_fresh (w : World) (a : MarketAnalysis) :
  Spec.fresh (service w) (clock (ext w)) a ->
  shouldRefreshCache w = (Returned false, w).
Proof.
  intros (Ha & updated & Hu & Hage).
  unfold shouldRefreshCache, bind, get_service, date_now, ret. cbn.
  rewrite Hu, Ha. cbn. f_equal. f_equal.
  apply Z.ltb_ge. unfold CACHE_DURATION. lia.
Qed.

Lemma shouldRefreshCache_stale (w : World) :
  Spec.stale (service w) (clock (ext w)) ->
  shouldRefreshCache w = (Returned true, w).
Proof.
  unfold shouldRefreshCache, bind, get_service, date_now, ret. cbn.
  intros [Ha | [Hu | (updated & Hu & Hage)]].
  - rewrite Ha. destruct (lastUpdate (service w)); reflexivity.
  - rewrite Hu. reflexivity.
  - rewrite Hu. destruct (cachedAnalysis (service w)); [|reflexivity].
    cbn. f_equal. f_equal. apply Z.ltb_lt. unfold CACHE_DURATION. lia.
Qed.

(** A cache state is fresh or stale, never both. *)
Lemma fresh_or_stale (svc : Service) (now : Z) :
  (exists a, Spec.fresh svc now a) \/ Spec.stale svc now.
Proof.
  unfold Spec.fresh, Spec.stale.
  destruct (cachedAnalysis svc) as [a|]; [|right; left; reflexivity].
  destruct (lastUpdate svc) as [updated|]; [|right; right; left; reflexivity].
  destruct (Z_le_gt_dec (now - updated) (5 * 60 * 1000)).
  - left. exists a. split; [reflexivity|]. exists updated. split; [reflexivity | lia].
  - right. right. right. exists updated. split; [reflexivity | lia].
Qed.

Lemma getMarketAnalysis_fresh (w : World) (a : MarketAnalysis) :
  Spec.fresh (service w) (clock (ext w)) a ->
  getMarketAnalysis w = (Returned (Some a), w).
Proof.
  intros Hf. unfold getMarketAnalysis, bind.
  rewrite (shouldRefreshCache_fresh w a Hf). cbn.
  destruct Hf as (Ha & _). now rewrite Ha.
Qed.

Lemma getMarketAnalysis_stale (w w1 : World) (r : outcome MarketAnalysis) :
  Spec.stale (service w) (clock (ext w)) ->
  generateMarketAnalysis w = (r, w1) ->
  getMarketAnalysis w =
    match r with
    | Returned a =>
        (Returned (Some a),
         {| ext := ext w1;
            service := {| lastUpdate := Some (clock (ext w1)); cachedAnalysis := Some a |};
            calls := calls w1 |})
    | Thrown e => (Thrown e, w1)
    end.
Proof.
  intros Hs Hg. unfold getMarketAnalysis, bind.
  rewrite (shouldRefreshCache_stale w Hs). cbn. unfold bind. rewrite Hg.
  destruct r; reflexivity.
Qed.

End Cache.

(** C1.  A call that finds a snapshot at most five minutes old returns it,
    and the world, cache and call record are as before: nothing is fetched.
    A call that finds no snapshot, or one older than five minutes, makes one
    recomputation with one fetch round and, when that succeeds, stores the
    new snapshot together with the time of its completion and returns it.
    A second call right after a call that returned gives the same snapshot
    and fetches nothing, so the two calls make at most one fetch round. *)
Theorem cache_hit_or_single_refresh `{Externals} (w : World) :
  (forall a,
      Spec.fresh (service w) (clock (ext w)) a ->
      getMarketAnalysis w = (Returned (Some a), w))
  /\ (Spec.stale (service w) (clock (ext w)) ->
      exists r w1,
        generateMarketAnalysis w = (r, w1)
        /\ calls w1 = calls w ++ Spec.fetch_round
        /\ forall a,
             r = Returned a ->
             getMarketAnalysis w =
               (Returned (Some a),
                {| ext := ext w1;
                   service := {| lastUpdate := Some (clock (ext w1));
                                 cachedAnalysis := Some a |};
                   calls := calls w1 |}))
  /\ (forall result w1,
      getMarketAnalysis w = (Returned result, w1) ->
      (exists a, result = Some a)
      /\ getMarketAnalysis w1 = (Returned result, w1)
      /\ (calls w1 = calls w \/ calls w1 = calls w ++ Spec.fetch_round)).
Proof.
  split; [|split].
  - intros a Hf. apply getMarketAnalysis_fresh, Hf.
  - intros Hs. destruct (generateMarketAnalysis w) as [r w1] eqn:Hg.
    exists r, w1. split; [reflexivity|].
    split; [apply (generateMarketAnalysis_effect w w1 r Hg)|].
    intros a ->. apply (getMarketAnalysis_stale w w1 _ Hs Hg).
  - intros result w1 Hcall.
    destruct (fresh_or_stale (service w) (clock (ext w))) as [(a & Hf) | Hs].
    + rewrite (getMarketAnalysis_fresh w a Hf) in Hcall.
      injection Hcall as <- <-.
      split; [exists a; reflexivity|].
      split; [apply getMarketAnalysis_fresh, Hf | left; reflexivity].
    + destruct (generateMarketAnalysis w) as [r w'] eqn:Hg.
      rewrite (getMarketAnalysis_stale w w' r Hs Hg) in Hcall.
      destruct r as [a | e]; [|discriminate Hcall].
      injection Hcall as <- <-.
      split; [exists a; reflexivity|].
      split.
      * apply getMarketAnalysis_fresh. split; [reflexivity|].
        exists (clock (ext w')). cbn. split; [reflexivity | lia].
      * right. apply (generateMarketAnalysis_effect w w' _ Hg).
Qed.

Lemma cache_hit_or_single_refresh_witness :
  exists r w1,
    generateMarketAnalysis (Sample.start [Returned Sample.scenario] false) = (r, w1)
    /\ calls w1 = Spec.fetch_round
    /\ forall a,
         r = Returned a ->
         getMarketAnalysis (Sample.start [Returned Sample.scenario] false) =
           (Returned (Some a),
            {| ext := ext w1;
               service := {| lastUpdate := Some 1200; cachedAnalysis := Some a |};
               calls := calls w1 |}).
Proof.
  destruct (cache_hit_or_single_refresh (Sample.start [Returned Sample.scenario] false))
    as (_ & Hstale & _).
  destruct Hstale as (r & w1 & Hg & Hc & Hret).
  - left. reflexivity.
  - exists r, w1. split; [exact Hg|]. split; [exact Hc|].
    intros a Hr. rewrite (Hret a Hr). subst r.
    unfold generateMarketAnalysis in Hg. step_monad.
    injection Hg as _ <-. reflexivity.
Defined.

(** C2.  When the cache is stale and a provider fetch of the recomputation
    throws, the recomputation throws that error; and whenever the
    recomputation throws, the call throws the same error after a single
    fetch round, with the cached snapshot and its timestamp as they were, so
    that the next call, at any later time, recomputes again. *)
Theorem refresh_failure_propagates `{Externals} (w : World) (e : exn) :
  Spec.stale (service w) (clock (ext w)) ->
  (Spec.provider_fails w e -> exists w1, generateMarketAnalysis w = (Thrown e, w1))
  /\ (forall w1,
      generateMarketAnalysis w = (Thrown e, w1) ->
      getMarketAnalysis w = (Thrown e, w1)
      /\ service w1 = service w
      /\ calls w1 = calls w ++ Spec.fetch_round
      /\ forall later,
           clock (ext w) <= later -> Spec.stale (service w1) later).
Proof.
  intros Hs. split; [apply provider_failure_fails_recomputation|].
  intros w1 Hg.
  destruct (generateMarketAnalysis_effect w w1 _ Hg) as (Hsvc & Hcalls).
  split; [apply (getMarketAnalysis_stale w w1 _ Hs Hg)|].
  split; [exact Hsvc|]. split; [exact Hcalls|].
  intros later Hlater. rewrite Hsvc.
  destruct Hs as [Ha | [Hu | (updated & Hu & Hage)]].
  - left. exact Ha.
  - right. left. exact Hu.
  - right. right. exists updated. split; [exact Hu | lia].
Qed.

Lemma refresh_failure_propagates_witness :
  exists w1,
    getMarketAnalysis (Sample.start [Thrown (ExternalError "timeout")] false)
      = (Thrown (ExternalError "timeout"), w1)
    /\ service w1 = initial_service
    /\ calls w1 = Spec.fetch_round.
Proof.
  destruct (refresh_failure_propagates
              (Sample.start [Thrown (ExternalError "timeout")] false)
              (ExternalError "timeout")) as (Hfail & Hprop).
  - left. reflexivity.
  - destruct Hfail as (w1 & Hg).
    + left. eexists. reflexivity.
    + exists w1. destruct (Hprop w1 Hg) as (Hcall & Hsvc & Hcalls & _).
      split; [exact Hcall|]. split; [exact Hsvc | exact Hcalls].
Defined.

(** ** Reading one symbol's signal *)

Lemma analyzePriceTrend_eq `{Externals} (token : string) (w w1 : World)
    (a : MarketAnalysis) :
  getMarketAnalysis w = (Returned (Some a), w1) ->
  analyzePriceTrend token w =
    (Returned (or_null (signals_get (technicalSignals a) token)), w1).
Proof. intros Hcall. unfold analyzePriceTrend, bind. now rewrite Hcall. Qed.

(** A symbol of the mapping yields its signal. *)
Lemma analyzePriceTrend_known `{Externals} (token : string) (w w1 : World)
    (a : MarketAnalysis) (s : TechnicalSignal) :
  getMarketAnalysis w = (Returned (Some a), w1) ->
  Obj.own (technicalSignals a) !! token = Some s ->
  analyzePriceTrend token w = (Returned (VSignal s), w1).
Proof.
  intros Hcall Hown. rewrite (analyzePriceTrend_eq token w w1 a Hcall).
  unfold signals_get. now rewrite Hown.
Qed.

(** A symbol outside the mapping yields [null], unless it names a member
    that plain objects inherit. *)
Lemma analyzePriceTrend_unknown `{Externals} (token : string) (w w1 : World)
    (a : MarketAnalysis) :
  getMarketAnalysis w = (Returned (Some a), w1) ->
  Obj.own (technicalSignals a) !! token = None ->
  Obj.proto (technicalSignals a) = None ->
  Obj.inherited token = false ->
  token <> Obj.proto_key ->
  analyzePriceTrend token w = (Returned VNull, w1).
Proof.
  intros Hcall Hown Hproto Hinh Hkey.
  rewrite (analyzePriceTrend_eq token w w1 a Hcall).
  unfold signals_get, object_prototype_get. rewrite Hown, Hproto, Hinh.
  apply String.eqb_neq in Hkey. now rewrite Hkey.
Qed.

(** The name of an inherited member yields that member, not [null]. *)
Lemma analyzePriceTrend_inherited `{Externals} (token : string) (w w1 : World)
    (a : MarketAnalysis) :
  getMarketAnalysis w = (Returned (Some a), w1) ->
  Obj.own (technicalSignals a) !! token = None ->
  Obj.inherited token = true ->
  analyzePriceTrend token w = (Returned (VBuiltin token), w1).
Proof.
  intros Hcall Hown Hinh.
  rewrite (analyzePriceTrend_eq token w w1 a Hcall).
  assert (Hnames : String.eqb token Obj.proto_key = false
                   /\ String.eqb token "sentiment" = false
                   /\ String.eqb token "indicators" = false).
  { unfold Obj.inherited in Hinh. apply existsb_exists in Hinh as (name & Hin & Heq).
    apply String.eqb_eq in Heq. subst name.
    cbn in Hin. repeat (destruct Hin as [<- | Hin]; [repeat split; reflexivity|]).
    contradiction. }
  destruct Hnames as (Hk & Hs & Hi).
  unfold signals_get, signal_get, object_prototype_get.
  rewrite Hown, Hk, Hinh.
  destruct (Obj.proto (technicalSignals a)); [rewrite Hs, Hi|]; reflexivity.
Qed.

(** C9 (divergence).  After the scenario batch has been analysed, the
    mapping has a signal for "SOL" and no key "constructor"; yet
    [analyzePriceTrend "constructor"] returns the inherited constructor
    member instead of [null]. *)
Theorem analyzePriceTrend_constructor_not_null :
  (exists a,
      fst (getMarketAnalysis (Sample.start [Returned Sample.scenario] false))
        = Returned (Some a)
      /\ Obj.own (technicalSignals a) !! "constructor" = None
      /\ Obj.own (technicalSignals a) !! "SOL" <> None)
  /\ fst (analyzePriceTrend "constructor" (Sample.start [Returned Sample.scenario] false))
     = Returned (VBuiltin "constructor")
  /\ fst (analyzePriceTrend "DOGE" (Sample.start [Returned Sample.scenario] false))
     = Returned VNull.
Proof.
  split; [|split].
  - eexists. split; [vm_compute; reflexivity|].
    split; [vm_compute; reflexivity | vm_compute; discriminate].
  - vm_compute. reflexivity.
  - vm_compute. reflexivity.
Qed.

(** ** Orchestration entry point *)

(** The query processor catches everything it throws. *)
Lemma processQuery_returns `{Externals} (query : string) (context : Context)
    (w : World) :
  exists r w1, processQuery query context w = (Returned r, w1).
Proof.
  unfold processQuery, try_catch.
  match goal with
  | |- context [match ?body with _ => _ end] => destruct body as [[r | e] w1]
  end.
  - exists r, w1. reflexivity.
  - exists grok_fallback, w1. reflexivity.
Qed.

(** C10.  The entry point returns on every prompt, context and world; when
    its [try] block throws, the reply is the fixed fallback, whose message
    starts "I encountered an unexpected issue" and whose suggestions are the
    three static ones; when the block returns, its reply is passed on. *)
Theorem generateEnhancedResponse_total `{Externals} (prompt : string)
    (context : Context) (w : World) :
  (exists reply w1,
      generateEnhancedResponse prompt context w = (Returned reply, w1))
  /\ (forall e w1,
      generateEnhancedResponse_try prompt context w = (Thrown e, w1) ->
      generateEnhancedResponse prompt context w = (Returned integration_fallback, w1))
  /\ (forall reply w1,
      generateEnhancedResponse_try prompt context w = (Returned reply, w1) ->
      generateEnhancedResponse prompt context w = (Returned reply, w1))
  /\ (exists rest,
      Reply.message integration_fallback
        = Some ("I encountered an unexpected issue" +:+ rest))
  /\ Reply.suggestions integration_fallback
     = Some ["Check market trends"; "View wallet balance"; "Learn about DeFi"].
Proof.
  unfold generateEnhancedResponse, try_catch.
  destruct (generateEnhancedResponse_try prompt context w) as [[reply | e] w1].
  - split; [exists reply, w1; reflexivity|].
    split; [intros e w2 [=]|]. split; [intros r w2 [= <- <-]; reflexivity|].
    split; [eexists; reflexivity | reflexivity].
  - split; [exists integration_fallback, w1; reflexivity|].
    split; [intros e' w2 [= <- <-]; reflexivity|]. split; [intros r w2 [=]|].
    split; [eexists; reflexivity | reflexivity].
Qed.

Lemma generateEnhancedResponse_total_witness :
  exists w1,
    generateEnhancedResponse "hello" (Sample.plain_context false None)
      (Sample.start [Returned Sample.scenario] true)
    = (Returned integration_fallback, w1).
Proof.
  destruct (generateEnhancedResponse_total "hello" (Sample.plain_context false None)
              (Sample.start [Returned Sample.scenario] true)) as (_ & Hthrow & _).
  eexists. eapply Hthrow. vm_compute. reflexivity.
Defined.

(** ** Dominance index *)

Lemma fold_left_Qplus (g : MarketRecord -> Q) (l : list MarketRecord) (a : Q) :
  fold_left (fun sum token => (sum + g token)%Q) l a == (a + Spec.Qsum (map g l))%Q.
Proof.
  revert a. induction l as [| t l IH]; intros a; cbn [fold_left map].
  - unfold Spec.Qsum. cbn [fold_right]. ring.
  - rewrite IH. unfold Spec.Qsum. cbn [fold_right]. ring.
Qed.

Lemma Qsum_Permutation (l l' : list Q) :
  Permutation l l' -> Spec.Qsum l == Spec.Qsum l'.
Proof.
  unfold Spec.Qsum.
  induction 1 as [| x l l' _ IH | x y l | l l' l'' _ IH1 _ IH2]; cbn [fold_right].
  - reflexivity.
  - now rewrite IH.
  - ring.
  - now rewrite IH1.
Qed.

Lemma or_default_cap (t : MarketRecord) :
  Spec.has_market_cap t -> JS.or_default (marketCap t) 0 = Spec.cap t.
Proof.
  intros (c & Hc & Hpos). unfold Spec.cap, JS.or_default. rewrite Hc.
  destruct (JS.is_zero c) eqn:E; [|reflexivity].
  apply is_zero_true in E. lra.
Qed.

Lemma cap_positive (t : MarketRecord) :
  Spec.has_market_cap t -> (0 < Spec.cap t)%Q.
Proof. intros (c & Hc & Hpos). unfold Spec.cap. now rewrite Hc. Qed.

Lemma marketCap_total_batch (marketData : list MarketRecord) :
  Forall Spec.has_market_cap marketData ->
  marketCap_total marketData == Spec.batch_total marketData.
Proof.
  intros Hall. unfold marketCap_total, Spec.batch_total.
  rewrite fold_left_Qplus.
  rewrite (map_ext_in _ Spec.cap).
  - ring.
  - intros t Hin. apply or_default_cap.
    rewrite List.Forall_forall in Hall. apply Hall, Hin.
Qed.

Lemma batch_total_nonneg (marketData : list MarketRecord) :
  Forall Spec.has_market_cap marketData -> (0 <= Spec.batch_total marketData)%Q.
Proof.
  unfold Spec.batch_total, Spec.Qsum.
  induction 1 as [| t l Ht _ IH]; cbn [map fold_right]; [lra|].
  apply cap_positive in Ht. lra.
Qed.

Lemma batch_total_positive (marketData : list MarketRecord) :
  marketData <> [] ->
  Forall Spec.has_market_cap marketData -> (0 < Spec.batch_total marketData)%Q.
Proof.
  intros Hne Hall. destruct Hall as [| t l Ht Hl]; [contradiction|].
  apply cap_positive in Ht. apply batch_total_nonneg in Hl.
  unfold Spec.batch_total, Spec.Qsum in *. cbn [map fold_right]. lra.
Qed.

Lemma cap_le_batch_total (marketData : list MarketRecord) (t : MarketRecord) :
  Forall Spec.has_market_cap marketData ->
  In t marketData -> (Spec.cap t <= Spec.batch_total marketData)%Q.
Proof.
  intros Hall. induction Hall as [| t' l Ht Hl IH]; intros Hin; [contradiction|].
  pose proof (batch_total_nonneg l Hl) as Hnn.
  apply cap_positive in Ht.
  unfold Spec.batch_total, Spec.Qsum in *. cbn [map fold_right].
  destruct Hin as [-> | Hin]; [lra|].
  specialize (IH Hin). lra.
Qed.

(** Two decimals: the stored value is a whole number of hundredths within
    half a hundredth of the exact share. *)
Lemma share_percent_rounded (total c : Q) :
  (0 < c)%Q -> (c <= total)%Q ->
  exists k : Z,
    share_percent total c = JS.Fin (k # 100)
    /\ (Qabs ((k # 100) - Spec.exact_share total c) <= 1 # 200)%Q.
Proof.
  intros Hc Hle.
  assert (Htot : (0 < total)%Q) by lra.
  assert (Hq0 : (0 < c / total)%Q) by (apply Qlt_shift_div_l; lra).
  assert (Hq1 : (c / total <= 1)%Q) by (apply Qle_shift_div_r; lra).
  unfold share_percent, JS.div.
  destruct (JS.is_zero total) eqn:Z0; [apply is_zero_true in Z0; lra|].
  cbn [JS.scale toFixed2_number]. fold (Spec.exact_share total c).
  set (q := Spec.exact_share total c).
  assert (Hq : (0 <= q <= 100)%Q) by (unfold q, Spec.exact_share; lra).
  assert (Hbig : (100 < 10 ^ 21)%Q) by reflexivity.
  unfold JS.abs, hundredths.
  destruct (ltb_spec q 0) as [Neg | _]; [lra|].
  destruct (ltb_spec q (10 ^ 21)) as [_ | Big]; [|lra].
  exists (Qfloor (q * 100 + (1 # 2))). split; [reflexivity|].
  pose proof (Qfloor_le (q * 100 + (1 # 2))) as Hlo.
  pose proof (Qlt_floor (q * 100 + (1 # 2))) as Hhi.
  rewrite inject_Z_plus in Hhi. change (inject_Z 1) with 1%Q in Hhi.
  set (k := Qfloor (q * 100 + (1 # 2))) in *.
  rewrite (Qmake_Qdiv k 100). change (inject_Z (Z.pos 100)) with 100%Q.
  apply Qabs_Qle_condition.
  assert (E : (inject_Z k / 100 == inject_Z k * (1 # 100))%Q) by (field).
  rewrite E. split; lra.
Qed.

Lemma dominance_entry_insert (total : Q) (d : gmap string JS.num)
    (t : MarketRecord) :
  Spec.has_market_cap t ->
  symbol t <> Obj.proto_key ->
  dominance_entry total d t = <[symbol t := share_percent total (Spec.cap t)]> d.
Proof.
  intros (c & Hc & Hpos) Hkey. unfold dominance_entry, Spec.cap. rewrite Hc.
  unfold JS.truthy. destruct (JS.is_zero c) eqn:E; [apply is_zero_true in E; lra|].
  cbn [negb]. unfold Obj.set_number.
  apply String.eqb_neq in Hkey. now rewrite Hkey.
Qed.

Lemma dominance_entry_skip (total : Q) (d : gmap string JS.num) (t : MarketRecord) :
  JS.truthy (marketCap t) = false -> dominance_entry total d t = d.
Proof.
  intros Hf. unfold dominance_entry.
  destruct (marketCap t) as [c|]; [|reflexivity]. now rewrite Hf.
Qed.

(** An entry touches no key but its own symbol. *)
Lemma dominance_entry_other (total : Q) (d : gmap string JS.num)
    (t : MarketRecord) (k : string) :
  symbol t <> k -> dominance_entry total d t !! k = d !! k.
Proof.
  intros Hne. unfold dominance_entry.
  destruct (marketCap t) as [c|]; [|reflexivity].
  destruct (JS.truthy (Some c)); [|reflexivity].
  unfold Obj.set_number. destruct (String.eqb (symbol t) Obj.proto_key); [reflexivity|].
  now apply lookup_insert_ne.
Qed.

Lemma dominance_fold_untouched (total : Q) (l : list MarketRecord)
    (d : gmap string JS.num) (k : string) :
  (forall t, In t l -> symbol t = k -> JS.truthy (marketCap t) = false) ->
  fold_left (dominance_entry total) l d !! k = d !! k.
Proof.
  revert d. induction l as [| t l IH]; intros d Hskip; [reflexivity|].
  cbn [fold_left]. rewrite IH.
  - destruct (String.eqb_spec (symbol t) k) as [E | Hne].
    + rewrite dominance_entry_skip; [reflexivity|]. apply Hskip; [now left | exact E].
    + now apply dominance_entry_other.
  - intros t' Hin. apply Hskip. now right.
Qed.

Lemma Qsum_close (f g : MarketRecord -> Q) (l : list MarketRecord) (eps : Q) :
  (forall t, In t l -> (Qabs (f t - g t) <= eps)%Q) ->
  (Qabs (Spec.Qsum (map f l) - Spec.Qsum (map g l))
     <= inject_Z (Z.of_nat (length l)) * eps)%Q.
Proof.
  unfold Spec.Qsum. induction l as [| t l IH]; intros Hclose.
  - cbn [map fold_right length]. change (inject_Z (Z.of_nat 0)) with 0%Q.
    apply Qabs_Qle_condition. split; lra.
  - cbn [map fold_right length].
    rewrite Nat2Z.inj_succ, <- Z.add_1_r, inject_Z_plus.
    change (inject_Z 1) with 1%Q.
    assert (Ht := Hclose t (or_introl eq_refl)).
    assert (Hl := IH (fun t' Hin => Hclose t' (or_intror Hin))).
    apply Qabs_Qle_condition in Ht. apply Qabs_Qle_condition in Hl.
    apply Qabs_Qle_condition. split; lra.
Qed.

Lemma Qsum_exact_shares (total : Q) (l : list MarketRecord) :
  ~ total == 0 ->
  Spec.Qsum (map (fun t => Spec.exact_share total (Spec.cap t)) l)
  == (Spec.batch_total l / total * 100)%Q.
Proof.
  intros Hnz. unfold Spec.batch_total, Spec.Qsum, Spec.exact_share.
  induction l as [| t l IH]; cbn [map fold_right].
  - field. exact Hnz.
  - rewrite IH. field. exact Hnz.
Qed.

(** *** The running total of positive market caps, in doubles *)

Lemma total_from_infinity (l : list MarketRecord) :
  fold_left Double.cap_step l JS.PInf = JS.PInf.
Proof. induction l as [| t l IH]; [reflexivity | exact IH]. Qed.

Lemma cap_step_finite (a : Q) (t : MarketRecord) :
  (0 <= a)%Q -> Spec.has_market_cap t ->
  Double.cap_step (JS.Fin a) t = JS.PInf
  \/ Double.cap_step (JS.Fin a) t = JS.Fin (Double.binary64 (a + Spec.cap t)).
Proof.
  intros Ha Ht. unfold Double.cap_step. rewrite (or_default_cap t Ht).
  pose proof (cap_positive t Ht) as Hc. cbn [Double.add].
  destruct (fl_cases (a + Spec.cap t)) as [[-> _] | [[_ H] | [-> _]]]; [now left | | now right].
  exfalso.
  pose proof (binary64_le 0 (a + Spec.cap t) ltac:(lra)) as H0.
  assert (E0 : (Double.binary64 0 == 0)%Q) by reflexivity.
  assert (P : (0 < inject_Z (2 ^ 1024))%Q) by (apply pow2_positive; lia).
  lra.
Qed.

Lemma cap_of_representable (t : MarketRecord) :
  Spec.has_market_cap t -> Double.cap_representable t -> Double.representable (Spec.cap t).
Proof. intros (c & Hc & _) Hr. unfold Spec.cap. rewrite Hc. now apply Hr. Qed.

(** The total is at least the sum on entry and at least every cap. *)
Lemma total_dominates (l : list MarketRecord) (a T : Q) :
  Forall Spec.has_market_cap l -> Forall Double.cap_representable l ->
  Double.representable a -> (0 <= a)%Q ->
  fold_left Double.cap_step l (JS.Fin a) = JS.Fin T ->
  Double.representable T /\ (a <= T)%Q
  /\ (forall t, In t l -> (Spec.cap t <= T)%Q).
Proof.
  revert a. induction l as [| t l IH]; intros a Hcap Hrep Ha Hpos Hfold.
  - cbn [fold_left] in Hfold. injection Hfold as <-.
    split; [exact Ha|]. split; [apply Qle_refl | intros t []].
  - apply List.Forall_cons_iff in Hcap as (Ht & Hcap).
    apply List.Forall_cons_iff in Hrep as (Hr & Hrep).
    cbn [fold_left] in Hfold.
    destruct (cap_step_finite a t Hpos Ht) as [E | E]; rewrite E in Hfold.
    + rewrite total_from_infinity in Hfold. discriminate Hfold.
    + pose proof (cap_positive t Ht) as Hc.
      pose proof (cap_of_representable t Ht Hr) as Hrc.
      set (a' := Double.binary64 (a + Spec.cap t)) in *.
      assert (Ha' : (a <= a')%Q).
      { unfold Double.representable in Ha. rewrite <- Ha at 1. apply binary64_le. lra. }
      assert (Hc' : (Spec.cap t <= a')%Q).
      { unfold Double.representable in Hrc. rewrite <- Hrc at 1. apply binary64_le. lra. }
      destruct (IH a' Hcap Hrep (binary64_representable _) ltac:(lra) Hfold)
        as (HT & HaT & Hall).
      split; [exact HT|]. split; [lra|].
      intros t' [<- | Hin]; [lra | now apply Hall].
Qed.

Lemma grid_sum_error (a c : Q) :
  Double.representable a -> Double.representable c -> (0 <= a)%Q -> (0 <= c)%Q ->
  (Qabs (Double.binary64 (a + c) - (a + c)) <= (a + c) * Double.unit_roundoff)%Q.
Proof.
  intros Ha Hc Pa Pc. apply binary64_error_grid; [lra|].
  apply on_grid_plus; now apply representable_on_grid.
Qed.

(** One addition keeps the relative error of the running total within one
    more unit on the low side and two more on the high side. *)
Lemma total_error_step (a A c a' kq : Q) :
  let u := Double.unit_roundoff in
  (0 <= A)%Q -> (0 < c)%Q -> (0 <= kq)%Q -> (2 * (kq + 1) * u <= 1)%Q ->
  ((1 - kq * u) * A <= a)%Q -> (a <= (1 + 2 * kq * u) * A)%Q ->
  (Qabs (a' - (a + c)) <= (a + c) * u)%Q ->
  ((1 - (kq + 1) * u) * (A + c) <= a')%Q /\ (a' <= (1 + 2 * (kq + 1) * u) * (A + c))%Q.
Proof.
  intros u HA Hc Hk Hsmall Hlo Hhi Herr.
  assert (Hu : (0 < u)%Q) by reflexivity.
  apply Qabs_Qle_condition in Herr as (He1 & He2).
  split.
  - (* a' >= (1-u)(a+c) >= (1-u)((1-ku)A + c) >= (1-(k+1)u)(A+c) *)
    assert (H1 : ((1 - u) * (a + c) <= a')%Q) by lra.
    assert (H2 : ((1 - u) * ((1 - kq * u) * A + c) <= (1 - u) * (a + c))%Q).
    { apply Qmult_le_l; [unfold u, Double.unit_roundoff; reflexivity | lra]. }
    assert (H3 : ((1 - (kq + 1) * u) * (A + c)
                  <= (1 - u) * ((1 - kq * u) * A + c))%Q).
    { assert (E : ((1 - u) * ((1 - kq * u) * A + c) - (1 - (kq + 1) * u) * (A + c)
                   == kq * u * u * A + kq * u * c)%Q) by ring.
      assert (0 <= kq * u * u * A)%Q by (repeat apply Qmult_le_0_compat; lra).
      assert (0 <= kq * u * c)%Q by (repeat apply Qmult_le_0_compat; lra).
      lra. }
    lra.
  - assert (H1 : (a' <= (1 + u) * (a + c))%Q) by lra.
    assert (H2 : ((1 + u) * (a + c) <= (1 + u) * ((1 + 2 * kq * u) * A + c))%Q).
    { apply Qmult_le_l; lra. }
    assert (H3 : ((1 + u) * ((1 + 2 * kq * u) * A + c)
                  <= (1 + 2 * (kq + 1) * u) * (A + c))%Q).
    { assert (E : ((1 + 2 * (kq + 1) * u) * (A + c) - (1 + u) * ((1 + 2 * kq * u) * A + c)
                   == u * A * (1 - 2 * kq * u) + (2 * kq + 1) * u * c)%Q) by ring.
      assert (0 <= u * A * (1 - 2 * kq * u))%Q by (repeat apply Qmult_le_0_compat; lra).
      assert (0 <= (2 * kq + 1) * u * c)%Q by (repeat apply Qmult_le_0_compat; lra).
      lra. }
    lra.
Qed.

Lemma total_error (l : list MarketRecord) (a A T : Q) (k : Z) :
  let u := Double.unit_roundoff in
  Forall Spec.has_market_cap l -> Forall Double.cap_representable l ->
  Double.representable a -> (0 <= a)%Q -> (0 <= A)%Q -> 0 <= k ->
  (2 * inject_Z (k + Z.of_nat (length l)) * u <= 1)%Q ->
  ((1 - inject_Z k * u) * A <= a)%Q -> (a <= (1 + 2 * inject_Z k * u) * A)%Q ->
  fold_left Double.cap_step l (JS.Fin a) = JS.Fin T ->
  ((1 - inject_Z (k + Z.of_nat (length l)) * u) * (A + Spec.batch_total l) <= T)%Q
  /\ (T <= (1 + 2 * inject_Z (k + Z.of_nat (length l)) * u) * (A + Spec.batch_total l))%Q.
Proof.
  intros u. revert a A k.
  induction l as [| t l IH]; intros a A k Hcap Hrep Ha Hpos HA Hk Hsmall Hlo Hhi Hfold.
  - cbn [fold_left] in Hfold. injection Hfold as <-.
    cbn [length]. rewrite Z.add_0_r.
    unfold Spec.batch_total, Spec.Qsum. cbn [map fold_right].
    rewrite Qplus_0_r. now split.
  - apply List.Forall_cons_iff in Hcap as (Ht & Hcap).
    apply List.Forall_cons_iff in Hrep as (Hr & Hrep).
    cbn [fold_left] in Hfold.
    destruct (cap_step_finite a t Hpos Ht) as [E | E]; rewrite E in Hfold.
    + rewrite total_from_infinity in Hfold. discriminate Hfold.
    + pose proof (cap_positive t Ht) as Hc.
      pose proof (cap_of_representable t Ht Hr) as Hrc.
      pose proof (grid_sum_error a (Spec.cap t) Ha Hrc Hpos ltac:(lra)) as Herr.
      set (a' := Double.binary64 (a + Spec.cap t)) in *.
      cbn [length] in *. rewrite Nat2Z.inj_succ in *.
      replace (k + Z.succ (Z.of_nat (length l))) with ((k + 1) + Z.of_nat (length l)) in * by lia.
      assert (Hu : (0 < u)%Q) by reflexivity.
      assert (Hkq : (0 <= inject_Z k)%Q)
        by (change 0%Q with (inject_Z 0); rewrite <- Zle_Qle; lia).
      assert (Hlq : (0 <= inject_Z (Z.of_nat (length l)))%Q)
        by (change 0%Q with (inject_Z 0); rewrite <- Zle_Qle; lia).
      assert (Hs1 : (2 * (inject_Z k + 1) * u <= 1)%Q).
      { rewrite !inject_Z_plus in Hsmall. change (inject_Z 1) with 1%Q in Hsmall.
        assert (0 <= inject_Z (Z.of_nat (length l)) * u)%Q by (apply Qmult_le_0_compat; lra).
        lra. }
      destruct (total_error_step a A (Spec.cap t) a' (inject_Z k) HA Hc Hkq Hs1 Hlo Hhi Herr)
        as (Hlo' & Hhi').
      assert (Ek : (inject_Z (k + 1) == inject_Z k + 1)%Q)
        by (rewrite inject_Z_plus; reflexivity).
      assert (Ha'0 : (0 <= a')%Q).
      { assert (E0 : (Double.binary64 0 == 0)%Q) by reflexivity.
        pose proof (binary64_le 0 (a + Spec.cap t) ltac:(lra)). unfold a'. lra. }
      destruct (IH a' (A + Spec.cap t)%Q (k + 1) Hcap Hrep (binary64_representable _)
                  Ha'0 ltac:(lra) ltac:(lia) Hsmall
                  ltac:(rewrite Ek; exact Hlo') ltac:(rewrite Ek; exact Hhi') Hfold)
        as (H1 & H2).
      assert (Es : (A + Spec.batch_total (t :: l) == A + Spec.cap t + Spec.batch_total l)%Q).
      { unfold Spec.batch_total, Spec.Qsum. cbn [map fold_right]. ring. }
      rewrite Es. now split.
Qed.

(** *** One share *)

Lemma hundredths_nonneg (x : Q) :
  (0 <= x)%Q ->
  hundredths x = Qfloor (x * 100 + (1 # 2))
  /\ (Qabs ((hundredths x # 100) - x) <= 1 # 200)%Q.
Proof.
  intros Hx. unfold hundredths.
  destruct (ltb_spec x 0) as [N | _]; [lra|]. split; [reflexivity|].
  pose proof (Qfloor_le (x * 100 + (1 # 2))) as Hlo.
  pose proof (Qlt_floor (x * 100 + (1 # 2))) as Hhi.
  rewrite inject_Z_plus in Hhi. change (inject_Z 1) with 1%Q in Hhi.
  set (k := Qfloor (x * 100 + (1 # 2))) in *.
  rewrite (Qmake_Qdiv k 100). change (inject_Z (Z.pos 100)) with 100%Q.
  apply Qabs_Qle_condition.
  assert (E : (inject_Z k / 100 == inject_Z k * (1 # 100))%Q) by field.
  rewrite E. split; lra.
Qed.

Lemma share_percent_double (T c : Q) :
  (0 < c)%Q -> (c <= T)%Q ->
  exists v k,
    Double.share_percent (JS.Fin T) c = JS.Fin v
    /\ v = Double.binary64 (k # 100)
    /\ (0 <= v <= 100)%Q
    /\ (Qabs (v - c / T * 100)
        <= (1 # 200) + 300 * Double.unit_roundoff + 102 * Double.tiny)%Q.
Proof.
  intros Hc HcT.
  assert (HT : (0 < T)%Q) by lra.
  assert (Hr : (0 <= c / T <= 1)%Q).
  { split; [apply Qle_shift_div_l; lra | apply Qle_shift_div_r; lra]. }
  set (r := (c / T)%Q) in *.
  assert (Hu : (0 < Double.unit_roundoff)%Q) by reflexivity.
  assert (Hn : (0 < Double.tiny)%Q) by reflexivity.
  set (u := Double.unit_roundoff) in *. set (n := Double.tiny) in *.
  unfold Double.share_percent, Double.div.
  destruct (JS.is_zero T) eqn:Z0; [apply is_zero_true in Z0; lra|].
  fold r.
  destruct (fl_finite r 1 Hr (proj1 representable_1) (proj2 representable_1)) as (-> & Hq).
  pose proof (binary64_error r (proj1 Hr)) as E1. fold u n in E1.
  set (q := Double.binary64 r) in *.
  cbn [Double.mul].
  assert (Hq100 : (0 <= q * 100 <= 100)%Q) by lra.
  destruct (fl_finite (q * 100) 100 Hq100 (proj1 representable_100) (proj2 representable_100))
    as (-> & Hx).
  pose proof (binary64_error (q * 100) (proj1 Hq100)) as E2. fold u n in E2.
  set (x := Double.binary64 (q * 100)) in *.
  cbn [Double.toFixed2_number]. unfold JS.abs.
  destruct (ltb_spec x 0) as [N | _]; [lra|].
  assert (Hbig : (100 < 10 ^ 21)%Q) by reflexivity.
  destruct (ltb_spec x (10 ^ 21)) as [_ | Big]; [|lra].
  destruct (hundredths_nonneg x (proj1 Hx)) as (Ek & E3).
  set (k := hundredths x) in *.
  assert (Hk : (0 <= k # 100 <= 100)%Q).
  { rewrite Ek, (Qmake_Qdiv _ 100). change (inject_Z (Z.pos 100)) with 100%Q.
    split.
    - apply Qle_shift_div_l; [reflexivity|]. rewrite Qmult_0_l.
      change 0%Q with (inject_Z 0). rewrite <- Zle_Qle.
      rewrite <- (Qfloor_Z 0). apply Qfloor_resp_le.
      change (inject_Z 0) with 0%Q. lra.
    - apply Qle_shift_div_r; [reflexivity|].
      change (100 * 100)%Q with (inject_Z 10000). rewrite <- Zle_Qle.
      assert (Qfloor (x * 100 + (1 # 2)) < 10001); [|lia].
      rewrite Zlt_Qlt. apply Qle_lt_trans with (x * 100 + (1 # 2))%Q; [apply Qfloor_le|].
      change (inject_Z 10001) with 10001%Q. lra. }
  destruct (fl_finite (k # 100) 100 Hk (proj1 representable_100) (proj2 representable_100))
    as (-> & Hv).
  pose proof (binary64_error (k # 100) (proj1 Hk)) as E4. fold u n in E4.
  exists (Double.binary64 (k # 100)), k.
  split; [reflexivity|]. split; [reflexivity|]. split; [exact Hv|].
  set (v := Double.binary64 (k # 100)) in *.
  assert (B1 : (r * u <= u)%Q).
  { rewrite <- (Qmult_1_l u) at 2. apply Qmult_le_compat_r; lra. }
  assert (B2 : (q * 100 * u <= 100 * u)%Q).
  { apply Qmult_le_compat_r; lra. }
  assert (B4 : ((k # 100) * u <= 100 * u)%Q).
  { apply Qmult_le_compat_r; lra. }
  apply Qabs_Qle_condition in E1 as (E1a & E1b).
  apply Qabs_Qle_condition in E2 as (E2a & E2b).
  apply Qabs_Qle_condition in E3 as (E3a & E3b).
  apply Qabs_Qle_condition in E4 as (E4a & E4b).
  apply Qabs_Qle_condition. split; lra.
Qed.

(** The quotient by the rounded total against the quotient by the exact
    one. *)
Lemma quotient_error (c S T d : Q) :
  (0 < c)%Q -> (c <= T)%Q -> (0 < S)%Q -> (0 <= d)%Q ->
  ((1 - d) * S <= T)%Q -> (T <= (1 + 2 * d) * S)%Q ->
  (Qabs (c / T * 100 - c / S * 100) <= 200 * d)%Q.
Proof.
  intros Hc HcT HS Hd Hlo Hhi.
  assert (HT : (0 < T)%Q) by lra.
  set (r := (c / T)%Q). set (s := (c / S)%Q).
  assert (Hr : (0 <= r <= 1)%Q).
  { split; [apply Qle_shift_div_l; lra | apply Qle_shift_div_r; lra]. }
  assert (ErT : (r * T == c)%Q) by (unfold r; field; lra).
  assert (EsS : (s * S == c)%Q) by (unfold s; field; lra).
  assert (H1 : (r * (1 - d) <= s)%Q).
  { apply (Qmult_le_r _ _ S HS).
    assert ((1 - d) * S * r <= T * r)%Q by (apply Qmult_le_compat_r; lra).
    assert (E : (r * (1 - d) * S == (1 - d) * S * r)%Q) by ring.
    rewrite E, EsS, <- ErT, (Qmult_comm r T). assumption. }
  assert (H2 : (s <= r * (1 + 2 * d))%Q).
  { apply (Qmult_le_r _ _ S HS).
    assert (T * r <= (1 + 2 * d) * S * r)%Q by (apply Qmult_le_compat_r; lra).
    assert (E : (r * (1 + 2 * d) * S == (1 + 2 * d) * S * r)%Q) by ring.
    rewrite E, EsS, <- ErT, (Qmult_comm r T). assumption. }
  assert (H3 : (r * d <= d)%Q).
  { rewrite <- (Qmult_1_l d) at 2. apply Qmult_le_compat_r; lra. }
  apply Qabs_Qle_condition. split; lra.
Qed.

(** *** The mapping, in doubles *)

Lemma double_entry_insert (total : JS.num) (d : gmap string JS.num) (t : MarketRecord) :
  Spec.has_market_cap t ->
  symbol t <> Obj.proto_key ->
  Double.dominance_entry total d t
  = <[symbol t := Double.share_percent total (Spec.cap t)]> d.
Proof.
  intros (c & Hc & Hpos) Hkey. unfold Double.dominance_entry, Spec.cap. rewrite Hc.
  unfold JS.truthy. destruct (JS.is_zero c) eqn:E; [apply is_zero_true in E; lra|].
  cbn [negb]. unfold Obj.set_number.
  apply String.eqb_neq in Hkey. now rewrite Hkey.
Qed.

Lemma double_entry_skip (total : JS.num) (d : gmap string JS.num) (t : MarketRecord) :
  JS.truthy (marketCap t) = false -> Double.dominance_entry total d t = d.
Proof.
  intros Hf. unfold Double.dominance_entry.
  destruct (marketCap t) as [c|]; [|reflexivity]. now rewrite Hf.
Qed.

Lemma double_entry_other (total : JS.num) (d : gmap string JS.num)
    (t : MarketRecord) (k : string) :
  symbol t <> k -> Double.dominance_entry total d t !! k = d !! k.
Proof.
  intros Hne. unfold Double.dominance_entry.
  destruct (marketCap t) as [c|]; [|reflexivity].
  destruct (JS.truthy (Some c)); [|reflexivity].
  unfold Obj.set_number. destruct (String.eqb (symbol t) Obj.proto_key); [reflexivity|].
  now apply lookup_insert_ne.
Qed.

Lemma double_fold_untouched (total : JS.num) (l : list MarketRecord)
    (d : gmap string JS.num) (k : string) :
  (forall t, In t l -> symbol t = k -> JS.truthy (marketCap t) = false) ->
  fold_left (Double.dominance_entry total) l d !! k = d !! k.
Proof.
  revert d. induction l as [| t l IH]; intros d Hskip; [reflexivity|].
  cbn [fold_left]. rewrite IH.
  - destruct (String.eqb_spec (symbol t) k) as [E | Hne].
    + rewrite double_entry_skip; [reflexivity|]. apply Hskip; [now left | exact E].
    + now apply double_entry_other.
  - intros t' Hin. apply Hskip. now right.
Qed.

Lemma double_fold_lookup (total : JS.num) (l : list MarketRecord)
    (d : gmap string JS.num) (t : MarketRecord) :
  NoDup (map symbol l) ->
  Forall Spec.has_market_cap l ->
  Forall (fun t => symbol t <> Obj.proto_key) l ->
  In t l ->
  fold_left (Double.dominance_entry total) l d !! symbol t
    = Some (Double.share_percent total (Spec.cap t)).
Proof.
  revert d. induction l as [| t' l IH]; intros d Hnd Hcap Hkey Hin; [contradiction|].
  apply NoDup_cons in Hnd as (Hfresh & Hnd).
  apply Forall_cons in Hcap as (Hcap' & Hcap).
  apply Forall_cons in Hkey as (Hkey' & Hkey).
  cbn [fold_left]. destruct Hin as [-> | Hin].
  - rewrite double_fold_untouched.
    + rewrite (double_entry_insert total d t Hcap' Hkey'). apply lookup_insert_eq.
    + intros t' Hin' E. exfalso. apply Hfresh.
      rewrite <- E. apply list_elem_of_In, in_map, Hin'.
  - now apply IH.
Qed.

Lemma double_fold_entries (total : JS.num) (l : list MarketRecord)
    (d : gmap string JS.num) :
  NoDup (map symbol l) ->
  Forall Spec.has_market_cap l ->
  Forall (fun t => symbol t <> Obj.proto_key) l ->
  (forall t, In t l -> d !! symbol t = None) ->
  Permutation
    (map_to_list (fold_left (Double.dominance_entry total) l d))
    (map_to_list d
     ++ map (fun t => (symbol t, Double.share_percent total (Spec.cap t))) l).
Proof.
  revert d. induction l as [| t l IH]; intros d Hnd Hcap Hkey Hfresh.
  - cbn. now rewrite app_nil_r.
  - apply NoDup_cons in Hnd as (Hnew & Hnd).
    apply Forall_cons in Hcap as (Hcap' & Hcap).
    apply Forall_cons in Hkey as (Hkey' & Hkey).
    cbn [fold_left map].
    rewrite (double_entry_insert total d t Hcap' Hkey').
    rewrite IH; try assumption.
    + rewrite map_to_list_insert by (apply Hfresh; now left).
      cbn. apply Permutation_middle.
    + intros t' Hin. rewrite lookup_insert_ne; [apply Hfresh; now right|].
      intros E. apply Hnew. rewrite E. apply list_elem_of_In, in_map, Hin.
Qed.

Lemma double_mapping_sum (marketData : list MarketRecord) :
  Spec.batch marketData ->
  Forall Spec.has_market_cap marketData ->
  (Spec.mapping_sum (Double.calculateDominanceIndex marketData)
   == Spec.Qsum (map (fun t => Spec.finite_part
                                 (Double.share_percent
                                    (Double.marketCap_total marketData) (Spec.cap t)))
                     marketData))%Q.
Proof.
  intros (Hnd & Hkey) Hcap. unfold Spec.mapping_sum, Double.calculateDominanceIndex.
  pose proof (double_fold_entries (Double.marketCap_total marketData) marketData ∅
                Hnd Hcap Hkey (fun t _ => lookup_empty (symbol t))) as Hperm.
  rewrite map_to_list_empty in Hperm. cbn [app] in Hperm.
  rewrite (Qsum_Permutation _ _ (Permutation_map _ Hperm)).
  rewrite map_map. reflexivity.
Qed.

(** Every share of a batch with a finite total: its value and its distance
    from the exact share. *)
Lemma share_of_batch (marketData : list MarketRecord) (T : Q) (t : MarketRecord) :
  Forall Spec.has_market_cap marketData ->
  Forall Double.cap_representable marketData ->
  Double.marketCap_total marketData = JS.Fin T ->
  In t marketData ->
  exists v,
    Double.share_percent (JS.Fin T) (Spec.cap t) = JS.Fin v
    /\ Spec.two_decimals v
    /\ (Qabs (v - Spec.exact_share (Spec.batch_total marketData) (Spec.cap t))
        <= Spec.share_tolerance (length marketData))%Q.
Proof.
  intros Hcap Hrep Htotal Hin.
  assert (Hne : marketData <> []) by (intros ->; contradiction).
  pose proof (batch_total_positive marketData Hne Hcap) as HS.
  pose proof (cap_le_batch_total marketData t Hcap Hin) as HcS.
  assert (Hc : (0 < Spec.cap t)%Q).
  { apply cap_positive. rewrite List.Forall_forall in Hcap. now apply Hcap. }
  assert (R0 : Double.representable 0) by reflexivity.
  destruct (total_dominates marketData 0 T Hcap Hrep R0 (Qle_refl 0) Htotal)
    as (_ & _ & Hdom).
  specialize (Hdom t Hin).
  destruct (share_percent_double T (Spec.cap t) Hc Hdom) as (v & k & Hv & Ek & Hrange & Herr).
  exists v. split; [exact Hv|]. split; [exists k; exact Ek|].
  set (S := Spec.batch_total marketData) in *.
  set (n := Z.of_nat (length marketData)).
  assert (Hn : 0 < n).
  { unfold n. destruct marketData; [contradiction | cbn; lia]. }
  assert (Hnq : (1 <= inject_Z n)%Q) by (change 1%Q with (inject_Z 1); rewrite <- Zle_Qle; lia).
  unfold Spec.share_tolerance. fold n. rewrite inject_Z_plus. change (inject_Z 2) with 2%Q.
  assert (Hu : (0 < Double.unit_roundoff)%Q) by reflexivity.
  assert (Ht : (0 < Double.tiny)%Q) by reflexivity.
  assert (Htu : (Double.tiny <= Double.unit_roundoff)%Q) by (vm_compute; discriminate).
  assert (Eu : ((1 # 2 ^ 45) == 256 * Double.unit_roundoff)%Q) by reflexivity.
  rewrite Eu.
  set (u := Double.unit_roundoff) in *. set (eta := Double.tiny) in *.
  assert (Hshare : (0 <= Spec.exact_share S (Spec.cap t) <= 100)%Q).
  { unfold Spec.exact_share.
    assert (0 <= Spec.cap t / S)%Q by (apply Qle_shift_div_l; lra).
    assert (Spec.cap t / S <= 1)%Q by (apply Qle_shift_div_r; lra).
    lra. }
  destruct (Qlt_le_dec 1 (2 * inject_Z n * u)) as [Large | Small].
  - (* so many records that the tolerance exceeds the whole range *)
    assert (Hnu : (0 <= inject_Z n * u)%Q) by (apply Qmult_le_0_compat; lra).
    apply Qabs_Qle_condition. split; lra.
  - assert (Hsmall : (2 * inject_Z (0 + Z.of_nat (length marketData)) * u <= 1)%Q).
    { rewrite Z.add_0_l. exact Small. }
    destruct (total_error marketData 0 0 T 0 Hcap Hrep R0 (Qle_refl 0) (Qle_refl 0)
                (Z.le_refl 0) Hsmall ltac:(lra) ltac:(lra) Htotal) as (Hlo & Hhi).
    rewrite Z.add_0_l in Hlo, Hhi. fold n S in Hlo, Hhi.
    rewrite Qplus_0_l in Hlo, Hhi.
    assert (Hd : (0 <= inject_Z n * u)%Q) by (apply Qmult_le_0_compat; lra).
    assert (Hhi' : (T <= (1 + 2 * (inject_Z n * u)) * S)%Q).
    { assert (E : ((1 + 2 * (inject_Z n * u)) * S == (1 + 2 * inject_Z n * u) * S)%Q) by ring.
      now rewrite E. }
    pose proof (quotient_error (Spec.cap t) S T (inject_Z n * u) Hc Hdom HS Hd Hlo Hhi')
      as Hq.
    fold (Spec.exact_share S (Spec.cap t)) in Hq.
    apply Qabs_Qle_condition in Hq as (Hq1 & Hq2).
    apply Qabs_Qle_condition in Herr as (He1 & He2).
    apply Qabs_Qle_condition. split; lra.
Qed.

(** C5.  In a non-empty batch with unique symbols other than ["__proto__"],
    in which every record has a positive market cap, a double, and whose
    running total stays finite, every symbol is mapped to a two-decimal
    number within half a hundredth, plus the rounding error of the
    arithmetic, of its exact share of the batch total in percent; the mapped
    values sum to 100 within that distance per record.  In any batch, a
    symbol none of whose records has a market cap is not in the mapping. *)
Theorem dominance_index_shares (marketData : list MarketRecord) :
  (marketData <> [] ->
   NoDup (map symbol marketData) ->
   Forall (fun t => symbol t <> Obj.proto_key) marketData ->
   Forall Spec.has_market_cap marketData ->
   Forall Double.cap_representable marketData ->
   (exists total, Double.marketCap_total marketData = JS.Fin total) ->
   (forall t, In t marketData ->
      exists v,
        Double.calculateDominanceIndex marketData !! symbol t = Some (JS.Fin v)
        /\ Spec.two_decimals v
        /\ (Qabs (v - Spec.exact_share (Spec.batch_total marketData) (Spec.cap t))
            <= Spec.share_tolerance (length marketData))%Q)
   /\ (Qabs (Spec.mapping_sum (Double.calculateDominanceIndex marketData) - 100)
       <= inject_Z (Z.of_nat (length marketData))
          * Spec.share_tolerance (length marketData))%Q)
  /\ (forall k,
        (forall t, In t marketData -> symbol t = k -> JS.truthy (marketCap t) = false) ->
        Double.calculateDominanceIndex marketData !! k = None).
Proof.
  split.
  - intros Hne Hunique Hordinary Hcap Hrep (T & Htotal).
    assert (Hbatch : Spec.batch marketData) by (split; assumption).
    pose proof (batch_total_positive marketData Hne Hcap) as Hpos.
    pose proof (fun t Hin => share_of_batch marketData T t Hcap Hrep Htotal Hin) as Hshare.
    split.
    + intros t Hin. destruct (Hshare t Hin) as (v & Hv & Hk & Hclose).
      exists v. split; [|split; assumption].
      unfold Double.calculateDominanceIndex. rewrite Htotal, <- Hv.
      destruct Hbatch as (Hnd & Hkey). now apply double_fold_lookup.
    + rewrite (double_mapping_sum marketData Hbatch Hcap), Htotal.
      set (S := Spec.batch_total marketData) in *.
      assert (E : (100 == Spec.Qsum (map (fun t => Spec.exact_share S (Spec.cap t))
                                         marketData))%Q).
      { rewrite Qsum_exact_shares by lra. fold S. field. lra. }
      rewrite E at 1. apply Qsum_close.
      intros t Hin. destruct (Hshare t Hin) as (v & -> & _ & Hclose). exact Hclose.
  - intros k Hskip. unfold Double.calculateDominanceIndex.
    rewrite double_fold_untouched by exact Hskip. apply lookup_empty.
Qed.

Lemma representable_dec (q : Q) : Qeq_bool (Double.binary64 q) q = true -> Double.representable q.
Proof. apply Qeq_bool_eq. Qed.

Lemma dominance_index_shares_witness :
  (exists v,
      Double.calculateDominanceIndex Sample.pair_23_137 !! "A" = Some (JS.Fin v)
      /\ Spec.two_decimals v
      /\ (Qabs (v - Spec.exact_share (Spec.batch_total Sample.pair_23_137) 23)
          <= Spec.share_tolerance 2)%Q)
  /\ (Qabs (Spec.mapping_sum (Double.calculateDominanceIndex Sample.pair_23_137) - 100)
      <= 2 * Spec.share_tolerance 2)%Q.
Proof.
  destruct (dominance_index_shares Sample.pair_23_137) as (Hshares & _).
  destruct Hshares as (Hvalue & Hsum).
  - discriminate.
  - apply (bool_decide_unpack _). vm_compute. exact I.
  - repeat (apply List.Forall_cons; [discriminate|]). apply List.Forall_nil.
  - apply List.Forall_cons; [exists 23%Q; split; reflexivity|].
    apply List.Forall_cons; [exists 137%Q; split; reflexivity|].
    apply List.Forall_nil.
  - apply List.Forall_cons; [intros c [= <-]; apply representable_dec; vm_compute; reflexivity|].
    apply List.Forall_cons; [intros c [= <-]; apply representable_dec; vm_compute; reflexivity|].
    apply List.Forall_nil.
  - eexists. vm_compute. reflexivity.
  - split; [|exact Hsum].
    apply (Hvalue (Sample.record "A" 1 1 1 23)). left. reflexivity.
Defined.

(** Two market caps of [1e308] are positive doubles, and their total
    overflows: the program divides by infinity and stores [0] for both
    symbols, whose exact shares are 50 percent. *)
Lemma dominance_overflow :
  Sample.huge <> []
  /\ NoDup (map symbol Sample.huge)
  /\ Forall (fun t => symbol t <> Obj.proto_key) Sample.huge
  /\ Forall Spec.has_market_cap Sample.huge
  /\ Forall Double.cap_representable Sample.huge
  /\ Double.marketCap_total Sample.huge = JS.PInf
  /\ ~ (exists v,
          Double.calculateDominanceIndex Sample.huge !! "A" = Some (JS.Fin v)
          /\ (Qabs (v - Spec.exact_share (Spec.batch_total Sample.huge)
                         (Double.binary64 (inject_Z (10 ^ 308))))
              <= Spec.share_tolerance 2)%Q).
Proof.
  split; [discriminate|].
  split; [apply (bool_decide_unpack _); vm_compute; exact I|].
  split.
  { repeat (apply List.Forall_cons; [discriminate|]). apply List.Forall_nil. }
  split.
  { repeat (apply List.Forall_cons; [eexists; split; [reflexivity | vm_compute; reflexivity]|]).
    apply List.Forall_nil. }
  split.
  { repeat (apply List.Forall_cons;
            [intros c [= <-]; apply binary64_representable|]).
    apply List.Forall_nil. }
  split; [vm_compute; reflexivity|].
  intros (v & Hv & Hclose).
  assert (E : Double.calculateDominanceIndex Sample.huge !! "A" = Some (JS.Fin (Double.binary64 (0 # 100)))).
  { vm_compute. reflexivity. }
  rewrite E in Hv. injection Hv as <-.
  revert Hclose. apply Qlt_not_le. vm_compute. reflexivity.
Qed.

(** A record whose symbol is ["__proto__"] gets no entry, whatever its
    market cap: the assignment runs the inherited setter, which ignores a
    number. *)
Lemma dominance_reserved_key :
  Double.calculateDominanceIndex
    [ Sample.record "__proto__" 1 1 1 1; Sample.record "B" 1 1 1 1 ] !! "__proto__" = None
  /\ Double.calculateDominanceIndex
       [ Sample.record "__proto__" 1 1 1 1; Sample.record "B" 1 1 1 1 ] !! "B"
     = Some (JS.Fin (Double.binary64 50)).
Proof. split; vm_compute; reflexivity. Qed.

(** Market caps of 23 and 137: the quotient [23 / 160] rounds below
    0.14375, the stored share is 14.37, and the exact computation gives
    14.38. *)
Lemma dominance_at_23_137 :
  Double.calculateDominanceIndex Sample.pair_23_137 !! "A"
    = Some (JS.Fin (Double.binary64 (1437 # 100)))
  /\ calculateDominanceIndex Sample.pair_23_137 !! "A" = Some (JS.Fin (1438 # 100)).
Proof. split; vm_compute; reflexivity. Qed.

(** * Further properties *)(** * Further properties *)

(** ** Moving averages and signal labels *)

(** X1.  The moving-average label depends on how the price compares with
    the 50-period average, each read with its default: equal gives
    "sideways", a higher price one of the two uptrend labels, a lower price
    one of the two downtrend labels.  A record whose 50-period average is
    missing or zero is therefore always "sideways". *)
Theorem moving_average_label_by_price (token : MarketRecord) :
  let p := JS.or_default (price token) 0 in
  let m := JS.or_default (ma50 token) p in
  (analyzeMovingAverages token = "sideways" <-> p == m)
  /\ (analyzeMovingAverages token = "strong uptrend"
      \/ analyzeMovingAverages token = "uptrend" <-> (m < p)%Q)
  /\ (analyzeMovingAverages token = "strong downtrend"
      \/ analyzeMovingAverages token = "downtrend" <-> (p < m)%Q)
  /\ (JS.truthy (ma50 token) = false -> analyzeMovingAverages token = "sideways").
Proof.
  intros p m.
  assert (Hlabel :
    (analyzeMovingAverages token = "sideways" <-> p == m)
    /\ (analyzeMovingAverages token = "strong uptrend"
        \/ analyzeMovingAverages token = "uptrend" <-> (m < p)%Q)
    /\ (analyzeMovingAverages token = "strong downtrend"
        \/ analyzeMovingAverages token = "downtrend" <-> (p < m)%Q)).
  { unfold analyzeMovingAverages. fold p. fold m. unfold JS.gtb.
    destruct (ltb_spec m p) as [Up | NotUp];
      destruct (ltb_spec p m) as [Down | NotDown];
      destruct (JS.ltb (JS.or_default (ma200 token) p) m);
      destruct (JS.ltb m (JS.or_default (ma200 token) p));
      cbn [andb];
      (repeat split; intros H;
       repeat match goal with
              | H : _ \/ _ |- _ => destruct H
              end;
       try discriminate; try lra; auto). }
  destruct Hlabel as (Hside & Hup & Hdown).
  repeat split; try apply Hside; try apply Hup; try apply Hdown.
  intros Hmissing. apply Hside. unfold m, JS.or_default at 1.
  unfold JS.truthy in Hmissing.
  destruct (ma50 token) as [q|]; [|reflexivity].
  destruct (JS.is_zero q); [reflexivity | discriminate Hmissing].
Qed.

Lemma moving_average_label_by_price_witness :
  analyzeMovingAverages (Sample.record "SOL" 6 200 100 30) = "sideways".
Proof.
  apply (moving_average_label_by_price (Sample.record "SOL" 6 200 100 30)).
  reflexivity.
Defined.

Lemma sentiment_label_range (token : MarketRecord) :
  In (calculateTechnicalSentiment token)
     ["strongly bullish"; "bullish"; "neutral"; "bearish"; "strongly bearish"].
Proof.
  unfold calculateTechnicalSentiment.
  repeat match goal with
         | |- context [if ?c then _ else _] => destruct c
         end; cbn; auto 10.
Qed.

Lemma macd_label_range (token : MarketRecord) :
  In (calculateMACD token) ["bullish"; "bearish"].
Proof. unfold calculateMACD. destruct (JS.gtb _ _); cbn; auto. Qed.

Lemma moving_average_label_range (token : MarketRecord) :
  In (analyzeMovingAverages token)
     ["strong uptrend"; "uptrend"; "sideways"; "downtrend"; "strong downtrend"].
Proof.
  unfold analyzeMovingAverages.
  repeat match goal with
         | |- context [if ?c then _ else _] => destruct c
         end; cbn; auto 10.
Qed.

(** The oscillator is in range whatever the record holds. *)
Lemma calculateRSI_range (token : MarketRecord) : 0 <= calculateRSI token <= 100.
Proof.
  rewrite <- calculateRSI_rounded_exact.
  apply calculateRSI_rounded_range; try reflexivity. intros x y Hxy. exact Hxy.
Qed.

(** ** The signal table *)

Lemma generateTechnicalSignals_fold (marketData : list MarketRecord) :
  generateTechnicalSignals marketData
  = fold_right (fun token signals =>
                  Obj.set_object signals (symbol token) (technicalSignal token))
      Obj.empty (rev marketData).
Proof.
  unfold generateTechnicalSignals. rewrite <- fold_left_rev_right. reflexivity.
Qed.

Lemma signals_fold_lookup (l : list MarketRecord) (k : string) :
  Obj.own (fold_right (fun token signals =>
                         Obj.set_object signals (symbol token) (technicalSignal token))
             Obj.empty l) !! k
  = if String.eqb k Obj.proto_key then None
    else option_map technicalSignal (find (fun t => String.eqb (symbol t) k) l).
Proof.
  induction l as [| t l IH]; cbn [fold_right find].
  - cbn. rewrite lookup_empty. destruct (String.eqb k Obj.proto_key); reflexivity.
  - unfold Obj.set_object at 1.
    destruct (String.eqb_spec (symbol t) Obj.proto_key) as [Hp | Hp]; cbn [Obj.own].
    + rewrite IH. destruct (String.eqb_spec k Obj.proto_key) as [Hk | Hk]; [reflexivity|].
      destruct (String.eqb_spec (symbol t) k) as [E | _]; [congruence | reflexivity].
    + destruct (String.eqb_spec (symbol t) k) as [E | Hne].
      * subst k. rewrite lookup_insert_eq.
        apply String.eqb_neq in Hp. rewrite Hp. reflexivity.
      * rewrite lookup_insert_ne by exact Hne. apply IH.
Qed.

Lemma signals_own_lookup (marketData : list MarketRecord) (k : string) :
  Obj.own (generateTechnicalSignals marketData) !! k
  = if String.eqb k Obj.proto_key then None
    else option_map technicalSignal (last_with_symbol k marketData).
Proof. rewrite generateTechnicalSignals_fold. apply signals_fold_lookup. Qed.

(** X2.  Every signal stored in the table carries one of the five sentiment
    labels, one of the two crossover labels, one of the five moving-average
    labels and an oscillator value between 0 and 100. *)
Theorem stored_signals_well_formed (marketData : list MarketRecord) (k : string)
    (s : TechnicalSignal) :
  Obj.own (generateTechnicalSignals marketData) !! k = Some s ->
  In (sentiment s)
     ["strongly bullish"; "bullish"; "neutral"; "bearish"; "strongly bearish"]
  /\ In (macd (indicators s)) ["bullish"; "bearish"]
  /\ In (movingAverages (indicators s))
        ["strong uptrend"; "uptrend"; "sideways"; "downtrend"; "strong downtrend"]
  /\ 0 <= rsi (indicators s) <= 100.
Proof.
  rewrite signals_own_lookup.
  destruct (String.eqb k Obj.proto_key); [discriminate|].
  destruct (last_with_symbol k marketData) as [t|]; [|discriminate].
  intros [= <-]. cbn [technicalSignal sentiment indicators calculateIndicators macd
                      movingAverages rsi].
  split; [apply sentiment_label_range|].
  split; [apply macd_label_range|].
  split; [apply moving_average_label_range | apply calculateRSI_range].
Qed.

Lemma stored_signals_well_formed_witness :
  In (sentiment (technicalSignal (Sample.record "SOL" 6 200 100 30)))
     ["strongly bullish"; "bullish"; "neutral"; "bearish"; "strongly bearish"]
  /\ In (macd (indicators (technicalSignal (Sample.record "SOL" 6 200 100 30))))
        ["bullish"; "bearish"]
  /\ In (movingAverages (indicators (technicalSignal (Sample.record "SOL" 6 200 100 30))))
        ["strong uptrend"; "uptrend"; "sideways"; "downtrend"; "strong downtrend"]
  /\ 0 <= rsi (indicators (technicalSignal (Sample.record "SOL" 6 200 100 30))) <= 100.
Proof.
  apply (stored_signals_well_formed Sample.scenario "SOL").
  vm_compute. reflexivity.
Defined.

(** X3.  For every key other than "__proto__", the table maps the key to the
    signal of the last record of the batch with that symbol: a later record
    replaces an earlier one, a symbol of no record has no entry, and with
    unique symbols every record finds its own signal under its symbol. *)
Theorem signal_table_lookup (marketData : list MarketRecord) (k : string) :
  k <> Obj.proto_key ->
  Obj.own (generateTechnicalSignals marketData) !! k
    = option_map technicalSignal (last_with_symbol k marketData)
  /\ ((forall t, In t marketData -> symbol t <> k) ->
      Obj.own (generateTechnicalSignals marketData) !! k = None)
  /\ (forall t batch,
        symbol t = k ->
        Obj.own (generateTechnicalSignals (batch ++ [t])) !! k
          = Some (technicalSignal t))
  /\ (NoDup (map symbol marketData) ->
      forall t, In t marketData -> symbol t = k ->
        Obj.own (generateTechnicalSignals marketData) !! k = Some (technicalSignal t)).
Proof.
  intros Hk. apply String.eqb_neq in Hk.
  assert (Hlookup : forall batch,
             Obj.own (generateTechnicalSignals batch) !! k
             = option_map technicalSignal (last_with_symbol k batch)).
  { intros batch. rewrite signals_own_lookup. now rewrite Hk. }
  split; [apply Hlookup|]. split; [|split].
  - intros Hnone. rewrite Hlookup. unfold last_with_symbol.
    destruct (find _ (rev marketData)) as [t|] eqn:F; [|reflexivity].
    apply find_some in F as (Hin & E). apply String.eqb_eq in E.
    apply in_rev in Hin. exfalso. apply (Hnone t Hin E).
  - intros t batch E. rewrite Hlookup. unfold last_with_symbol.
    rewrite rev_app_distr. cbn [rev app find].
    apply String.eqb_eq in E. now rewrite E.
  - intros Hnd t Hin E. rewrite Hlookup. unfold last_with_symbol.
    destruct (find _ (rev marketData)) as [t'|] eqn:F.
    + apply find_some in F as (Hin' & E'). apply String.eqb_eq in E'.
      apply in_rev in Hin'. cbn. f_equal. f_equal.
      rewrite <- E in E'. clear -Hnd Hin Hin' E'.
      induction marketData as [| x l IH]; [contradiction|].
      cbn in Hnd. apply NoDup_cons in Hnd as (Hx & Hl).
      destruct Hin as [-> | Hin], Hin' as [-> | Hin']; auto.
      * exfalso. apply Hx. rewrite <- E'. apply list_elem_of_In, in_map, Hin'.
      * exfalso. apply Hx. rewrite E'. apply list_elem_of_In, in_map, Hin.
    + apply in_rev in Hin. pose proof (find_none _ _ F t Hin) as Hno.
      apply String.eqb_neq in Hno. contradiction.
Qed.

Lemma signal_table_lookup_witness :
  Obj.own (generateTechnicalSignals
             ([Sample.record "SOL" 6 200 100 30] ++ [Sample.record "SOL" 1 100 200 60]))
    !! "SOL"
  = Some (technicalSignal (Sample.record "SOL" 1 100 200 60)).
Proof.
  destruct (signal_table_lookup [] "SOL") as (_ & _ & Hlast & _).
  - discriminate.
  - apply Hlast. reflexivity.
Defined.

(** ** Dominance values *)

(** Every entry of the mapping comes from a record with that symbol and a
    truthy market cap. *)
Lemma dominance_fold_origin (total : Q) (l : list MarketRecord)
    (d : gmap string JS.num) (k : string) (v : JS.num) :
  fold_left (dominance_entry total) l d !! k = Some v ->
  d !! k = Some v
  \/ exists t c, In t l /\ symbol t = k /\ marketCap t = Some c
                 /\ JS.truthy (Some c) = true /\ v = share_percent total c.
Proof.
  revert d. induction l as [| t l IH]; intros d Hv; [left; exact Hv|].
  cbn [fold_left] in Hv. destruct (IH _ Hv) as [Hd | (t' & c & Hin & Hrest)].
  - unfold dominance_entry in Hd.
    destruct (marketCap t) as [c|] eqn:Hc; [|left; exact Hd].
    destruct (JS.truthy (Some c)) eqn:Ht; [|left; exact Hd].
    unfold Obj.set_number in Hd.
    destruct (String.eqb (symbol t) Obj.proto_key); [left; exact Hd|].
    destruct (String.eqb_spec (symbol t) k) as [E | Hne].
    + subst k. rewrite lookup_insert_eq in Hd. injection Hd as <-.
      right. exists t, c. repeat split; auto. now left.
    + rewrite lookup_insert_ne in Hd by exact Hne. left. exact Hd.
  - right. exists t', c. split; [now right | exact Hrest].
Qed.

(** X4.  When every record of the batch has a positive market cap, every
    value of the dominance mapping is a finite percentage between 0 and 100,
    and its key is the symbol of a record of the batch. *)
Theorem dominance_values_are_percentages (marketData : list MarketRecord)
    (k : string) (v : JS.num) :
  Forall Spec.has_market_cap marketData ->
  calculateDominanceIndex marketData !! k = Some v ->
  (exists q, v = JS.Fin q /\ (0 <= q <= 100)%Q)
  /\ exists t, In t marketData /\ symbol t = k.
Proof.
  intros Hcap Hv. unfold calculateDominanceIndex in Hv.
  apply dominance_fold_origin in Hv as [Hv | (t & c & Hin & Hk & Hc & _ & ->)].
  { rewrite lookup_empty in Hv. discriminate. }
  split; [|exists t; auto].
  assert (Hne : marketData <> []) by (intros ->; contradiction).
  pose proof (marketCap_total_batch marketData Hcap) as Htotal.
  pose proof (batch_total_positive marketData Hne Hcap) as Hpos.
  pose proof (cap_le_batch_total marketData t Hcap Hin) as Hle.
  assert (Hct : Spec.cap t = c) by (unfold Spec.cap; now rewrite Hc).
  rewrite List.Forall_forall in Hcap. pose proof (cap_positive t (Hcap t Hin)) as Hcpos.
  rewrite Hct in Hle, Hcpos. rewrite <- Htotal in Hle, Hpos.
  set (total := marketCap_total marketData) in *.
  destruct (share_percent_rounded total c Hcpos Hle) as (n & -> & Hclose).
  exists (n # 100)%Q. split; [reflexivity|].
  assert (Hx : (0 < Spec.exact_share total c <= 100)%Q).
  { unfold Spec.exact_share.
    assert (H0 : (0 < c / total)%Q) by (apply Qlt_shift_div_l; lra).
    assert (H1 : (c / total <= 1)%Q) by (apply Qle_shift_div_r; lra).
    lra. }
  apply Qabs_Qle_condition in Hclose.
  assert (Hlo : (-1 # 200 < n # 100)%Q) by lra.
  assert (Hhi : (n # 100 <= 20001 # 200)%Q) by lra.
  unfold Qlt in Hlo. unfold Qle in Hhi. cbn in Hlo, Hhi.
  unfold Qle. cbn. lia.
Qed.

Lemma dominance_values_are_percentages_witness :
  (exists q, JS.Fin (3000 # 100) = JS.Fin q /\ (0 <= q <= 100)%Q)
  /\ exists t, In t Sample.scenario /\ symbol t = "SOL".
Proof.
  apply (dominance_values_are_percentages Sample.scenario "SOL").
  - repeat (apply List.Forall_cons; [eexists; split; reflexivity|]).
    apply List.Forall_nil.
  - vm_compute. reflexivity.
Defined.

(** ** Trend lists *)

Lemma disjoint_filters_length (f g : MarketRecord -> bool) (l : list MarketRecord) :
  (forall t, f t = true -> g t = true -> False) ->
  (length (List.filter f l) + length (List.filter g l) <= length l)%nat.
Proof.
  intros Hdis. induction l as [| t l IH]; cbn; [lia|].
  destruct (f t) eqn:Ef, (g t) eqn:Eg; cbn; try lia.
  exfalso. apply (Hdis t Ef Eg).
Qed.

Lemma gainer_is_no_loser (t : MarketRecord) :
  JS.opt_gtb (percentChange24h t) 5 = true ->
  JS.opt_ltb (percentChange24h t) (-5) = true -> False.
Proof.
  unfold JS.opt_gtb, JS.opt_ltb. destruct (percentChange24h t) as [p|]; [|discriminate].
  rewrite gtb_true, ltb_true. lra.
Qed.

Lemma above_and_below (x : JS.num) (c : Q) :
  (0 <= c)%Q -> JS.num_gtb x c && JS.num_ltb x (- c) = false.
Proof.
  intros Hc. destruct x as [q | | |]; cbn; try reflexivity.
  destruct (JS.gtb q c) eqn:G; [|reflexivity].
  apply gtb_true in G. apply ltb_false. lra.
Qed.

Lemma length_push_if (cond : bool) (text : string) (l : list string) :
  length (push_if cond text l) = (length l + if cond then 1 else 0)%nat.
Proof. unfold push_if. destruct cond; [rewrite length_app; cbn|]; lia. Qed.

(** X5.  The short-term list never holds both "Broad market rally" and
    "Market-wide correction", never both volume narratives, so it has at
    most two entries; on an empty batch it is empty. *)
Theorem short_term_entries_exclusive (marketData : list MarketRecord) :
  ~ (In "Broad market rally" (extractShortTermTrends marketData)
     /\ In "Market-wide correction" (extractShortTermTrends marketData))
  /\ ~ (In "High volume spike across markets" (extractShortTermTrends marketData)
        /\ In "Volume declining across markets" (extractShortTermTrends marketData))
  /\ (length (extractShortTermTrends marketData) <= 2)%nat
  /\ (marketData = [] -> extractShortTermTrends marketData = []).
Proof.
  pose proof (disjoint_filters_length
                (fun t => JS.opt_gtb (percentChange24h t) 5)
                (fun t => JS.opt_ltb (percentChange24h t) (-5))
                marketData gainer_is_no_loser) as Hcount.
  unfold extractShortTermTrends.
  set (gainers := length (List.filter _ marketData)) in *.
  set (losers := length (List.filter (fun t => JS.opt_ltb _ _) marketData)) in *.
  set (average := JS.div _ _).
  pose proof (above_and_below average 20 ltac:(lra)) as Hvol.
  change (- (20))%Q with (-20)%Q in Hvol.
  assert (Hboth :
    JS.gtb (count_of gainers) (count_of (length marketData) * 0.6)
    && JS.gtb (count_of losers) (count_of (length marketData) * 0.6) = false).
  { destruct (JS.gtb (count_of gainers) _) eqn:G; [|reflexivity].
    destruct (JS.gtb (count_of losers) _) eqn:L; [|reflexivity].
    apply threshold_60_percent in G. apply threshold_60_percent in L.
    unfold Spec.more_than_60_percent in *. lia. }
  split; [|split; [|split]].
  - rewrite !In_push_if. cbn [In]. intros (H1 & H2).
    destruct (JS.gtb (count_of gainers) _), (JS.gtb (count_of losers) _);
      try discriminate Hboth;
      repeat match goal with
             | H : _ \/ _ |- _ => destruct H
             | H : _ /\ _ |- _ => destruct H
             end; try contradiction; discriminate.
  - rewrite !In_push_if. cbn [In]. intros (H1 & H2).
    destruct (JS.num_gtb average 20), (JS.num_ltb average (-20));
      try discriminate Hvol;
      repeat match goal with
             | H : _ \/ _ |- _ => destruct H
             | H : _ /\ _ |- _ => destruct H
             end; try contradiction; discriminate.
  - rewrite !length_push_if. cbn [length].
    destruct (JS.num_gtb average 20), (JS.num_ltb average (-20));
      try discriminate Hvol;
      destruct (JS.gtb (count_of gainers) _), (JS.gtb (count_of losers) _);
      try discriminate Hboth; lia.
  - intros ->. reflexivity.
Qed.

Lemma medium_term_entries (marketData : list MarketRecord) :
  let avg := Double.div (Double.sum_field percentChange7d marketData)
                        (JS.Fin (count_of (length marketData))) in
  (In "Strong bullish week" (Double.extractMediumTermTrends marketData)
     <-> JS.num_gtb avg 10 = true)
  /\ (In "Bearish weekly trend" (Double.extractMediumTermTrends marketData)
     <-> JS.num_ltb avg (-10) = true).
Proof.
  intros avg. unfold Double.extractMediumTermTrends. fold avg.
  rewrite !In_push_if. cbn [In]. split; split.
  - intros [[[] | [H _]] | [_ H]]; [exact H | discriminate H].
  - intros H. left. right. now split.
  - intros [[[] | [_ H]] | [H _]]; [discriminate H | exact H].
  - intros H. right. now split.
Qed.

(** X6.  In the arithmetic of doubles, for a batch an array can hold: when
    no 7-day change (a missing one counting as 0) is above 10, "Strong
    bullish week" is not in the medium-term list, and when none is below
    -10, "Bearish weekly trend" is not; when the batch is not empty and
    every change is at least 11, "Strong bullish week" is in the list, and
    when every change is at most -11, "Bearish weekly trend" is.  The two
    never occur together, and an empty batch gives an empty list. *)
Theorem medium_term_by_bounds (marketData : list MarketRecord) :
  Z.of_nat (length marketData) < 2 ^ 32 ->
  let change := fun t => JS.or_default (percentChange7d t) 0 in
  let trends := Double.extractMediumTermTrends marketData in
  ((forall t, In t marketData -> (change t <= 10)%Q) ->
   ~ In "Strong bullish week" trends)
  /\ ((forall t, In t marketData -> (-10 <= change t)%Q) ->
      ~ In "Bearish weekly trend" trends)
  /\ (marketData <> [] -> (forall t, In t marketData -> (11 <= change t)%Q) ->
      In "Strong bullish week" trends)
  /\ (marketData <> [] -> (forall t, In t marketData -> (change t <= -11)%Q) ->
      In "Bearish weekly trend" trends)
  /\ ~ (In "Strong bullish week" trends /\ In "Bearish weekly trend" trends)
  /\ (marketData = [] -> trends = []).
Proof.
  intros Hlen change trends.
  destruct (medium_term_entries marketData) as (Hup & Hdown).
  fold trends in Hup, Hdown.
  set (n := Z.of_nat (length marketData)) in *.
  unfold Double.sum_field in Hup, Hdown.
  change (count_of (length marketData)) with (inject_Z n) in *.
  assert (Hzero : Double.at_most (inject_Z 0) (JS.Fin 0) /\ Double.at_least (inject_Z 0) (JS.Fin 0)).
  { split; cbn; apply Qle_refl. }
  assert (Hn : 0 <= n) by (unfold n; lia).
  assert (Hbound : forall m, Z.abs m <= 11 -> Z.abs m * (0 + n) < 2 ^ 53).
  { intros m Hm. assert (2 ^ 53 = 2 ^ 32 * 2 ^ 21) by reflexivity. nia. }
  assert (Hne : marketData <> [] -> 0 < n).
  { intros Hne. unfold n. destruct marketData; [contradiction | cbn; lia]. }
  repeat split.
  - intros Hall Hin. apply Hup in Hin.
    destruct (Z.eq_dec n 0) as [Z0 | NZ].
    + unfold n in Z0. destruct marketData; [|cbn in Z0; lia].
      vm_compute in Hin. discriminate Hin.
    + pose proof (sum_at_most 10 percentChange7d marketData (JS.Fin 0) 0 (Z.le_refl 0)
                    (Hbound 10 ltac:(lia)) (proj1 Hzero) Hall) as Hs.
      fold n in Hs. rewrite Z.add_0_l in Hs.
      apply (average_at_most 10 n) in Hs; [|lia | lia].
      rewrite (at_most_not_above 10 10 _ (Qle_refl _) Hs) in Hin. discriminate Hin.
  - intros Hall Hin. apply Hdown in Hin.
    destruct (Z.eq_dec n 0) as [Z0 | NZ].
    + unfold n in Z0. destruct marketData; [|cbn in Z0; lia].
      vm_compute in Hin. discriminate Hin.
    + pose proof (sum_at_least (-10) percentChange7d marketData (JS.Fin 0) 0 (Z.le_refl 0)
                    (Hbound (-10) ltac:(lia)) (proj2 Hzero) Hall) as Hs.
      fold n in Hs. rewrite Z.add_0_l in Hs.
      apply (average_at_least (-10) n) in Hs; [|lia | lia].
      rewrite (at_least_not_below (-10) (-10) _ (Qle_refl _) Hs) in Hin. discriminate Hin.
  - intros Hne' Hall. apply Hup. specialize (Hne Hne').
    pose proof (sum_at_least 11 percentChange7d marketData (JS.Fin 0) 0 (Z.le_refl 0)
                  (Hbound 11 ltac:(lia)) (proj2 Hzero) Hall) as Hs.
    fold n in Hs. rewrite Z.add_0_l in Hs.
    apply (average_at_least 11 n) in Hs; [|lia | lia].
    apply (at_least_above 11 10); [reflexivity | exact Hs].
  - intros Hne' Hall. apply Hdown. specialize (Hne Hne').
    pose proof (sum_at_most (-11) percentChange7d marketData (JS.Fin 0) 0 (Z.le_refl 0)
                  (Hbound (-11) ltac:(lia)) (proj1 Hzero) Hall) as Hs.
    fold n in Hs. rewrite Z.add_0_l in Hs.
    apply (average_at_most (-11) n) in Hs; [|lia | lia].
    apply (at_most_below (-11) (-10)); [reflexivity | exact Hs].
  - intros (H1 & H2). apply Hup in H1. apply Hdown in H2.
    exact (not_above_and_below _ H1 H2).
  - intros ->. reflexivity.
Qed.

Lemma medium_term_by_bounds_witness :
  In "Strong bullish week" (Double.extractMediumTermTrends (Sample.week [12%Q; (23 # 2)%Q])).
Proof.
  destruct (medium_term_by_bounds (Sample.week [12%Q; (23 # 2)%Q])) as (_ & _ & Hup & _).
  - reflexivity.
  - apply Hup; [discriminate|].
    intros t [<- | [<- | []]]; vm_compute; discriminate.
Defined.

(** 7-day changes of 0.02 and 19.98, as doubles: their rounded sum is
    exactly 20 and the average exactly 10, so the list is empty; the exact
    sum of the two doubles is above 20. *)
Lemma medium_term_at_the_threshold :
  Double.extractMediumTermTrends
    (Sample.week [Double.binary64 (2 # 100); Double.binary64 (1998 # 100)]) = []
  /\ extractMediumTermTrends
       (Sample.week [Double.binary64 (2 # 100); Double.binary64 (1998 # 100)])
     = ["Strong bullish week"].
Proof. split; vm_compute; reflexivity. Qed.

Lemma filter_nil_iff (f : MarketRecord -> bool) (l : list MarketRecord) :
  List.filter f l = [] <-> forall t, In t l -> f t = false.
Proof.
  induction l as [| t l IH]; cbn.
  - split; [intros _ t [] | reflexivity].
  - destruct (f t) eqn:E.
    + split; [discriminate|]. intros H. specialize (H t (or_introl eq_refl)). congruence.
    + rewrite IH. split.
      * intros H t' [<- | Hin]; [exact E | apply H, Hin].
      * intros H t' Hin. apply H. now right.
Qed.

Lemma opt_gtb_false (x : option Q) (c : Q) :
  JS.opt_gtb x c = false <-> forall q, x = Some q -> (q <= c)%Q.
Proof.
  unfold JS.opt_gtb. destruct x as [q|].
  - rewrite gtb_false. split.
    + intros H q' [= <-]. exact H.
    + intros H. apply H. reflexivity.
  - split; [intros _ q [=] | reflexivity].
Qed.

(** X7.  The emerging-trend list is empty exactly when no record has a
    social-mention growth above 50 and none has more than 10 development
    events; it never has more than two entries. *)
Theorem emerging_trends_empty_iff (marketData : list MarketRecord) :
  (identifyEmergingTrends marketData = []
   <-> (forall t q, In t marketData -> socialMentionsChange24h t = Some q -> (q <= 50)%Q)
       /\ (forall t q, In t marketData -> githubActivity24h t = Some q -> (q <= 10)%Q))
  /\ (length (identifyEmergingTrends marketData) <= 2)%nat.
Proof.
  unfold identifyEmergingTrends.
  set (social := List.filter (fun t => JS.opt_gtb (socialMentionsChange24h t) 50) marketData).
  set (active := List.filter (fun t => JS.opt_gtb (githubActivity24h t) 10) marketData).
  assert (Hs : social = [] <->
               forall t q, In t marketData -> socialMentionsChange24h t = Some q -> (q <= 50)%Q).
  { unfold social. rewrite filter_nil_iff. split.
    - intros H t q Hin. apply opt_gtb_false. now apply H.
    - intros H t Hin. apply opt_gtb_false. intros q. now apply H. }
  assert (Ha : active = [] <->
               forall t q, In t marketData -> githubActivity24h t = Some q -> (q <= 10)%Q).
  { unfold active. rewrite filter_nil_iff. split.
    - intros H t q Hin. apply opt_gtb_false. now apply H.
    - intros H t Hin. apply opt_gtb_false. intros q. now apply H. }
  rewrite <- Hs, <- Ha. rewrite !length_map.
  split.
  - destruct social, active; cbn; split; try discriminate; auto.
    + intros (_ & H). discriminate H.
    + intros (H & _). discriminate H.
    + intros (H & _). discriminate H.
  - rewrite !length_push_if. cbn [length].
    destruct (0 <? length social)%nat, (0 <? length active)%nat; lia.
Qed.

(** ** The overview's leader *)

Lemma sort_insert_Permutation (x : MarketRecord) (l : list MarketRecord) :
  Permutation (sort_insert x l) (x :: l).
Proof.
  induction l as [| y l IH]; cbn [sort_insert]; [reflexivity|].
  destruct (percentChange24h x) as [px|]; [|reflexivity].
  destruct (percentChange24h y) as [py|]; [|reflexivity].
  destruct (JS.ltb px py); [|reflexivity].
  rewrite IH. apply perm_swap.
Qed.

Lemma sort_by_change_Permutation (l : list MarketRecord) :
  Permutation (sort_by_change l) l.
Proof.
  unfold sort_by_change. induction l as [| x l IH]; cbn [fold_right]; [reflexivity|].
  rewrite sort_insert_Permutation. now rewrite IH.
Qed.

Lemma HdRel_sort_insert (y x : MarketRecord) (l : list MarketRecord) :
  not_below y x -> HdRel not_below y l -> HdRel not_below y (sort_insert x l).
Proof.
  intros Hyx Hyl. destruct l as [| z l]; cbn [sort_insert]; [constructor; exact Hyx|].
  apply HdRel_inv in Hyl.
  destruct (percentChange24h x) as [px|]; [|constructor; exact Hyx].
  destruct (percentChange24h z) as [pz|]; [|constructor; exact Hyx].
  destruct (JS.ltb px pz); constructor; assumption.
Qed.

Lemma sort_insert_Sorted (x : MarketRecord) (l : list MarketRecord) :
  percentChange24h x <> None ->
  Forall (fun t => percentChange24h t <> None) l ->
  Sorted not_below l -> Sorted not_below (sort_insert x l).
Proof.
  intros Hx Hall Hsorted. induction l as [| y l IH]; cbn [sort_insert].
  - repeat constructor.
  - apply List.Forall_cons_iff in Hall as (Hy & Hall).
    apply Sorted_inv in Hsorted as (Hsorted & Hhd).
    destruct (percentChange24h x) as [px|] eqn:Ex; [|contradiction].
    destruct (percentChange24h y) as [py|] eqn:Ey; [|contradiction].
    destruct (ltb_spec px py) as [Lt | Ge].
    + constructor; [apply IH; assumption|].
      apply HdRel_sort_insert; [|exact Hhd].
      exists py, px. repeat split; auto. lra.
    + constructor; [constructor; assumption|].
      constructor. exists px, py. repeat split; auto. lra.
Qed.

Lemma sort_by_change_Sorted (l : list MarketRecord) :
  Forall (fun t => percentChange24h t <> None) l ->
  Sorted not_below (sort_by_change l).
Proof.
  unfold sort_by_change. induction 1 as [| x l Hx Hall IH]; cbn [fold_right].
  - constructor.
  - apply sort_insert_Sorted; [exact Hx | | exact IH].
    rewrite List.Forall_forall in *. intros t Hin. apply Hall.
    apply (Permutation_in _ (sort_by_change_Permutation l)). exact Hin.
Qed.

Lemma not_below_trans : Relations_1.Transitive not_below.
Proof.
  intros a b c (pa & pb & Ha & Hb & Hab) (pb' & pc & Hb' & Hc & Hbc).
  rewrite Hb in Hb'. injection Hb' as <-.
  exists pa, pc. repeat split; auto. lra.
Qed.

Lemma append_assoc (a b c : string) : (a +:+ b) +:+ c = a +:+ (b +:+ c).
Proof.
  induction a as [| x a IH]; [reflexivity|].
  rewrite !append_String. now rewrite IH.
Qed.

(** X8.  For a non-empty batch whose records all carry a 24h change, the
    overview is produced and names a record of the batch whose change no
    other record exceeds, with that change printed to two decimals; the
    batch it leaves behind is a reordering of the one it was given. *)
Theorem overview_names_top_gainer (number_text : Q -> string)
    (marketData : list MarketRecord) (snapshot : MarketSentiment) :
  marketData <> [] ->
  Forall (fun t => percentChange24h t <> None) marketData ->
  exists leader change before after,
    In leader marketData
    /\ percentChange24h leader = Some change
    /\ (forall t q, In t marketData -> percentChange24h t = Some q -> (q <= change)%Q)
    /\ snd (generateMarketOverview number_text marketData snapshot)
       = Returned (before +:+ symbol leader +:+ " leading gains at "
                   +:+ toFixed2 number_text change +:+ after)
    /\ Permutation (fst (generateMarketOverview number_text marketData snapshot))
                   marketData.
Proof.
  intros Hne Hall.
  pose proof (sort_by_change_Permutation marketData) as Hperm.
  pose proof (sort_by_change_Sorted marketData Hall) as Hsorted.
  apply (Sorted_StronglySorted not_below_trans) in Hsorted.
  unfold generateMarketOverview. cbn [fst snd].
  destruct (sort_by_change marketData) as [| leader rest] eqn:Es.
  { apply Permutation_nil in Hperm. contradiction. }
  assert (Hin : In leader marketData).
  { apply (Permutation_in _ Hperm). now left. }
  rewrite List.Forall_forall in Hall.
  destruct (percentChange24h leader) as [change|] eqn:Ec; [|exfalso; now apply (Hall leader Hin)].
  cbn [firstn]. rewrite Ec.
  exists leader, change,
    ("Market is showing "
     +:+ (if JS.opt_gtb (fearGreedIndex snapshot) 65 then "bullish"
          else if JS.opt_ltb (fearGreedIndex snapshot) 35 then "bearish"
          else "neutral")
     +:+ " signals with "),
    ("% in 24h. Volume trends indicate "
     +:+ or_string (volumeTrend snapshot) "stable" +:+ " activity.").
  split; [exact Hin|]. split; [exact Ec|]. split; [|split; [|exact Hperm]].
  - intros t q Ht Hq.
    apply (Permutation_in _ (Permutation_sym Hperm)) in Ht.
    destruct Ht as [<- | Ht]; [rewrite Ec in Hq; injection Hq as <-; lra|].
    apply StronglySorted_inv in Hsorted as (_ & Hhead).
    rewrite List.Forall_forall in Hhead.
    destruct (Hhead t Ht) as (pa & pb & Ha & Hb & Hle).
    rewrite Ec in Ha. injection Ha as <-. rewrite Hq in Hb. injection Hb as <-. exact Hle.
  - rewrite !append_assoc. reflexivity.
Qed.

Lemma overview_names_top_gainer_witness :
  exists leader change before after,
    In leader Sample.scenario
    /\ percentChange24h leader = Some change
    /\ (forall t q, In t Sample.scenario -> percentChange24h t = Some q -> (q <= change)%Q)
    /\ snd (generateMarketOverview (fun _ => "1e+21") Sample.scenario Sample.calm)
       = Returned (before +:+ symbol leader +:+ " leading gains at "
                   +:+ toFixed2 (fun _ => "1e+21") change +:+ after)
    /\ Permutation (fst (generateMarketOverview (fun _ => "1e+21") Sample.scenario
                           Sample.calm))
                   Sample.scenario.
Proof.
  apply (overview_names_top_gainer (fun _ => "1e+21") Sample.scenario Sample.calm).
  - discriminate.
  - repeat (apply List.Forall_cons; [discriminate|]). apply List.Forall_nil.
Defined.

(** ** More on the cache *)

(** X9.  When the provider answers with an empty batch, the recomputation
    throws a TypeError although both fetches succeeded: the call throws
    after one fetch round and the cache keeps its state. *)
Theorem empty_batch_blocks_analysis `{Externals} (w : World) (x1 x2 : Ext)
    (snapshot : MarketSentiment) :
  Spec.stale (service w) (clock (ext w)) ->
  getMarketData analysis_symbols (ext w) = (Returned [], x1) ->
  getMarketSentiment x1 = (Returned snapshot, x2) ->
  exists msg,
    getMarketAnalysis w
    = (Thrown (TypeError msg),
       {| ext := x2; service := service w; calls := calls w ++ Spec.fetch_round |}).
Proof.
  intros Hs Hm Hsent.
  assert (Hg : generateMarketAnalysis w
               = (Thrown (TypeError "Cannot read properties of undefined (reading 'symbol')"),
                  {| ext := x2; service := service w;
                     calls := calls w ++ Spec.fetch_round |})).
  { unfold generateMarketAnalysis, getOnChainMetrics. step_monad.
    rewrite Hm. step_monad. rewrite Hsent. step_monad.
    unfold generateMarketOverview. cbn. rewrite <- app_assoc. reflexivity. }
  eexists. apply (getMarketAnalysis_stale w _ _ Hs Hg).
Qed.

Lemma empty_batch_blocks_analysis_witness :
  exists msg w1,
    getMarketAnalysis (Sample.start [Returned []] false) = (Thrown (TypeError msg), w1)
    /\ service w1 = initial_service.
Proof.
  destruct (empty_batch_blocks_analysis (Sample.start [Returned []] false)
              {| Sample.time := 1100; Sample.market_answers := [];
                 Sample.recorder_fails := false |}
              {| Sample.time := 1200; Sample.market_answers := [];
                 Sample.recorder_fails := false |}
              Sample.calm) as (msg & Hcall).
  - left. reflexivity.
  - reflexivity.
  - reflexivity.
  - exists msg. eexists. split; [exact Hcall | reflexivity].
Defined.

(** X10.  The cache is never half-filled: if it holds a snapshot exactly
    when it holds a timestamp before a call, it does so after the call,
    whether the call returns or throws. *)
Theorem cache_stays_consistent `{Externals} (w w1 : World)
    (r : outcome (option MarketAnalysis)) :
  cache_consistent (service w) ->
  getMarketAnalysis w = (r, w1) ->
  cache_consistent (service w1).
Proof.
  intros Hinv Hcall.
  destruct (fresh_or_stale (service w) (clock (ext w))) as [(a & Hf) | Hs].
  - rewrite (getMarketAnalysis_fresh w a Hf) in Hcall. injection Hcall as _ <-. exact Hinv.
  - destruct (generateMarketAnalysis w) as [r' w'] eqn:Hg.
    rewrite (getMarketAnalysis_stale w w' r' Hs Hg) in Hcall.
    destruct r' as [a | e]; injection Hcall as _ <-.
    + unfold cache_consistent. cbn. split; discriminate.
    + destruct (generateMarketAnalysis_effect w w' _ Hg) as (-> & _). exact Hinv.
Qed.

Lemma cache_stays_consistent_witness :
  cache_consistent
    (service (snd (getMarketAnalysis (Sample.start [Returned Sample.scenario] false)))).
Proof.
  apply (cache_stays_consistent (Sample.start [Returned Sample.scenario] false) _
           (fst (getMarketAnalysis (Sample.start [Returned Sample.scenario] false)))).
  - split; reflexivity.
  - apply surjective_pairing.
Defined.

(** X11.  After a call that recomputed, the snapshot is served unchanged,
    with no fetch, from every world whose clock reads at most five minutes
    more than at the end of the recomputation, whatever else changed
    outside; once the clock reads more than that, the cache is stale and the
    next call makes a fetch round. *)
Theorem refresh_opens_five_minute_window `{Externals} (w w1 w2 : World)
    (a : MarketAnalysis) :
  Spec.stale (service w) (clock (ext w)) ->
  getMarketAnalysis w = (Returned (Some a), w1) ->
  service w2 = service w1 ->
  (clock (ext w2) - clock (ext w1) <= 5 * 60 * 1000 ->
     getMarketAnalysis w2 = (Returned (Some a), w2))
  /\ (5 * 60 * 1000 < clock (ext w2) - clock (ext w1) ->
     forall r w3, getMarketAnalysis w2 = (r, w3) ->
       calls w3 = calls w2 ++ Spec.fetch_round).
Proof.
  intros Hs Hcall Hsvc.
  destruct (generateMarketAnalysis w) as [r' w'] eqn:Hg.
  rewrite (getMarketAnalysis_stale w w' r' Hs Hg) in Hcall.
  destruct r' as [a' | e]; [|discriminate Hcall].
  injection Hcall as <- <-. cbn [ext service] in *.
  split.
  - intros Hage. apply getMarketAnalysis_fresh. rewrite Hsvc.
    split; [reflexivity|]. exists (clock (ext w')). split; [reflexivity | exact Hage].
  - intros Hage r w3 Hcall2.
    assert (Hstale : Spec.stale (service w2) (clock (ext w2))).
    { right. right. exists (clock (ext w')). rewrite Hsvc. split; [reflexivity | exact Hage]. }
    destruct (generateMarketAnalysis w2) as [r2 w2'] eqn:Hg2.
    rewrite (getMarketAnalysis_stale w2 w2' r2 Hstale Hg2) in Hcall2.
    destruct (generateMarketAnalysis_effect w2 w2' _ Hg2) as (_ & Hcalls).
    destruct r2; injection Hcall2 as _ <-; exact Hcalls.
Qed.

Lemma refresh_opens_five_minute_window_witness :
  exists a w1,
    getMarketAnalysis (Sample.start [Returned Sample.scenario] false)
      = (Returned (Some a), w1)
    /\ getMarketAnalysis w1 = (Returned (Some a), w1).
Proof.
  destruct (fst (getMarketAnalysis (Sample.start [Returned Sample.scenario] false)))
    as [[a |] | e] eqn:Er;
    [| vm_compute in Er; discriminate Er | vm_compute in Er; discriminate Er].
  assert (Hcall : getMarketAnalysis (Sample.start [Returned Sample.scenario] false)
                  = (Returned (Some a),
                     snd (getMarketAnalysis (Sample.start [Returned Sample.scenario] false)))).
  { rewrite <- Er. apply surjective_pairing. }
  exists a, (snd (getMarketAnalysis (Sample.start [Returned Sample.scenario] false))).
  split; [exact Hcall|].
  destruct (refresh_opens_five_minute_window
              (Sample.start [Returned Sample.scenario] false)
              (snd (getMarketAnalysis (Sample.start [Returned Sample.scenario] false)))
              (snd (getMarketAnalysis (Sample.start [Returned Sample.scenario] false)))
              a (or_introl eq_refl) Hcall eq_refl) as (Hwindow & _).
  apply Hwindow. lia.
Defined.

(** X12.  The sentiment the cache serves after recomputing is the
    provider's, with 0 for a missing index and "neutral" for a missing label
    or trend; the provider's volume trend is not kept. *)
Theorem cached_sentiment_round_trip `{Externals} (w w1 : World) (x1 x2 : Ext)
    (data : list MarketRecord) (snapshot result : MarketSentiment) :
  Spec.stale (service w) (clock (ext w)) ->
  getMarketData analysis_symbols (ext w) = (Returned data, x1) ->
  getMarketSentiment x1 = (Returned snapshot, x2) ->
  MarketIntelligence.getMarketSentiment w = (Returned result, w1) ->
  result = {| fearGreedIndex := Some (nullish (fearGreedIndex snapshot) 0%Q);
              fearGreedLabel := Some (nullish (fearGreedLabel snapshot) "neutral");
              marketTrend := Some (nullish (marketTrend snapshot) "neutral");
              volumeTrend := None |}.
Proof.
  intros Hs Hm Hsent Hcall.
  unfold MarketIntelligence.getMarketSentiment, bind in Hcall.
  destruct (generateMarketAnalysis w) as [r' w'] eqn:Hg.
  rewrite (getMarketAnalysis_stale w w' r' Hs Hg) in Hcall.
  destruct r' as [a | e]; [|discriminate Hcall].
  unfold ret in Hcall. injection Hcall as <- _.
  unfold generateMarketAnalysis, getOnChainMetrics in Hg. step_monad.
  rewrite Hm in Hg. step_monad. rewrite Hsent in Hg. step_monad.
  destruct (generateMarketOverview number_toString data snapshot) as [sorted [text | e]];
    step_monad; [|discriminate Hg].
  injection Hg as <- _. reflexivity.
Qed.

Lemma cached_sentiment_round_trip_witness :
  fst (MarketIntelligence.getMarketSentiment
         (Sample.start [Returned Sample.scenario] false))
  = Returned {| fearGreedIndex := Some 50%Q; fearGreedLabel := Some "Neutral";
                marketTrend := Some "neutral"; volumeTrend := None |}.
Proof.
  destruct (MarketIntelligence.getMarketSentiment
              (Sample.start [Returned Sample.scenario] false)) as [[result | e] w1] eqn:E;
    [| vm_compute in E; discriminate E].
  cbn [fst]. f_equal.
  apply (cached_sentiment_round_trip
           (Sample.start [Returned Sample.scenario] false) w1
           {| Sample.time := 1100; Sample.market_answers := [];
              Sample.recorder_fails := false |}
           {| Sample.time := 1200; Sample.market_answers := [];
              Sample.recorder_fails := false |}
           Sample.scenario Sample.calm result).
  - left. reflexivity.
  - reflexivity.
  - reflexivity.
  - exact E.
Defined.

(** X13.  For a non-empty token, the token-specific part of the
    comprehensive analysis is what [analyzePriceTrend] returns for that
    token from the same state, never [undefined]; without a token, or with
    the empty one, the result carries no token-specific part. *)
Theorem comprehensive_agrees_with_price_trend `{Externals} (token : string)
    (w w1 : World) (c : option MarketIntelligence.Comprehensive) :
  token <> EmptyString ->
  MarketIntelligence.getComprehensiveAnalysis (Some token) w = (Returned c, w1) ->
  (exists full v,
      c = Some full
      /\ MarketIntelligence.tokenSpecific full = Some v
      /\ v <> VUndefined
      /\ analyzePriceTrend token w = (Returned v, w1)
      /\ getMarketAnalysis w = (Returned (Some (MarketIntelligence.analysis full)), w1))
  /\ (forall plain w2,
        MarketIntelligence.getComprehensiveAnalysis None w = (Returned (Some plain), w2)
        \/ MarketIntelligence.getComprehensiveAnalysis (Some EmptyString) w
           = (Returned (Some plain), w2) ->
        MarketIntelligence.tokenSpecific plain = None).
Proof.
  intros Htoken Hcall. apply String.eqb_neq in Htoken.
  unfold MarketIntelligence.getComprehensiveAnalysis, analyzePriceTrend, bind in *.
  cbn [nullish] in *. rewrite Htoken in Hcall. cbn [negb] in Hcall.
  destruct (getMarketAnalysis w) as [[[a |] | e] w'] eqn:Hg; try discriminate Hcall.
  unfold ret in Hcall. injection Hcall as <- <-.
  split.
  - exists {| MarketIntelligence.analysis := a;
              MarketIntelligence.tokenSpecific :=
                Some (or_null (signals_get (technicalSignals a) token)) |},
           (or_null (signals_get (technicalSignals a) token)).
    repeat split.
    destruct (signals_get (technicalSignals a) token) as [| | s | s | i | name];
      cbn; try discriminate.
    destruct (String.eqb s EmptyString); discriminate.
  - cbn [negb String.eqb]. unfold ret. intros plain w2 [[= <- _] | [= <- _]]; reflexivity.
Qed.

Lemma comprehensive_agrees_with_price_trend_witness :
  exists c w1,
    MarketIntelligence.getComprehensiveAnalysis (Some "SOL")
      (Sample.start [Returned Sample.scenario] false) = (Returned c, w1)
    /\ exists full v,
         c = Some full
         /\ MarketIntelligence.tokenSpecific full = Some v
         /\ analyzePriceTrend "SOL" (Sample.start [Returned Sample.scenario] false)
            = (Returned v, w1).
Proof.
  destruct (MarketIntelligence.getComprehensiveAnalysis (Some "SOL")
              (Sample.start [Returned Sample.scenario] false))
    as [[c | e] w1] eqn:E; [| vm_compute in E; discriminate E].
  exists c, w1. split; [reflexivity|].
  destruct (comprehensive_agrees_with_price_trend "SOL"
              (Sample.start [Returned Sample.scenario] false) w1 c
              ltac:(discriminate) E) as ((full & v & H1 & H2 & _ & H4 & _) & _).
  exists full, v. auto.
Defined.

(** ** Query processing *)

Lemma enrichContext_returns `{Externals} (context : Context) (w : World)
    (x1 x2 : Ext) (data : list MarketRecord) (snapshot : MarketSentiment) :
  getMarketData ["SOL"; "BTC"; "ETH"] (ext w) = (Returned data, x1) ->
  getMarketSentiment x1 = (Returned snapshot, x2) ->
  exists enriched,
    enrichContext context w
    = (Returned enriched,
       {| ext := x2; service := service w;
          calls := calls w ++ [CallMarketData ["SOL"; "BTC"; "ETH"]; CallMarketSentiment] |})
    /\ base enriched = context
    /\ sentiment_ enriched = snapshot.
Proof.
  intros Hm Hs. unfold enrichContext. step_monad. rewrite Hm. step_monad.
  rewrite Hs. step_monad. rewrite <- app_assoc. eexists. repeat split.
Qed.

(** X14.  When a fetch of the enrichment step throws, the query processor
    returns the fixed apology with its three suggestions; the language model
    is not called and the cache is not touched.  A failing market fetch also
    skips the sentiment fetch. *)
Theorem failed_enrichment_skips_model `{Externals} (query : string)
    (context : Context) (w : World) :
  (forall e x1,
      getMarketData ["SOL"; "BTC"; "ETH"] (ext w) = (Thrown e, x1) ->
      processQuery query context w
      = (Returned grok_fallback,
         {| ext := x1; service := service w;
            calls := calls w ++ [CallMarketData ["SOL"; "BTC"; "ETH"]] |}))
  /\ (forall data e x1 x2,
      getMarketData ["SOL"; "BTC"; "ETH"] (ext w) = (Returned data, x1) ->
      getMarketSentiment x1 = (Thrown e, x2) ->
      processQuery query context w
      = (Returned grok_fallback,
         {| ext := x2; service := service w;
            calls := calls w ++ [CallMarketData ["SOL"; "BTC"; "ETH"];
                                 CallMarketSentiment] |})).
Proof.
  split.
  - intros e x1 Hm. unfold processQuery, enrichContext. step_monad.
    rewrite Hm. reflexivity.
  - intros data e x1 x2 Hm Hs. unfold processQuery, enrichContext. step_monad.
    rewrite Hm. step_monad. rewrite Hs. step_monad. rewrite <- app_assoc. reflexivity.
Qed.

Lemma failed_enrichment_skips_model_witness :
  processQuery "What is the price of SOL?" (Sample.plain_context false None)
    (Sample.start [Thrown (ExternalError "timeout")] false)
  = (Returned grok_fallback,
     @Build_World Sample.scripted
       {| Sample.time := 1100; Sample.market_answers := [];
          Sample.recorder_fails := false |}
       initial_service
       [CallMarketData ["SOL"; "BTC"; "ETH"]]).
Proof.
  destruct (failed_enrichment_skips_model "What is the price of SOL?"
              (Sample.plain_context false None)
              (Sample.start [Thrown (ExternalError "timeout")] false)) as (Hmarket & _).
  apply (Hmarket (ExternalError "timeout")). reflexivity.
Defined.

(** X15.  For a query of ASCII text that is not market-related the query
    processor leaves the cache as it is and attaches no analysis, whatever
    it returns; when the enrichment and the model succeed it makes exactly
    three outside calls and returns the model's text with the suggestions
    built for it. *)
Theorem plain_query_leaves_cache `{Externals} (query : string) (context : Context)
    (w : World) :
  Spec.ascii_text query ->
  ~ Spec.market_related query ->
  (forall r w1,
      processQuery query context w = (Returned r, w1) ->
      service w1 = service w /\ Grok.analysis r = None)
  /\ (forall data snapshot x1 x2 enriched text rest x3,
      getMarketData ["SOL"; "BTC"; "ETH"] (ext w) = (Returned data, x1) ->
      getMarketSentiment x1 = (Returned snapshot, x2) ->
      fst (enrichContext context w) = Returned enriched ->
      createCompletion enriched query x2 = (Returned {| choices := text :: rest |}, x3) ->
      processQuery query context w
      = (Returned {| Grok.message := text;
                     Grok.suggestions := generateSuggestions query text context;
                     Grok.analysis := None |},
         {| ext := x3; service := service w;
            calls := calls w ++ [CallMarketData ["SOL"; "BTC"; "ETH"];
                                 CallMarketSentiment; CallCompletion] |})).
Proof.
  intros _ Hplain.
  assert (Hq : isMarketRelatedQuery query = false).
  { destruct (isMarketRelatedQuery query) eqn:E; [|reflexivity].
    apply isMarketRelatedQuery_spec in E. contradiction. }
  split.
  - intros r w1. unfold processQuery, enrichContext, enhanceResponse. step_monad.
    destruct (getMarketData ["SOL"; "BTC"; "ETH"] (ext w)) as [[data | e] x1];
      step_monad; [|intros [= <- <-]; auto].
    destruct (getMarketSentiment x1) as [[snapshot | e] x2];
      step_monad; [|intros [= <- <-]; auto].
    match goal with
    | |- context [createCompletion ?c ?q ?x] =>
        destruct (createCompletion c q x) as [[completion | e] x3]
    end; step_monad; [|intros [= <- <-]; auto].
    destruct (choices completion) as [| text rest]; step_monad;
      [intros [= <- <-]; auto|].
    rewrite Hq. step_monad. intros [= <- <-]. auto.
  - intros data snapshot x1 x2 enriched text rest x3 Hm Hs Henriched Hc.
    destruct (enrichContext_returns context w x1 x2 data snapshot Hm Hs)
      as (enriched' & He & Hbase & _).
    rewrite He in Henriched. cbn [fst] in Henriched. injection Henriched as ->.
    unfold processQuery, enhanceResponse. step_monad. rewrite He. step_monad.
    rewrite Hc. step_monad. rewrite Hq. step_monad.
    rewrite Hbase, <- app_assoc. reflexivity.
Qed.

Lemma plain_query_leaves_cache_witness :
  exists r w1,
    processQuery "hello" (Sample.plain_context false None)
      (Sample.start [Returned Sample.scenario] false) = (Returned r, w1)
    /\ service w1 = initial_service /\ Grok.analysis r = None.
Proof.
  destruct (processQuery "hello" (Sample.plain_context false None)
              (Sample.start [Returned Sample.scenario] false))
    as [[r | e] w1] eqn:E; [| vm_compute in E; discriminate E].
  exists r, w1. split; [reflexivity|].
  destruct (plain_query_leaves_cache "hello" (Sample.plain_context false None)
              (Sample.start [Returned Sample.scenario] false)) as (Hany & _).
  - reflexivity.
  - intros Hm. apply isMarketRelatedQuery_spec in Hm. vm_compute in Hm. discriminate Hm.
  - apply (Hany r w1 E).
Defined.

(** X16.  When the enrichment succeeds but the model call throws, or its
    completion has no choice, the query processor returns the fixed apology
    after exactly three outside calls, with the cache untouched. *)
Theorem model_failure_gives_apology `{Externals} (query : string) (context : Context)
    (w : World) (data : list MarketRecord) (snapshot : MarketSentiment)
    (x1 x2 x3 : Ext) (enriched : EnrichedContext) :
  getMarketData ["SOL"; "BTC"; "ETH"] (ext w) = (Returned data, x1) ->
  getMarketSentiment x1 = (Returned snapshot, x2) ->
  fst (enrichContext context w) = Returned enriched ->
  (exists e, createCompletion enriched query x2 = (Thrown e, x3))
  \/ createCompletion enriched query x2 = (Returned {| choices := [] |}, x3) ->
  processQuery query context w
  = (Returned grok_fallback,
     {| ext := x3; service := service w;
        calls := calls w ++ [CallMarketData ["SOL"; "BTC"; "ETH"];
                             CallMarketSentiment; CallCompletion] |}).
Proof.
  intros Hm Hs Henriched Hc.
  destruct (enrichContext_returns context w x1 x2 data snapshot Hm Hs)
    as (enriched' & He & _).
  rewrite He in Henriched. cbn [fst] in Henriched. injection Henriched as ->.
  unfold processQuery, enhanceResponse. step_monad. rewrite He. step_monad.
  destruct Hc as [(e & Hc) | Hc]; rewrite Hc; step_monad;
    rewrite <- app_assoc; reflexivity.
Qed.

(** X17.  For a market-related query whose enrichment and model call
    succeeded, the reply carries the model's text together with the cached
    analysis and the provider's sentiment when the cache delivers; when the
    cache's recomputation throws, the model's text is dropped and the fixed
    apology is returned. *)
Theorem market_query_analysis_or_apology `{Externals} (query : string)
    (context : Context) (w : World) (data : list MarketRecord)
    (snapshot : MarketSentiment) (x1 x2 x3 : Ext) (enriched : EnrichedContext)
    (text : option string) (rest : list (option string)) :
  Spec.market_related query ->
  getMarketData ["SOL"; "BTC"; "ETH"] (ext w) = (Returned data, x1) ->
  getMarketSentiment x1 = (Returned snapshot, x2) ->
  fst (enrichContext context w) = Returned enriched ->
  createCompletion enriched query x2 = (Returned {| choices := text :: rest |}, x3) ->
  let asked :=
    {| ext := x3; service := service w;
       calls := calls w ++ [CallMarketData ["SOL"; "BTC"; "ETH"];
                            CallMarketSentiment; CallCompletion] |} in
  (forall current w1,
      getMarketAnalysis asked = (Returned current, w1) ->
      processQuery query context w
      = (Returned {| Grok.message := text;
                     Grok.suggestions := generateSuggestions query text context;
                     Grok.analysis :=
                       Some {| Grok.marketContext := current;
                               Grok.sentiment := snapshot |} |},
         w1))
  /\ (forall e w1,
      getMarketAnalysis asked = (Thrown e, w1) ->
      processQuery query context w = (Returned grok_fallback, w1)).
Proof.
  intros Hq Hm Hs Henriched Hc asked.
  apply isMarketRelatedQuery_spec in Hq.
  destruct (enrichContext_returns context w x1 x2 data snapshot Hm Hs)
    as (enriched' & He & Hbase & Hsent).
  rewrite He in Henriched. cbn [fst] in Henriched. injection Henriched as ->.
  assert (Hrun : forall r w1,
             getMarketAnalysis asked = (r, w1) ->
             processQuery query context w
             = match r with
               | Returned current =>
                   (Returned {| Grok.message := text;
                                Grok.suggestions := generateSuggestions query text context;
                                Grok.analysis :=
                                  Some {| Grok.marketContext := current;
                                          Grok.sentiment := snapshot |} |}, w1)
               | Thrown _ => (Returned grok_fallback, w1)
               end).
  { intros r w1 Hcall.
    unfold processQuery, enhanceResponse. step_monad. rewrite He. step_monad.
    rewrite Hc. step_monad. rewrite Hq. step_monad.
    rewrite <- app_assoc. cbn [app]. fold asked. rewrite Hcall.
    destruct r; [rewrite Hbase, Hsent|]; reflexivity. }
  split.
  - intros current w1 Hcall. apply (Hrun _ _ Hcall).
  - intros e w1 Hcall. apply (Hrun _ _ Hcall).
Qed.

Lemma model_failure_gives_apology_witness :
  exists w1,
    processQuery "hello" (Sample.plain_context false None) Mute.start
    = (Returned grok_fallback, w1).
Proof.
  eexists.
  eapply (model_failure_gives_apology "hello" (Sample.plain_context false None)
            Mute.start [] Sample.calm tt tt tt).
  - reflexivity.
  - reflexivity.
  - reflexivity.
  - right. reflexivity.
Defined.

Lemma market_query_analysis_or_apology_witness :
  exists w1,
    processQuery "price?" (Sample.plain_context false None)
      (Sample.start [Returned Sample.scenario] false)
    = (Returned grok_fallback, w1).
Proof.
  destruct (market_query_analysis_or_apology "price?" (Sample.plain_context false None)
              (Sample.start [Returned Sample.scenario] false)
              Sample.scenario Sample.calm
              {| Sample.time := 1100; Sample.market_answers := [];
                 Sample.recorder_fails := false |}
              {| Sample.time := 1200; Sample.market_answers := [];
                 Sample.recorder_fails := false |}
              {| Sample.time := 1200; Sample.market_answers := [];
                 Sample.recorder_fails := false |}
              {| base := Sample.plain_context false None;
                 marketData_ := Sample.scenario; sentiment_ := Sample.calm;
                 chainActivity :=
                   {| dailyActiveUsers := "1.2M"; chainTotalValueLocked := "$845M";
                      averageBlockTime := "400ms"; dailyTransactions := "24.5M" |};
                 timestamp := 1200 |}
              (Some "ok") []) as (_ & Hthrown).
  - apply isMarketRelatedQuery_spec. reflexivity.
  - reflexivity.
  - reflexivity.
  - reflexivity.
  - reflexivity.
  - eexists. eapply Hthrown. vm_compute. reflexivity.
Defined.

(** ** More on suggestions *)

(** X18.  For a query of ASCII text, an educational suggestion is shown
    only when the query is not market-related and no wallet is connected:
    then a beginner gets "Explain blockchain basics" and an advanced user
    "Show advanced trading metrics".  The list never repeats an item, and it
    is empty exactly when the query is not market-related, no wallet is
    connected and the level is neither beginner nor advanced. *)
Theorem educational_suggestion_only_alone (query : string) (response : option string)
    (context : Context) :
  Spec.ascii_text query ->
  (In "Explain blockchain basics" (generateSuggestions query response context)
   <-> ~ Spec.market_related query /\ walletConnected context = false
       /\ expertiseLevel context = Some beginner)
  /\ (In "Show advanced trading metrics" (generateSuggestions query response context)
   <-> ~ Spec.market_related query /\ walletConnected context = false
       /\ expertiseLevel context = Some advanced)
  /\ NoDup (generateSuggestions query response context)
  /\ (generateSuggestions query response context = []
   <-> ~ Spec.market_related query /\ walletConnected context = false
       /\ expertiseLevel context <> Some beginner
       /\ expertiseLevel context <> Some advanced).
Proof.
  intros _. rewrite generateSuggestions_eq.
  pose proof (isMarketRelatedQuery_spec query) as Hq.
  destruct (isMarketRelatedQuery query), (walletConnected context),
    (expertiseLevel context) as [[| |]|]; cbn.
  all: assert (Hyes : true = true) by reflexivity.
  all: repeat split; intros;
    repeat match goal with
           | H : _ \/ _ |- _ => destruct H
           | H : _ /\ _ |- _ => destruct H
           | H : False |- _ => contradiction
           | H : ?x <> ?x |- _ => contradiction
           | H : ~ Spec.market_related _ |- _ => exfalso; apply H, Hq, Hyes
           end;
    try discriminate; try congruence; auto.
  all: try (apply (bool_decide_unpack _); vm_compute; exact I).
  all: try (intros Hm; apply Hq in Hm; discriminate Hm).
Qed.

Lemma educational_suggestion_only_alone_witness :
  In "Explain blockchain basics"
     (generateSuggestions "hello" None (Sample.plain_context false (Some beginner))).
Proof.
  destruct (educational_suggestion_only_alone "hello" None
              (Sample.plain_context false (Some beginner))) as (Hbeginner & _).
  - reflexivity.
  - apply Hbeginner. split; [|split; reflexivity].
    intros Hm. apply isMarketRelatedQuery_spec in Hm. vm_compute in Hm. discriminate Hm.
Defined.

(** ** More on the entry point *)

(** X19.  Once the query processor has returned, the reply of the entry
    point depends on the training recorder alone: when recording returns,
    the reply passes on the processor's message and suggestions; when it
    throws, the reply is the fixed fallback and the processor's answer is
    lost.  Recording is the last outside call either way. *)
Theorem reply_follows_recorder `{Externals} (prompt : string) (context : Context)
    (w w1 : World) (answer : Grok.Response) :
  processQuery prompt context w = (Returned answer, w1) ->
  let metrics := interaction_metrics context (clock (ext w1)) in
  (forall x2,
      recordInteraction prompt (Grok.message answer) metrics (ext w1) = (Returned tt, x2) ->
      generateEnhancedResponse prompt context w
      = (Returned {| Reply.message := Grok.message answer;
                     Reply.intent := None;
                     Reply.suggestions := Some (Grok.suggestions answer) |},
         {| ext := x2; service := service w1;
            calls := calls w1 ++ [CallRecordInteraction] |}))
  /\ (forall e x2,
      recordInteraction prompt (Grok.message answer) metrics (ext w1) = (Thrown e, x2) ->
      generateEnhancedResponse prompt context w
      = (Returned integration_fallback,
         {| ext := x2; service := service w1;
            calls := calls w1 ++ [CallRecordInteraction] |})).
Proof.
  intros Hq metrics.
  assert (Hm : forall r x2,
             recordInteraction prompt (Grok.message answer) metrics (ext w1) = (r, x2) ->
             generateEnhancedResponse prompt context w
             = (match r with
                | Returned _ =>
                    Returned {| Reply.message := Grok.message answer;
                                Reply.intent := None;
                                Reply.suggestions := Some (Grok.suggestions answer) |}
                | Thrown _ => Returned integration_fallback
                end,
                {| ext := x2; service := service w1;
                   calls := calls w1 ++ [CallRecordInteraction] |})).
  { intros r x2 Hr.
    unfold generateEnhancedResponse, generateEnhancedResponse_try. step_monad.
    rewrite Hq. step_monad. unfold metrics, interaction_metrics in Hr.
    destruct (startTime context) as [t |]; [destruct (t =? 0)|];
      step_monad; rewrite Hr; destruct r; reflexivity. }
  split.
  - intros x2 Hr. apply (Hm _ _ Hr).
  - intros e x2 Hr. apply (Hm _ _ Hr).
Qed.

Lemma reply_follows_recorder_witness :
  exists w2,
    generateEnhancedResponse "hello" (Sample.plain_context false None)
      (Sample.start [Returned Sample.scenario] false)
    = (Returned {| Reply.message := Some "ok"; Reply.intent := None;
                   Reply.suggestions := Some [] |}, w2).
Proof.
  destruct (processQuery "hello" (Sample.plain_context false None)
              (Sample.start [Returned Sample.scenario] false))
    as [[answer | e] w1] eqn:E; [| vm_compute in E; discriminate E].
  destruct (reply_follows_recorder "hello" (Sample.plain_context false None)
              (Sample.start [Returned Sample.scenario] false) w1 answer E)
    as (Hok & _).
  assert (Ha : answer = {| Grok.message := Some "ok"; Grok.suggestions := [];
                           Grok.analysis := None |}).
  { vm_compute in E. injection E as <- _. reflexivity. }
  eexists. rewrite (Hok (ext w1)).
  - rewrite Ha. reflexivity.
  - vm_compute in E. injection E as _ <-. reflexivity.
Defined.

(** ** Chat front-end *)

(** X20.  [getMarketContext] never throws: it starts both fetches, leaves
    the cache alone, and returns [null] exactly when one of the two fetches
    throws. *)
Theorem market_context_never_throws `{Externals} (w : World) :
  let market := getMarketData Chat.context_symbols (ext w) in
  let mood := getMarketSentiment (snd market) in
  exists r,
    Chat.getMarketContext w
    = (Returned r,
       {| ext := snd mood; service := service w;
          calls := calls w ++ [CallMarketData Chat.context_symbols; CallMarketSentiment] |})
    /\ (r = None <-> (exists e, fst market = Thrown e) \/ (exists e, fst mood = Thrown e))
    /\ (forall data snapshot,
          fst market = Returned data -> fst mood = Returned snapshot ->
          r = Some {| Chat.contextMarketData := data;
                      Chat.contextSentiment := snapshot;
                      Chat.contextTimestamp := clock (snd mood) |}).
Proof.
  intros market mood. unfold Chat.getMarketContext. step_monad.
  subst mood market.
  destruct (getMarketData Chat.context_symbols (ext w)) as [r1 x1]. step_monad.
  destruct (getMarketSentiment x1) as [r2 x2]. step_monad.
  rewrite <- app_assoc. cbn [app].
  destruct r1 as [data | e1], r2 as [snapshot | e2]; step_monad; eexists;
    (split; [reflexivity|]); split;
    try (split; [intros H0; try discriminate H0
                | intros [(e & H0) | (e & H0)]; discriminate H0]);
    try (intros d s H1 H2; try discriminate H1; try discriminate H2).
  - injection H1 as <-. injection H2 as <-. reflexivity.
  - split; [intros _; right; eexists; reflexivity | reflexivity].
  - split; [intros _; left; eexists; reflexivity | reflexivity].
  - split; [intros _; left; eexists; reflexivity | reflexivity].
Qed.

(** X21.  [handleAIResponse] always appends exactly one assistant message.
    It opens the swap dialog, or stores a pending swap, only for a connected
    wallet with a public key and a SWAP intent with both tokens; it opens the
    transfer dialog, or stores a transfer, only for a connected wallet with a
    public key and a TRANSFER intent with recipient and amount.  Without a
    connected wallet the message is the wallet error and nothing else
    changes. *)
Theorem dialog_needs_valid_intent (wallet : Chat.Wallet) (intent : Chat.Intent)
    (st : Chat.State) :
  let st' := Chat.handleAIResponse wallet intent st in
  (exists text,
      Chat.messages st'
      = Chat.messages st ++ [ {| role := "assistant"; content := text |} ])
  /\ (Chat.isConfirmationOpen st' <> Chat.isConfirmationOpen st
      \/ Chat.pendingSwapIntent st' <> Chat.pendingSwapIntent st ->
      Chat.connected wallet = true /\ Chat.publicKey wallet <> None
      /\ Chat.type intent = Some "SWAP"
      /\ Chat.truthy (Chat.fromToken intent) = true
      /\ Chat.truthy (Chat.toToken intent) = true)
  /\ (Chat.showTransactionConfirmation st' <> Chat.showTransactionConfirmation st
      \/ Chat.transferIntent st' <> Chat.transferIntent st ->
      Chat.connected wallet = true /\ Chat.publicKey wallet <> None
      /\ Chat.type intent = Some "TRANSFER"
      /\ Chat.truthy (Chat.recipient intent) = true
      /\ Chat.truthy (Chat.amount intent) = true)
  /\ (Chat.connected wallet = false \/ Chat.publicKey wallet = None ->
      st' = Chat.say "Error: Wallet not connected. Please try again." st).
Proof.
  intros st'. subst st'. unfold Chat.handleAIResponse, Chat.validate.
  destruct (Chat.connected wallet), (Chat.publicKey wallet) as [key |]; cbn [negb orb].
  2-4: (split; [eexists; reflexivity|]);
       (split; [intros [H | H]; exfalso; apply H; reflexivity|]);
       (split; [intros [H | H]; exfalso; apply H; reflexivity|]);
       intros _; reflexivity.
  destruct (Chat.type intent) as [kind |].
  2: { split; [eexists; reflexivity|].
       split; [intros [H | H]; exfalso; apply H; reflexivity|].
       split; [intros [H | H]; exfalso; apply H; reflexivity|].
       intros [H | H]; discriminate H. }
  destruct (String.eqb_spec kind "SWAP") as [-> | Hswap].
  - destruct (Chat.truthy (Chat.fromToken intent)), (Chat.truthy (Chat.toToken intent));
      cbn [negb orb];
      (split; [eexists; reflexivity|]);
      (split; [try (intros _; repeat split; discriminate);
               intros [H | H]; exfalso; apply H; reflexivity|]);
      (split; [intros [H | H]; exfalso; apply H; reflexivity|]);
      intros [H | H]; discriminate H.
  - destruct (String.eqb_spec kind "TRANSFER") as [-> | Htransfer].
    + destruct (Chat.truthy (Chat.recipient intent)), (Chat.truthy (Chat.amount intent));
        cbn [negb orb];
        (split; [eexists; reflexivity|]);
        (split; [intros [H | H]; exfalso; apply H; reflexivity|]);
        (split; [try (intros _; repeat split; discriminate);
                 intros [H | H]; exfalso; apply H; reflexivity|]);
        intros [H | H]; discriminate H.
    + split; [eexists; reflexivity|].
      split; [intros [H | H]; exfalso; apply H; reflexivity|].
      split; [intros [H | H]; exfalso; apply H; reflexivity|].
      intros [H | H]; discriminate H.
Qed.

(** ** More on expertise and query detection *)

Lemma user_mentions_incl (terms : list string) (older newer : list AIMessage) :
  (forall m, In m older -> In m newer) ->
  Spec.user_mentions terms older -> Spec.user_mentions terms newer.
Proof.
  intros Hincl (m & term & Hm & Hrest). exists m, term. split; [apply Hincl, Hm | exact Hrest].
Qed.

(** X22.  The inferred level never drops when messages are added to the
    history; messages that are not from the user do not change it; and an
    empty history gives beginner. *)
Theorem expertise_never_decreases (older newer : list AIMessage) :
  (forall m, In m older -> In m newer) ->
  (expertise_rank (determineUserExpertise older)
     <= expertise_rank (determineUserExpertise newer))%nat
  /\ (forall m, role m <> "user" ->
        determineUserExpertise (older ++ [m]) = determineUserExpertise older)
  /\ determineUserExpertise [] = beginner.
Proof.
  intros Hincl. split; [|split; [|reflexivity]].
  - pose proof (user_terms_mentioned advancedTerms older advancedTerms_lower) as Ha.
    pose proof (user_terms_mentioned intermediateTerms older intermediateTerms_lower) as Hi.
    pose proof (user_terms_mentioned advancedTerms newer advancedTerms_lower) as Ha'.
    pose proof (user_terms_mentioned intermediateTerms newer intermediateTerms_lower) as Hi'.
    pose proof (user_mentions_incl advancedTerms older newer Hincl) as Hma.
    pose proof (user_mentions_incl intermediateTerms older newer Hincl) as Hmi.
    unfold determineUserExpertise.
    destruct (existsb _ (map _ (List.filter _ older))) eqn:Ea in Ha |- *;
      destruct (existsb _ (map _ (List.filter _ older))) eqn:Ei in Hi |- *;
      destruct (existsb _ (map _ (List.filter _ newer))) eqn:Ea' in Ha' |- *;
      destruct (existsb _ (map _ (List.filter _ newer))) eqn:Ei' in Hi' |- *;
      cbn; try lia.
    all: exfalso.
    all: try (assert (true = true) as Ht by reflexivity;
              first [ apply Ha in Ht; apply Hma in Ht; apply Ha' in Ht; discriminate Ht
                    | apply Hi in Ht; apply Hmi in Ht; apply Hi' in Ht; discriminate Ht ]).
  - intros m Hrole. unfold determineUserExpertise.
    rewrite List.filter_app. cbn [List.filter].
    apply String.eqb_neq in Hrole. rewrite Hrole. now rewrite app_nil_r.
Qed.

Lemma expertise_never_decreases_witness :
  (expertise_rank (determineUserExpertise
                     [ {| role := "user"; content := "what is staking" |} ])
   <= expertise_rank (determineUserExpertise
                        [ {| role := "user"; content := "what is staking" |};
                          {| role := "user"; content := "and MEV?" |} ]))%nat.
Proof.
  apply (expertise_never_decreases
           [ {| role := "user"; content := "what is staking" |} ]
           [ {| role := "user"; content := "what is staking" |};
             {| role := "user"; content := "and MEV?" |} ]).
  intros m [<- | []]. left. reflexivity.
Defined.

(** X23.  A query of ASCII text counts as market-related exactly when one
    of the six market terms occurs in it, letter case ignored, also inside
    a longer word; text around a query in which a term occurs keeps it
    market-related, and the empty query is not market-related. *)
Theorem market_query_by_substring (query : string) :
  Spec.ascii_text query ->
  (isMarketRelatedQuery query = true <-> Spec.market_related query)
  /\ (Spec.market_related query ->
      forall before after, isMarketRelatedQuery (before +:+ query +:+ after) = true)
  /\ (query = EmptyString -> isMarketRelatedQuery query = false)
  /\ isMarketRelatedQuery "Psychoanalysis" = true.
Proof.
  intros _. split; [apply isMarketRelatedQuery_spec|].
  split; [|split; [intros ->; reflexivity | reflexivity]].
  intros (term & Hin & b & m & a & -> & Hm) before after.
  apply isMarketRelatedQuery_spec.
  exists term. split; [exact Hin|].
  exists (before +:+ b), m, (a +:+ after). split; [|exact Hm].
  now rewrite !append_assoc.
Qed.

Lemma market_query_by_substring_witness :
  isMarketRelatedQuery "Market update" = true
  /\ isMarketRelatedQuery ("The " +:+ "Market update" +:+ ", please") = true.
Proof.
  destruct (market_query_by_substring "Market update") as (Hiff & Hembed & _).
  - reflexivity.
  - assert (Hm : Spec.market_related "Market update").
    { exists "market". split; [right; left; reflexivity|].
      exists EmptyString, "Market", " update". split; reflexivity. }
    split; [apply Hiff, Hm | apply Hembed, Hm].
Defined.
